(** * Authentication and authorization core of the e-learning API

    A shallow embedding of [main.py], [schemas.py] and [database.py]:
    Python dictionaries are finite maps from strings to values, the
    [user] collection is a list of stored documents in insertion order,
    and every handler is a computation in a state-and-exception monad
    over the process environment (store, clock, hasher entropy).  The
    course routes and the health check run in the same way over a state
    that adds the [course] and [__health] collections.  *)

From stdpp Require Import gmap strings list fin_maps pretty.
From Stdlib Require Import ZArith Ascii String.

Open Scope string_scope.
Open Scope Z_scope.

(** ** Python values and dictionaries *)

(** The values that occur in the documents and token claims of this
    program: [str], [bool], [int], [bson.ObjectId] and [datetime]
    (microseconds since the epoch, UTC). *)
Inductive value :=
| VStr (s : string)
| VBool (b : bool)
| VInt (z : Z)
| VOid (o : N)
| VTime (t : Z).

#[global] Instance value_eq_dec : EqDecision value.
Proof. solve_decision. Defined.

Abbreviation dict := (gmap string value).

(** ** Exceptions *)

Inductive exn :=
| HTTPException (status_code : Z) (detail : string)
                (headers : list (string * string))
| JWTError (msg : string)
| InvalidId
| KeyError (key : string)
| TypeError
| ValidationError
| DuplicateKeyError
| PyMongoError (msg : string)
| LibraryError (msg : string).

#[global] Instance exn_eq_dec : EqDecision exn.
Proof. solve_decision. Defined.

Inductive result (A : Type) :=
| Ok (a : A)
| Err (e : exn).
Arguments Ok {A} a.
Arguments Err {A} e.

#[global] Instance result_eq_dec {A} `{EqDecision A} : EqDecision (result A).
Proof. solve_decision. Defined.

(** ** ObjectId

    An ObjectId is twelve bytes, here a number below [2^96]; [str]
    renders it as 24 lower-case hexadecimal digits and the constructor
    [ObjectId(s)] accepts exactly the strings of 24 hexadecimal digits. *)

Definition hex_digit (n : N) : ascii :=
  match n with
  | 0 => "0" | 1 => "1" | 2 => "2" | 3 => "3" | 4 => "4" | 5 => "5"
  | 6 => "6" | 7 => "7" | 8 => "8" | 9 => "9" | 10 => "a" | 11 => "b"
  | 12 => "c" | 13 => "d" | 14 => "e" | _ => "f"
  end%N%char.

Definition hex_value (c : ascii) : option N :=
  let n := N_of_ascii c in
  if ((48 <=? n) && (n <=? 57))%N then Some (n - 48)%N
  else if ((97 <=? n) && (n <=? 102))%N then Some (n - 87)%N
  else if ((65 <=? n) && (n <=? 70))%N then Some (n - 55)%N
  else None.

Fixpoint hex_of (digits : nat) (n : N) (acc : string) : string :=
  match digits with
  | O => acc
  | S d => hex_of d (n / 16)%N (String (hex_digit (n mod 16)%N) acc)
  end.

Definition oid_str (o : N) : string := hex_of 24 o "".

Fixpoint hex_parse (s : string) (acc : N) : option N :=
  match s with
  | EmptyString => Some acc
  | String c rest =>
      match hex_value c with
      | Some d => hex_parse rest (16 * acc + d)%N
      | None => None
      end
  end.

Definition ObjectId (s : string) : result N :=
  if (String.length s =? 24)%nat then
    match hex_parse s 0%N with
    | Some o => Ok o
    | None => Err InvalidId
    end
  else Err InvalidId.

(** [str(v)] for the values above; only the ObjectId and [str] cases are
    ever used by the program. *)
Definition py_str (v : value) : string :=
  match v with
  | VStr s => s
  | VBool true => "True"
  | VBool false => "False"
  | VInt z => pretty z
  | VOid o => oid_str o
  | VTime t => pretty t
  end.

(** ** The process environment *)

(** A stored document is its [_id] together with its other fields. *)
Definition stored : Type := N * dict.

Definition as_doc (s : stored) : dict := <["_id" := VOid s.1]> s.2.

Record world := World {
  users : list stored;          (* collection "user", in insertion order *)
  email_unique : bool;          (* the unique index on "email" exists *)
  faults : list (option exn);   (* outcome of the coming store round trips *)
  now : Z;                      (* datetime.utcnow(), in microseconds *)
  entropy : N;                  (* source of salts for the hasher *)
}.

#[global] Instance world_eq_dec : EqDecision world.
Proof. solve_decision. Defined.

Definition set_users (us : list stored) (w : world) : world :=
  World us (email_unique w) (faults w) (now w) (entropy w).
Definition set_email_unique (b : bool) (w : world) : world :=
  World (users w) b (faults w) (now w) (entropy w).
Definition set_faults (fs : list (option exn)) (w : world) : world :=
  World (users w) (email_unique w) fs (now w) (entropy w).
Definition set_now (t : Z) (w : world) : world :=
  World (users w) (email_unique w) (faults w) t (entropy w).
Definition set_entropy (n : N) (w : world) : world :=
  World (users w) (email_unique w) (faults w) (now w) n.

(** ** State and exception monad *)

Definition M (A : Type) : Type := world -> result A * world.

Definition ret {A} (a : A) : M A := fun w => (Ok a, w).
Definition raise {A} (e : exn) : M A := fun w => (Err e, w).
Definition bind {A B} (m : M A) (k : A -> M B) : M B :=
  fun w => match m w with
           | (Ok a, w') => k a w'
           | (Err e, w') => (Err e, w')
           end.
Definition lift {A} (r : result A) : M A := fun w => (r, w).

(** [try: body except C: handler], where [catches e] tells whether the
    exception is an instance of the class [C]. *)
Definition try_except {A} (body : M A) (catches : exn -> bool)
    (handler : exn -> M A) : M A :=
  fun w => match body w with
           | (Ok a, w') => (Ok a, w')
           | (Err e, w') => if catches e then handler e w' else (Err e, w')
           end.

Notation "'let!' x ':=' m 'in' k" := (bind m (fun x => k))
  (at level 10, x name, m at level 100, k at level 200,
   format "'[v' 'let!'  x  ':='  m  'in' '/' k ']'").
Notation "'run!' m 'in' k" := (bind m (fun _ => k))
  (at level 10, m at level 100, k at level 200,
   format "'[v' 'run!'  m  'in' '/' k ']'").

Definition utcnow : M Z := fun w => (Ok (now w), w).

(** The result of a computation and the environment it leaves. *)
Definition out {A} (m : M A) (w : world) : result A := fst (m w).
Definition run {A} (m : M A) (w : world) : world := snd (m w).


(** ** The document store (the driver calls used by the program) *)

(** One round trip to the store: the driver raises when a failure is
    scheduled for it. *)
Definition round_trip : M unit := fun w =>
  match faults w with
  | [] => (Ok tt, w)
  | None :: fs => (Ok tt, set_faults fs w)
  | Some e :: fs => (Err e, set_faults fs w)
  end.

(** An equality filter [{k1: v1, ...}] selects the documents that carry
    all its bindings. *)
Definition matches (filter doc : dict) : bool := bool_decide (filter ⊆ doc).

Definition select (filter : dict) (us : list stored) : list dict :=
  as_doc <$> List.filter (fun s => matches filter (as_doc s)) us.

Definition find_one (filter : dict) : M (option dict) :=
  run! round_trip in
  fun w => (Ok (head (select filter (users w))), w).

(** [find(filter).limit(n)] read to the end; a limit of 0 is no limit. *)
Definition find_limit (filter : dict) (limit : nat) : M (list dict) :=
  run! round_trip in
  fun w => let docs := select filter (users w) in
           (Ok (if (limit =? 0)%nat then docs else take limit docs), w).

Definition fresh_oid (us : list stored) : N :=
  N.succ (foldr (fun s m => N.max s.1 m) 0%N us).

(** The unique index compares the [email] field, a missing field
    counting as null. *)
Definition email_clash (d : dict) (us : list stored) : bool :=
  existsb (fun s => bool_decide (as_doc s !! "email" = d !! "email")) us.

(** [insert_one(d)], for a document without [_id]: the store assigns a
    fresh ObjectId. *)
Definition insert_one (d : dict) : M N :=
  run! round_trip in
  fun w =>
    if email_unique w && email_clash d (users w)
    then (Err DuplicateKeyError, w)
    else let o := fresh_oid (users w) in
         (Ok o, set_users (users w ++ [(o, d)]) w).

Fixpoint emails_distinct (us : list stored) : bool :=
  match us with
  | [] => true
  | s :: rest => negb (email_clash (as_doc s) rest) && emails_distinct rest
  end.

(** [create_index("email", unique=True)] *)
Definition create_index_email : M unit :=
  run! round_trip in
  fun w => if emails_distinct (users w)
           then (Ok tt, set_email_unique true w)
           else (Err DuplicateKeyError, w).

(** ** Python helpers *)

(** Truth value of an [Optional[dict]]: [None] and the empty dict are false. *)
Definition truthy (o : option dict) : bool :=
  match o with
  | Some d => negb (bool_decide (d = ∅))
  | None => false
  end.

(** [d[k]] *)
Definition item (d : dict) (k : string) : M value :=
  match d !! k with
  | Some v => ret v
  | None => raise (KeyError k)
  end.

(** [d.get(k, dflt)] *)
Definition get_default (d : dict) (k : string) (dflt : value) : value :=
  default dflt (d !! k).

(** [s or dflt] for an [Optional[str]] *)
Definition str_or (s : option string) (dflt : string) : string :=
  match s with
  | Some r => if bool_decide (r = "") then dflt else r
  | None => dflt
  end.

(** ** Signed tokens (python-jose)

    A bearer string either is not a compact JWS at all, or carries a
    header algorithm, a JSON object of claims and a signature. *)
Inductive token :=
| Opaque (s : string)
| Jws (alg : string) (claims : dict) (signature : string).

#[global] Instance token_eq_dec : EqDecision token.
Proof. solve_decision. Defined.

Definition json_value (v : value) : bool :=
  match v with
  | VStr _ | VBool _ | VInt _ => true
  | VOid _ | VTime _ => false
  end.

Definition json_object (d : dict) : bool :=
  bool_decide (map_Forall (fun _ v => json_value v = true) d).

(** [calendar.timegm(t.utctimetuple())]: whole seconds since the epoch. *)
Definition timegm (t : Z) : Z := t / 1000000.

Definition numeric_date (v : value) : value :=
  match v with
  | VTime t => VInt (timegm t)
  | _ => v
  end.

(** [int(v)] on a claim *)
Definition claim_int (v : value) : option Z :=
  match v with
  | VInt z => Some z
  | VBool b => Some (if b then 1 else 0)
  | _ => None
  end.

Definition is_str (v : value) : bool :=
  match v with VStr _ => true | _ => false end.

(** Validation of the registered claims, as [jwt.decode] does it when
    called with no audience, issuer, subject or access token. *)
Definition validate_iat (claims : dict) : result unit :=
  match claims !! "iat" with
  | Some v =>
      match claim_int v with
      | Some _ => Ok tt
      | None => Err (JWTError "Issued At claim (iat) must be an integer.")
      end
  | None => Ok tt
  end.

Definition validate_nbf (claims : dict) (now_s : Z) : result unit :=
  match claims !! "nbf" with
  | Some v =>
      match claim_int v with
      | Some nbf => if now_s <? nbf
                    then Err (JWTError "The token is not yet valid (nbf)")
                    else Ok tt
      | None => Err (JWTError "Not Before claim (nbf) must be an integer.")
      end
  | None => Ok tt
  end.

Definition validate_exp (claims : dict) (now_s : Z) : result unit :=
  match claims !! "exp" with
  | Some v =>
      match claim_int v with
      | Some exp => if exp <? now_s
                    then Err (JWTError "Signature has expired.")
                    else Ok tt
      | None => Err (JWTError "Expiration Time claim (exp) must be an integer.")
      end
  | None => Ok tt
  end.

Definition validate_aud (claims : dict) : result unit :=
  match claims !! "aud" with
  | Some _ => Err (JWTError "Invalid audience")
  | None => Ok tt
  end.

Definition validate_sub (claims : dict) : result unit :=
  match claims !! "sub" with
  | Some v => if is_str v then Ok tt
              else Err (JWTError "Subject must be a string.")
  | None => Ok tt
  end.

Definition validate_jti (claims : dict) : result unit :=
  match claims !! "jti" with
  | Some v => if is_str v then Ok tt
              else Err (JWTError "JWT ID must be a string.")
  | None => Ok tt
  end.

Definition validate_at_hash (claims : dict) : result unit :=
  match claims !! "at_hash" with
  | Some _ => Err (JWTError "No access_token provided to compare against at_hash claim.")
  | None => Ok tt
  end.

Fixpoint first_error (checks : list (result unit)) : result unit :=
  match checks with
  | [] => Ok tt
  | Ok _ :: rest => first_error rest
  | Err e :: _ => Err e
  end.

Definition validate_claims (claims : dict) (now_s : Z) : result unit :=
  first_error [ validate_iat claims; validate_nbf claims now_s;
                validate_exp claims now_s; validate_aud claims;
                validate_sub claims; validate_jti claims;
                validate_at_hash claims ].

(** ** Library functions taken as parameters *)

Class Libraries := {
  (* passlib: CryptContext.hash with the salt it draws, CryptContext.verify *)
  pwd_context_hash : N -> string -> result string;
  pwd_context_verify : string -> string -> result bool;
  (* pydantic: does the string validate as an EmailStr *)
  email_str : string -> bool;
  (* HMAC-SHA-256 of the signing input (header, claims) under a key *)
  hmac_sha256 : string -> string -> dict -> string;
  (* datetime.isoformat *)
  isoformat : Z -> string;
}.

(** ** Request bodies: [UserCreate] of schemas.py and the login form *)

Module UserCreate.
Record t := Build {
  email : string;
  full_name : string;
  password : string;
  role : option string;
}.
End UserCreate.

(** OAuth2PasswordRequestForm *)
Module Form.
Record t := Build {
  username : string;
  password : string;
}.
End Form.

(** * database.py *)

Section Program.
Context {L : Libraries}.

Definition ensure_indexes : M unit := create_index_email.

Definition pop_id (d : dict) : M dict :=
  match d !! "_id" with
  | Some v => ret (<["id" := VStr (py_str v)]> (delete "_id" d))
  | None => raise (KeyError "_id")
  end.

Definition create_document (data : dict) : M dict :=
  let! t := utcnow in
  let stamp := VStr (isoformat t) in
  let data_to_insert := <["updated_at" := stamp]> (<["created_at" := stamp]> data) in
  let! inserted_id := insert_one data_to_insert in
  let! inserted := find_one {["_id" := VOid inserted_id]} in
  match inserted with
  | Some d =>
      if bool_decide (d = ∅) then ret ∅ else pop_id d
  | None => ret ∅
  end.

Fixpoint pop_ids (docs : list dict) : M (list dict) :=
  match docs with
  | [] => ret []
  | d :: rest =>
      let! d' := pop_id d in
      let! rest' := pop_ids rest in
      ret (d' :: rest')
  end.

Definition get_documents (filter_dict : option dict) (limit : nat) : M (list dict) :=
  let filter_dict :=
    match filter_dict with
    | Some f => if bool_decide (f = ∅) then ∅ else f
    | None => ∅
    end in
  let! cursor := find_limit filter_dict limit in
  pop_ids cursor.


(** * schemas.py *)

(** [User(...).model_dump()]: the field types are fixed by the callers,
    the email is validated. *)
Definition User (email full_name hashed_password role : string) : result dict :=
  if email_str email then
    Ok {[ "email" := VStr email; "full_name" := VStr full_name;
          "hashed_password" := VStr hashed_password; "role" := VStr role;
          "is_active" := VBool true ]}
  else Err ValidationError.

(** [UserPublic(...)], as it is serialized in a response. *)
Definition UserPublic (id email full_name role is_active : value) : result dict :=
  match id, email, full_name, role, is_active with
  | VStr _, VStr e, VStr _, VStr _, VBool _ =>
      if email_str e then
        Ok {[ "id" := id; "email" := email; "full_name" := full_name;
              "role" := role; "is_active" := is_active ]}
      else Err ValidationError
  | _, _, _, _, _ => Err ValidationError
  end.

(** * main.py *)

Definition SECRET_KEY : string := "dev-secret-key-change-in-prod".
Definition ALGORITHM : string := "HS256".
Definition ACCESS_TOKEN_EXPIRE_MINUTES : Z := 60 * 24.

(** [timedelta(minutes=m)], in microseconds *)
Definition timedelta_minutes (m : Z) : Z := m * 60 * 1000000.

(** [jwt.encode(claims, key, algorithm)] *)
Definition jwt_encode (claims : dict) (key algorithm : string) : result token :=
  let claims := alter numeric_date "exp"
                  (alter numeric_date "iat" (alter numeric_date "nbf" claims)) in
  if json_object claims
  then Ok (Jws algorithm claims (hmac_sha256 key algorithm claims))
  else Err TypeError.

(** [jwt.decode(token, key, algorithms)] *)
Definition jwt_decode (tok : token) (key : string) (algorithms : list string)
    : M dict :=
  match tok with
  | Opaque _ => raise (JWTError "Not enough segments")
  | Jws alg claims signature =>
      if negb (json_object claims) then
        raise (JWTError "Invalid payload string")
      else if negb (bool_decide (alg ∈ algorithms)) then
        raise (JWTError "The specified alg value is not allowed")
      else if negb (bool_decide (signature = hmac_sha256 key alg claims)) then
        raise (JWTError "Signature verification failed.")
      else
        let! t := utcnow in
        run! lift (validate_claims claims (timegm t)) in
        ret claims
  end.

Definition verify_password (plain_password : string) (hashed_password : value)
    : M bool :=
  match hashed_password with
  | VStr h => lift (pwd_context_verify plain_password h)
  | _ => raise TypeError
  end.

Definition get_password_hash (password : string) : M string :=
  fun w => (pwd_context_hash (entropy w) password,
            set_entropy (N.succ (entropy w)) w).

Definition get_user_by_identifier (identifier : string) : M (option dict) :=
  let! user := find_one {["email" := VStr identifier]} in
  if truthy user then ret user
  else find_one {["full_name" := VStr identifier]}.

Definition authenticate_user (identifier password : string) : M (option dict) :=
  let! user := get_user_by_identifier identifier in
  match user with
  | Some u =>
      if negb (truthy user) then ret None else
      let! ok := verify_password password
                   (get_default u "hashed_password" (VStr "")) in
      if negb ok then ret None else
      let! u := pop_id u in
      ret (Some u)
  | None => ret None
  end.

Definition create_access_token (data : dict) (expires_delta : option Z) : M token :=
  let to_encode := data in
  let! t := utcnow in
  let delta :=
    match expires_delta with
    | Some d => if d =? 0 then timedelta_minutes ACCESS_TOKEN_EXPIRE_MINUTES else d
    | None => timedelta_minutes ACCESS_TOKEN_EXPIRE_MINUTES
    end in
  let expire := t + delta in
  let to_encode := <["exp" := VTime expire]> to_encode in
  lift (jwt_encode to_encode SECRET_KEY ALGORITHM).

Definition is_JWTError (e : exn) : bool :=
  match e with JWTError _ => true | _ => false end.

Definition credentials_exception : exn :=
  HTTPException 401 "Could not validate credentials"
    [("WWW-Authenticate", "Bearer")].

(** [oauth2_scheme]: the bearer token of the request, if it has one. *)
Definition oauth2_scheme (authorization : option token) : M token :=
  match authorization with
  | Some tok => ret tok
  | None => raise (HTTPException 401 "Not authenticated"
                     [("WWW-Authenticate", "Bearer")])
  end.

(** The [try] block of [get_current_user]. *)
Definition token_subject (tok : token) : M value :=
  try_except
    (let! payload := jwt_decode tok SECRET_KEY [ALGORITHM] in
     match payload !! "sub" with
     | Some user_id => ret user_id
     | None => raise credentials_exception
     end)
    is_JWTError
    (fun _ => raise credentials_exception).

Definition get_current_user (tok : token) : M dict :=
  let! user_id := token_subject tok in
  let! oid := match user_id with
              | VStr s => lift (ObjectId s)
              | _ => raise TypeError
              end in
  let! user := find_one {["_id" := VOid oid]} in
  match user with
  | Some u =>
      if negb (truthy user) then raise credentials_exception
      else pop_id u
  | None => raise credentials_exception
  end.

Definition get_current_admin (user : dict) : M dict :=
  if bool_decide (user !! "role" ≠ Some (VStr "admin"))
  then raise (HTTPException 403 "Admin privileges required" [])
  else ret user.

Definition ensure_default_admin : M unit :=
  try_except
    (let! existed := find_one {["role" := VStr "admin"]} in
     if truthy existed then ret tt else
     let! hashed := get_password_hash "Antonio89" in
     let! user_doc := lift (User "antonio.admin@demo.local" "AntonioAdmin"
                              hashed "admin") in
     run! create_document user_doc in
     ret tt)
    (fun _ => true)
    (fun _ => ret tt).

Definition register (user_in : UserCreate.t) : M dict :=
  let! existing := find_one {["email" := VStr (UserCreate.email user_in)]} in
  if truthy existing then
    raise (HTTPException 400 "Email already registered" [])
  else
  let! hashed := get_password_hash (UserCreate.password user_in) in
  let! user_doc := lift (User (UserCreate.email user_in)
                           (UserCreate.full_name user_in) hashed
                           (str_or (UserCreate.role user_in) "student")) in
  let! created := create_document user_doc in
  let! id := item created "id" in
  let! email := item created "email" in
  let! full_name := item created "full_name" in
  let! role := item created "role" in
  lift (UserPublic id email full_name role
          (get_default created "is_active" (VBool true))).

Definition login (form_data : Form.t) : M token :=
  run! ensure_default_admin in
  let! user := authenticate_user (Form.username form_data)
                 (Form.password form_data) in
  match user with
  | Some u =>
      if negb (truthy user) then
        raise (HTTPException 400 "Incorrect credentials" [])
      else
      let! sub := item u "id" in
      create_access_token
        {[ "sub" := sub; "role" := get_default u "role" (VStr "student") ]}
        None
  | None => raise (HTTPException 400 "Incorrect credentials" [])
  end.

Definition me (authorization : option token) : M dict :=
  let! tok := oauth2_scheme authorization in
  let! current_user := get_current_user tok in
  let! id := item current_user "id" in
  let! email := item current_user "email" in
  let! full_name := item current_user "full_name" in
  lift (UserPublic id email full_name
          (get_default current_user "role" (VStr "student"))
          (get_default current_user "is_active" (VBool true))).

Definition admin_list_users (authorization : option token) : M (list dict) :=
  let! tok := oauth2_scheme authorization in
  let! user := get_current_user tok in
  let! admin := get_current_admin user in
  let! docs := get_documents (Some ∅) 200 in
  ret docs.

End Program.

(** * A reference instance of the library parameters

    A toy hasher (salt and password in the clear, anything else verifies
    as false), a validator that asks for an [@], and a keyed digest that
    spells out its input; enough to run the handlers on concrete
    requests. *)

Fixpoint after_dollar (s : string) : option string :=
  match s with
  | EmptyString => None
  | String c rest => if bool_decide (c = "$"%char) then Some rest else after_dollar rest
  end.

Definition toy_hash (salt : N) (password : string) : result string :=
  Ok ("$toy$" ++ pretty salt ++ "$" ++ password).

Definition toy_verify (password hashed : string) : result bool :=
  match hashed with
  | String "$" (String "t" (String "o" (String "y" (String "$" rest)))) =>
      match after_dollar rest with
      | Some p => Ok (bool_decide (p = password))
      | None => Ok false
      end
  | _ => Ok false
  end.

Fixpoint has_at (s : string) : bool :=
  match s with
  | EmptyString => false
  | String c rest => bool_decide (c = "@"%char) || has_at rest
  end.

Definition toy_mac (key alg : string) (claims : dict) : string :=
  key ++ "/" ++ alg ++ "/" ++
  foldr (fun kv acc => kv.1 ++ "=" ++ py_str kv.2 ++ ";" ++ acc) ""
        (map_to_list claims).

Definition toy : Libraries := {|
  pwd_context_hash := toy_hash;
  pwd_context_verify := toy_verify;
  email_str := has_at;
  hmac_sha256 := toy_mac;
  isoformat := fun t => pretty t;
|}.

(** ** An instance whose hasher and validator refuse

    [toy] answers every call.  The libraries of the program do not:
    passlib's [CryptContext.verify] raises [UnknownHashError] for a
    string in which it recognises no hash of its schemes, the empty
    string included, and email-validator, which decides [EmailStr],
    turns down the special-use domains, [.local] among them.  [strict]
    is [toy] with these two refusals. *)
Definition strict_verify (password hashed : string) : result bool :=
  match hashed with
  | String "$" (String "t" (String "o" (String "y" (String "$" rest)))) =>
      match after_dollar rest with
      | Some p => Ok (bool_decide (p = password))
      | None => Err (LibraryError "UnknownHashError")
      end
  | _ => Err (LibraryError "UnknownHashError")
  end.

Fixpoint ends_with (suffix s : string) : bool :=
  bool_decide (s = suffix) ||
  match s with
  | EmptyString => false
  | String _ rest => ends_with suffix rest
  end.

Definition strict_email (s : string) : bool :=
  has_at s && negb (ends_with ".local" s).

Definition strict : Libraries := {|
  pwd_context_hash := toy_hash;
  pwd_context_verify := strict_verify;
  email_str := strict_email;
  hmac_sha256 := toy_mac;
  isoformat := fun t => pretty t;
|}.

Definition empty_world : world := World [] false [] 0 0.

Definition alice : UserCreate.t :=
  UserCreate.Build "alice@test.io" "Alice" "pw123" (Some "admin").



(** * Vocabulary of the statements *)

(** The stored documents whose field [k] has the value [v]. *)
Definition field_is (k : string) (v : value) (s : stored) : bool :=
  bool_decide (as_doc s !! k = Some v).

Definition holding (k : string) (v : value) (us : list stored) : list stored :=
  List.filter (field_is k v) us.

Definition with_email (e : string) (us : list stored) : list stored :=
  holding "email" (VStr e) us.

Definition admins (us : list stored) : list stored :=
  holding "role" (VStr "admin") us.

(** The email and the password hash of each document of a response. *)
Definition disclosed (response : result (list dict))
    : list (option value * option value) :=
  match response with
  | Ok docs => (fun d : dict => (d !! "email", d !! "hashed_password")) <$> docs
  | Err _ => []
  end.

(** [n] calls in a row. *)
Fixpoint repeat_call (n : nat) (m : M unit) : M unit :=
  match n with
  | O => ret tt
  | S n' => run! m in repeat_call n' m
  end.

Section Vocabulary.
Context {L : Libraries}.

(** The three cases in which a login attempt is to be turned down: the
    identifier resolves to no record, the hasher reports the password
    false against the stored hash, or the record has no hash at all
    (whatever the hasher then makes of the empty string that
    [authenticate_user] hands it). *)
Inductive rejected (identifier password : string) (w : world) : Prop :=
| no_such_user :
    out (get_user_by_identifier identifier) w = Ok None ->
    rejected identifier password w
| wrong_password u h :
    out (get_user_by_identifier identifier) w = Ok (Some u) ->
    u !! "hashed_password" = Some (VStr h) ->
    pwd_context_verify password h = Ok false ->
    rejected identifier password w
| no_password_hash u :
    out (get_user_by_identifier identifier) w = Ok (Some u) ->
    u !! "hashed_password" = None ->
    rejected identifier password w.

(** The chain of dependencies of an admin-only route: the current user
    of the token, then the role check. *)
Definition current_admin (tok : token) : M dict :=
  let! user := get_current_user tok in
  get_current_admin user.

(** What [create_document] inserts for [data]. *)
Definition stamped (data : dict) (w : world) : dict :=
  <["updated_at" := VStr (isoformat (now w))]>
    (<["created_at" := VStr (isoformat (now w))]> data).

(** A stored document as [get_documents] lists it. *)
Definition listed (s : stored) : dict :=
  <["id" := VStr (oid_str s.1)]> (delete "_id" (as_doc s)).

(** A token signed with the key of the source whose subject is not an
    ObjectId. *)
Definition forged_token : token :=
  let claims : dict := {["sub" := VStr "42"]} in
  Jws ALGORITHM claims (hmac_sha256 SECRET_KEY ALGORITHM claims).

End Vocabulary.

(** * Concrete requests and stores, run with the reference instance *)

Definition alice_world : world := run (@register toy alice) empty_world.

Definition alice_form : Form.t := Form.Build "alice@test.io" "pw123".

Definition alice_bearer : token :=
  match out (@login toy alice_form) alice_world with
  | Ok tok => tok
  | Err _ => Opaque ""
  end.

(** Alice's record after her role was set back to "student" in the store. *)
Definition demoted_world : world :=
  set_users
    ((fun s : stored => (s.1, <["role" := VStr "student"]> s.2))
       <$> users alice_world)
    alice_world.

(** The fields of Alice's record as the store holds them. *)
Definition alice_doc : dict :=
  {[ "email" := VStr "alice@test.io"; "full_name" := VStr "Alice";
     "hashed_password" := VStr "$toy$0$pw123"; "role" := VStr "admin";
     "is_active" := VBool true; "created_at" := VStr "0";
     "updated_at" := VStr "0" ]}.

(** A record without a password hash. *)
Definition bob_doc : dict :=
  {[ "email" := VStr "bob@test.io"; "full_name" := VStr "Bob";
     "role" := VStr "student"; "is_active" := VBool true ]}.

Definition nohash_world : world := World [(1%N, bob_doc)] true [] 0 0.

(** A deactivated account. *)
Definition carol_doc : dict :=
  {[ "email" := VStr "carol@test.io"; "full_name" := VStr "Carol";
     "hashed_password" := VStr "$toy$3$s3cret"; "role" := VStr "student";
     "is_active" := VBool false ]}.

Definition inactive_world : world := World [(7%N, carol_doc)] true [] 0 0.

(** The address of the default admin, registered by somebody else as a
    student in a store that has the unique index. *)
Definition squatter : UserCreate.t :=
  UserCreate.Build "antonio.admin@demo.local" "Mallory" "x" (Some "student").

Definition squatted_world : world :=
  run (@register toy squatter) (run ensure_indexes empty_world).

(** The end-to-end scenario of a student and the bootstrap admin. *)
Definition student : UserCreate.t :=
  UserCreate.Build "user@test.io" "User" "pw123" (Some "student").

Definition student_world : world :=
  run (@login toy (Form.Build "user@test.io" "pw123"))
    (run (@register toy student) empty_world).

Definition bearer_of (form_data : Form.t) (w : world) : option token :=
  match out (@login toy form_data) w with
  | Ok tok => Some tok
  | Err _ => None
  end.

Definition student_bearer : option token :=
  bearer_of (Form.Build "user@test.io" "pw123")
    (run (@register toy student) empty_world).

Definition admin_bearer : option token :=
  bearer_of (Form.Build "antonio.admin@demo.local" "Antonio89") student_world.

(** A second registration for Alice's address, under another name. *)
Definition alice_again : UserCreate.t :=
  UserCreate.Build "alice@test.io" "Alice II" "other" None.

(** Durations, in microseconds. *)
Definition second : Z := 1000000.
Definition hours (h : Z) : Z := h * 3600 * second.

(** * Vocabulary of the further properties *)

(** The exception a round trip to the store raises in [w], if any, and
    the environment it leaves. *)
Definition trip_error (w : world) : option exn :=
  match faults w with
  | Some e :: _ => Some e
  | _ => None
  end.

Definition after_trip (w : world) : world :=
  match faults w with
  | [] => w
  | _ :: fs => set_faults fs w
  end.

(** A computation keeps a property of the environment. *)
Definition preserves {A} (P : world -> Prop) (m : M A) : Prop :=
  forall w, P w -> P (run m w).

(** Properties of the store alone: they do not look at the schedule of
    failures, the clock or the entropy. *)
Class StoreProperty (P : world -> Prop) : Prop :=
  store_property w w' :
    users w' = users w -> email_unique w' = email_unique w -> P w -> P w'.

(** The collection and its index are what they were. *)
Definition same_store (us : list stored) (unique : bool) (w : world) : Prop :=
  users w = us /\ email_unique w = unique.

(** The unique index is there and does its job. *)
Definition emails_unique (w : world) : Prop :=
  email_unique w = true /\ emails_distinct (users w) = true.

(** ObjectIds are twelve bytes and no two documents share one. *)
Definition ids_valid (us : list stored) : Prop :=
  NoDup (fst <$> us) /\ Forall (fun s : stored => (s.1 < 2 ^ 96)%N) us.

(** The document [ensure_default_admin] builds, given the hash. *)
Definition default_admin_doc (h : string) : dict :=
  {[ "email" := VStr "antonio.admin@demo.local";
     "full_name" := VStr "AntonioAdmin";
     "hashed_password" := VStr h; "role" := VStr "admin";
     "is_active" := VBool true ]}.

(** The record [register] stores for a request, given the hash. *)
Definition user_record {L : Libraries} (user_in : UserCreate.t) (h : string)
    (w : world) : dict :=
  stamped
    {[ "email" := VStr (UserCreate.email user_in);
       "full_name" := VStr (UserCreate.full_name user_in);
       "hashed_password" := VStr h;
       "role" := VStr (str_or (UserCreate.role user_in) "student");
       "is_active" := VBool true ]} w.

(** The environments a run of registrations reaches: requests to
    [POST /auth/register] are served one after the other and, in
    between, the clock, the hasher's entropy and the coming behaviour of
    the store change at will. *)
Inductive registrations {L : Libraries} : world -> world -> Prop :=
| registrations_refl w : registrations w w
| registrations_request user_in w w' :
    registrations (run (register user_in) w) w' -> registrations w w'
| registrations_environment fs t n w w' :
    registrations (set_faults fs (set_now t (set_entropy n w))) w' ->
    registrations w w'.

(** A token that carries the algorithm of the source and the signature
    of its header and claims under the key of the source. *)
Definition genuine {L : Libraries} (tok : token) : Prop :=
  match tok with
  | Opaque _ => False
  | Jws alg claims signature =>
      alg = ALGORITHM /\ signature = hmac_sha256 SECRET_KEY alg claims
  end.

(** What the cursor of [get_documents] reads. *)
Definition limited {A} (limit : nat) (l : list A) : list A :=
  if (limit =? 0)%nat then l else take limit l.

(** * The course routes and the health check

    The collections [course] and [__health] sit beside the [user]
    collection of the environment; their documents hold strings,
    booleans, floats, [None], lists of strings, ObjectIds and
    datetimes.  The store calls on them take their round trips from the
    same schedule as the calls on [user]. *)

(** A [float], as its IEEE 754 bit pattern: the program stores and
    returns prices and never computes with them. *)
Definition float64 : Type := N.

Inductive field :=
| FStr (s : string)
| FBool (b : bool)
| FFloat (x : float64)
| FNone
| FList (l : list string)
| FOid (o : N)
| FTime (t : Z).

#[global] Instance field_eq_dec : EqDecision field.
Proof. solve_decision. Defined.

Abbreviation document := (gmap string field).

(** [str(v)]; the program applies it to ObjectIds only, and the floats,
    lists and datetimes, which it never renders, are left blank. *)
Definition field_str (v : field) : string :=
  match v with
  | FStr s => s
  | FOid o => oid_str o
  | FBool true => "True"
  | FBool false => "False"
  | FNone => "None"
  | FFloat _ | FList _ | FTime _ => ""
  end.

(** What the store keeps of a value: a datetime is cut to milliseconds. *)
Definition bson (v : field) : field :=
  match v with
  | FTime t => FTime (1000 * (t / 1000))
  | _ => v
  end.

(** [l[start:stop]] *)
Definition py_slice {A} (l : list A) (start stop : Z) : list A :=
  let n := Z.of_nat (List.length l) in
  let adjust i := if i <? 0 then Z.max (i + n) 0 else Z.min i n in
  let a := adjust start in
  let b := adjust stop in
  take (Z.to_nat (b - a)) (drop (Z.to_nat a) l).

(** [Course] and [CourseUpdate] of schemas.py, with [model_dump]. *)
Module Course.
Record t := Build {
  title : string;
  description : string;
  level : string;
  price : float64;
  published : bool;
  thumbnail_url : option string;
  lessons : list string;
}.

Definition model_dump (c : t) : document :=
  {[ "title" := FStr (title c); "description" := FStr (description c);
     "level" := FStr (level c); "price" := FFloat (price c);
     "published" := FBool (published c);
     "thumbnail_url" := from_option FStr FNone (thumbnail_url c);
     "lessons" := FList (lessons c) ]}.
End Course.

Module CourseUpdate.
Record t := Build {
  title : option string;
  description : option string;
  level : option string;
  price : option float64;
  published : option bool;
  thumbnail_url : option string;
  lessons : option (list string);
}.

Definition model_dump (c : t) : document :=
  {[ "title" := from_option FStr FNone (title c);
     "description" := from_option FStr FNone (description c);
     "level" := from_option FStr FNone (level c);
     "price" := from_option FFloat FNone (price c);
     "published" := from_option FBool FNone (published c);
     "thumbnail_url" := from_option FStr FNone (thumbnail_url c);
     "lessons" := from_option FList FNone (lessons c) ]}.
End CourseUpdate.

Module Courses.

Definition stored : Type := N * document.

Definition as_doc (s : stored) : document := <["_id" := FOid s.1]> s.2.

(** The state of the service: the environment of the user routes and
    the two other collections, in insertion order, with the names of
    the indexes of [course]. *)
Record site := Site {
  core : world;
  course : list stored;
  health : list stored;
  course_indexes : list string;
}.

#[global] Instance site_eq_dec : EqDecision site.
Proof. solve_decision. Defined.

Definition set_core (w : world) (s : site) : site :=
  Site w (course s) (health s) (course_indexes s).
Definition set_course (cs : list stored) (s : site) : site :=
  Site (core s) cs (health s) (course_indexes s).
Definition set_health (hs : list stored) (s : site) : site :=
  Site (core s) (course s) hs (course_indexes s).
Definition set_course_indexes (names : list string) (s : site) : site :=
  Site (core s) (course s) (health s) names.

(** ** State and exception monad over the service *)

Definition MS (A : Type) : Type := site -> result A * site.

Definition ret_s {A} (a : A) : MS A := fun s => (Ok a, s).
Definition raise_s {A} (e : exn) : MS A := fun s => (Err e, s).
Definition bind_s {A B} (m : MS A) (k : A -> MS B) : MS B :=
  fun s => match m s with
           | (Ok a, s') => k a s'
           | (Err e, s') => (Err e, s')
           end.
Definition lift_s {A} (r : result A) : MS A := fun s => (r, s).

Definition try_except_s {A} (body : MS A) (catches : exn -> bool)
    (handler : exn -> MS A) : MS A :=
  fun s => match body s with
           | (Ok a, s') => (Ok a, s')
           | (Err e, s') => if catches e then handler e s' else (Err e, s')
           end.

(** A computation of the user routes, run on the environment. *)
Definition in_core {A} (m : M A) : MS A :=
  fun s => let (r, w) := m (core s) in (r, set_core w s).

Notation "'let*' x ':=' m 'in' k" := (bind_s m (fun x => k))
  (at level 10, x name, m at level 100, k at level 200,
   format "'[v' 'let*'  x  ':='  m  'in' '/' k ']'").
Notation "'run*' m 'in' k" := (bind_s m (fun _ => k))
  (at level 10, m at level 100, k at level 200,
   format "'[v' 'run*'  m  'in' '/' k ']'").

Definition out_s {A} (m : MS A) (s : site) : result A := fst (m s).
Definition run_s {A} (m : MS A) (s : site) : site := snd (m s).

(** ** The driver calls on [course] and [__health] *)

Definition fresh_id (l : list stored) : N :=
  N.succ (foldr (fun s m => N.max s.1 m) 0%N l).

Definition matches (filter doc : document) : bool := bool_decide (filter ⊆ doc).

Definition select (filter : document) (l : list stored) : list document :=
  as_doc <$> List.filter (fun s => matches filter (as_doc s)) l.

Definition find_one (filter : document) : MS (option document) :=
  run* in_core round_trip in
  fun s => (Ok (head (select filter (course s))), s).

Definition find_limit (filter : document) (limit : nat) : MS (list document) :=
  run* in_core round_trip in
  fun s => let docs := select filter (course s) in
           (Ok (if (limit =? 0)%nat then docs else take limit docs), s).

Definition insert_one (d : document) : MS N :=
  run* in_core round_trip in
  fun s => let o := fresh_id (course s) in
           (Ok o, set_course (course s ++ [(o, bson <$> d)]) s).

Definition health_insert_one (d : document) : MS N :=
  run* in_core round_trip in
  fun s => let o := fresh_id (health s) in
           (Ok o, set_health (health s ++ [(o, bson <$> d)]) s).

(** [$set] on the first document with the [_id]. *)
Fixpoint set_first (o : N) (updates : document) (l : list stored) : list stored :=
  match l with
  | [] => []
  | s :: rest =>
      if bool_decide (s.1 = o) then (s.1, updates ∪ s.2) :: rest
      else s :: set_first o updates rest
  end.

Fixpoint delete_first (o : N) (l : list stored) : list stored :=
  match l with
  | [] => []
  | s :: rest => if bool_decide (s.1 = o) then rest else s :: delete_first o rest
  end.

Definition has_id (o : N) (l : list stored) : bool :=
  existsb (fun s : stored => bool_decide (s.1 = o)) l.

(** [update_one({"_id": o}, {"$set": updates})], giving [matched_count]. *)
Definition update_one (o : N) (updates : document) : MS nat :=
  run* in_core round_trip in
  fun s => if has_id o (course s)
           then (Ok 1%nat,
                 set_course (set_first o (bson <$> updates) (course s)) s)
           else (Ok 0%nat, s).

(** [delete_one({"_id": o})], giving [deleted_count]. *)
Definition delete_one (o : N) : MS nat :=
  run* in_core round_trip in
  fun s => if has_id o (course s)
           then (Ok 1%nat, set_course (delete_first o (course s)) s)
           else (Ok 0%nat, s).

(** [create_index(keys)] on [course]: a plain index, named after its keys. *)
Definition create_index (name : string) : MS unit :=
  run* in_core round_trip in
  fun s => if bool_decide (name ∈ course_indexes s) then (Ok tt, s)
           else (Ok tt, set_course_indexes (course_indexes s ++ [name]) s).

Section Program.
Context {L : Libraries}.

(** ** database.py, on the collection [course] *)

(** [ensure_indexes], with the indexes of [course]. *)
Definition ensure_indexes : MS unit :=
  run* in_core create_index_email in
  run* create_index "published_1" in
  create_index "title_1".

Definition pop_id (d : document) : MS document :=
  match d !! "_id" with
  | Some v => ret_s (<["id" := FStr (field_str v)]> (delete "_id" d))
  | None => raise_s (KeyError "_id")
  end.

(** [create_document("course", data)] *)
Definition create_document (data : document) : MS document :=
  let* t := in_core utcnow in
  let stamp := FStr (isoformat t) in
  let data_to_insert := <["updated_at" := stamp]> (<["created_at" := stamp]> data) in
  let* inserted_id := insert_one data_to_insert in
  let* inserted := find_one {["_id" := FOid inserted_id]} in
  match inserted with
  | Some d =>
      if bool_decide (d = ∅) then ret_s ∅ else pop_id d
  | None => ret_s ∅
  end.

Fixpoint pop_ids (docs : list document) : MS (list document) :=
  match docs with
  | [] => ret_s []
  | d :: rest =>
      let* d' := pop_id d in
      let* rest' := pop_ids rest in
      ret_s (d' :: rest')
  end.

(** [get_documents("course", filter_dict, limit)] *)
Definition get_documents (filter_dict : option document) (limit : nat)
    : MS (list document) :=
  let filter_dict :=
    match filter_dict with
    | Some f => if bool_decide (f = ∅) then ∅ else f
    | None => ∅
    end in
  let* cursor := find_limit filter_dict limit in
  pop_ids cursor.

(** ** main.py *)

Definition root : MS document :=
  ret_s {[ "ok" := FBool true; "service" := FStr "e-learning-api" ]}.

(** [str(e)] of the exception a store call raised is left to the
    caller: [exn_str] stands for it. *)
Definition test (exn_str : exn -> string) : MS document :=
  try_except_s
    (let* t := in_core utcnow in
     run* health_insert_one {[ "ok" := FBool true; "ts" := FTime t ]} in
     ret_s {[ "status" := FStr "ok" ]})
    (fun _ => true)
    (fun e => raise_s (HTTPException 503
                         ("Database unavailable: " ++ exn_str e) [])).

(** [Depends(get_current_admin)] *)
Definition admin_of (authorization : option token) : MS dict :=
  let* tok := in_core (oauth2_scheme authorization) in
  in_core (current_admin tok).

(** [limit] is taken non-negative: a negative limit asks the store for
    a single batch, which is left out here as it is for the users. *)
Definition list_courses (skip : Z) (limit : nat) : MS (list document) :=
  let* docs := get_documents (Some ∅) limit in
  ret_s (py_slice docs skip (skip + Z.of_nat limit)).

Definition create_course (authorization : option token) (course : Course.t)
    : MS document :=
  let* admin := admin_of authorization in
  create_document (Course.model_dump course).

Definition update_course (authorization : option token) (course_id : string)
    (course : CourseUpdate.t) : MS document :=
  let* admin := admin_of authorization in
  let updates : document :=
    filter (fun kv => kv.2 ≠ FNone) (CourseUpdate.model_dump course) in
  if bool_decide (updates = ∅) then ret_s {[ "updated" := FBool false ]} else
  let* t := in_core utcnow in
  let updates := <["updated_at" := FStr (isoformat t)]> updates in
  let* oid := lift_s (ObjectId course_id) in
  let* matched_count := update_one oid updates in
  if (matched_count =? 0)%nat then
    raise_s (HTTPException 404 "Course not found" [])
  else
  let* oid := lift_s (ObjectId course_id) in
  let* updated := find_one {["_id" := FOid oid]} in
  match updated with
  | Some d => pop_id d
  | None =>
      (* [updated.pop] on [None] *)
      raise_s (LibraryError
                 "AttributeError: 'NoneType' object has no attribute 'pop'")
  end.

Definition delete_course (authorization : option token) (course_id : string)
    : MS document :=
  let* admin := admin_of authorization in
  let* oid := lift_s (ObjectId course_id) in
  let* deleted_count := delete_one oid in
  if (deleted_count =? 0)%nat then
    raise_s (HTTPException 404 "Course not found" [])
  else ret_s {[ "deleted" := FBool true ]}.

End Program.

(** A stored course as the routes return it. *)
Definition listed (s : stored) : document :=
  <["id" := FStr (oid_str s.1)]> (delete "_id" (as_doc s)).

End Courses.

(** * The service as a whole *)

(** The fields a [CourseUpdate] supplies. *)
Definition supplied (c : CourseUpdate.t) : document :=
  filter (fun kv => kv.2 ≠ FNone) (CourseUpdate.model_dump c).

(** A [CourseUpdate] that supplies nothing. *)
Definition no_update : CourseUpdate.t :=
  CourseUpdate.Build None None None None None None None.

(** What [Courses.create_document] inserts for [data] at the time [t]. *)
Definition stamped_at {L : Libraries} (data : document) (t : Z) : document :=
  <["updated_at" := FStr (isoformat t)]>
    (<["created_at" := FStr (isoformat t)]> data).

Definition not_found : exn := HTTPException 404 "Course not found" [].

Section Service.
Context {L : Libraries} (exn_str : exn -> string).

(** The requests of the API, and what serving one does to the service. *)
Inductive request :=
| Root
| Test
| Register (user_in : UserCreate.t)
| Login (form_data : Form.t)
| Me (authorization : option token)
| ListCourses (skip : Z) (limit : nat)
| CreateCourse (authorization : option token) (course : Course.t)
| UpdateCourse (authorization : option token) (course_id : string)
    (course : CourseUpdate.t)
| DeleteCourse (authorization : option token) (course_id : string)
| AdminListUsers (authorization : option token).

Definition serve (r : request) (s : Courses.site) : Courses.site :=
  match r with
  | Root => Courses.run_s Courses.root s
  | Test => Courses.run_s (Courses.test exn_str) s
  | Register user_in => Courses.run_s (Courses.in_core (register user_in)) s
  | Login form_data => Courses.run_s (Courses.in_core (login form_data)) s
  | Me authorization => Courses.run_s (Courses.in_core (me authorization)) s
  | ListCourses skip limit => Courses.run_s (Courses.list_courses skip limit) s
  | CreateCourse authorization course =>
      Courses.run_s (Courses.create_course authorization course) s
  | UpdateCourse authorization course_id course =>
      Courses.run_s (Courses.update_course authorization course_id course) s
  | DeleteCourse authorization course_id =>
      Courses.run_s (Courses.delete_course authorization course_id) s
  | AdminListUsers authorization =>
      Courses.run_s (Courses.in_core (admin_list_users authorization)) s
  end.

(** The states a run of the service reaches: requests are served one
    after the other and, in between, the clock, the hasher's entropy and
    the coming behaviour of the store change at will. *)
Inductive reaches : Courses.site -> Courses.site -> Prop :=
| reaches_refl s : reaches s s
| reaches_request r s s' : reaches (serve r s) s' -> reaches s s'
| reaches_environment fs t n s s' :
    reaches
      (Courses.set_core
         (set_faults fs (set_now t (set_entropy n (Courses.core s)))) s) s' ->
    reaches s s'.

End Service.

(** A computation on the service keeps a property of its state. *)
Definition keeps {A} (P : Courses.site -> Prop) (m : Courses.MS A) : Prop :=
  forall s, P s -> P (Courses.run_s m s).

(** The two invariants of the collections: the unique index on the
    emails of the users, and the distinct ids of the courses. *)
Definition users_unique (s : Courses.site) : Prop :=
  emails_unique (Courses.core s).

Definition course_ids_distinct (s : Courses.site) : Prop :=
  NoDup (fst <$> Courses.course s).

(** A field the store keeps as it is. *)
Definition timeless (v : field) : Prop :=
  match v with FTime _ => False | _ => True end.

(** * Concrete states of the service, run with the reference instance *)

(** A store that answers twice and then drops the connection. *)
Definition flaky_world : world :=
  set_faults [None; None; Some (PyMongoError "AutoReconnect")] empty_world.

(** The token of the student, its role claim rewritten to "admin", the
    signature left as it was. *)
Definition promoted_bearer : token :=
  match student_bearer with
  | Some (Jws alg claims signature) =>
      Jws alg (<["role" := VStr "admin"]> claims) signature
  | _ => Opaque ""
  end.

Definition empty_site : Courses.site := Courses.Site empty_world [] [] [].

(** The store of the end-to-end scenario, before any course exists. *)
Definition school : Courses.site := Courses.Site student_world [] [] [].

Definition the_admin : dict :=
  match Courses.out_s (@Courses.admin_of toy admin_bearer) school with
  | Ok admin => admin
  | Err _ => ∅
  end.

Definition rocq_course : Course.t :=
  Course.Build "Rocq" "Proofs, step by step" "beginner" 0%N false None
    ["Induction"].

Definition logic_course : Course.t :=
  Course.Build "Logic" "Natural deduction" "beginner" 0%N true None [].

(** The first course as the store keeps it. *)
Definition rocq_stored : Courses.stored :=
  (1%N, @stamped_at toy (Course.model_dump rocq_course) 0).

Definition school_with_course : Courses.site :=
  Courses.run_s (@Courses.create_course toy admin_bearer rocq_course) school.

Definition school_with_two : Courses.site :=
  Courses.run_s (@Courses.create_course toy admin_bearer logic_course)
    school_with_course.

(** An update that publishes a course and touches nothing else. *)
Definition publish : CourseUpdate.t :=
  CourseUpdate.Build None None None None (Some true) None None.

Definition first_id : string := "000000000000000000000001".
Definition absent_id : string := "0000000000000000000000ff".


(** * Basic facts about the monad and the store *)

Section Facts.
Context {L : Libraries}.

Lemma bind_ok {A B} (m : M A) (k : A -> M B) w a w' :
  m w = (Ok a, w') -> bind m k w = k a w'.
Proof. unfold bind. by intros ->. Qed.

Lemma bind_err {A B} (m : M A) (k : A -> M B) w e w' :
  m w = (Err e, w') -> bind m k w = (Err e, w').
Proof. unfold bind. by intros ->. Qed.

Lemma bind_inv_ok {A B} (m : M A) (k : A -> M B) w b w' :
  bind m k w = (Ok b, w') ->
  exists a w1, m w = (Ok a, w1) /\ k a w1 = (Ok b, w').
Proof.
  unfold bind. destruct (m w) as [[a|e] w1]; [eauto|discriminate].
Qed.

Tactic Notation "bind_inv" hyp(H) "as" ident(a) ident(w) ident(E) :=
  apply bind_inv_ok in H as (a & w & E & H).

Ltac bind_inv_all H :=
  repeat (let a := fresh "a" in
          let w := fresh "w" in
          let E := fresh "E" in
          apply bind_inv_ok in H as (a & w & E & H)).

Lemma round_trip_ok w : faults w = [] -> round_trip w = (Ok tt, w).
Proof. unfold round_trip. by intros ->. Qed.

Lemma find_one_ok filter w :
  faults w = [] -> find_one filter w = (Ok (head (select filter (users w))), w).
Proof. intros H. unfold find_one, bind. by rewrite round_trip_ok. Qed.

Lemma find_limit_ok filter limit w :
  faults w = [] ->
  find_limit filter limit w =
    (Ok (let docs := select filter (users w) in
         if (limit =? 0)%nat then docs else take limit docs), w).
Proof. intros H. unfold find_limit, bind. by rewrite round_trip_ok. Qed.

Lemma as_doc_id s : as_doc s !! "_id" = Some (VOid s.1).
Proof. unfold as_doc. by rewrite lookup_insert_eq. Qed.

Lemma as_doc_field s k : k ≠ "_id" -> as_doc s !! k = s.2 !! k.
Proof. intros H. unfold as_doc. by rewrite lookup_insert_ne. Qed.

Lemma as_doc_nonempty s : as_doc s ≠ ∅.
Proof. unfold as_doc. apply insert_non_empty. Qed.

Lemma select_elem filter us d :
  d ∈ select filter us ->
  exists s, s ∈ us /\ d = as_doc s /\ matches filter d = true.
Proof.
  unfold select. intros H.
  apply list_elem_of_fmap in H as (s & -> & Hs).
  apply list_elem_of_In, filter_In in Hs as [Hin Hm].
  exists s. by rewrite list_elem_of_In.
Qed.

Lemma head_select filter us d :
  head (select filter us) = Some d ->
  exists s, s ∈ us /\ d = as_doc s /\ matches filter d = true.
Proof. intros H. apply select_elem. by eapply head_Some_elem_of. Qed.

Lemma truthy_head_select filter us d :
  head (select filter us) = Some d -> truthy (Some d) = true.
Proof.
  intros (s & _ & -> & _)%head_select. simpl.
  rewrite bool_decide_eq_false_2; [done | apply as_doc_nonempty].
Qed.

Lemma matches_singleton k v d :
  matches {[k := v]} d = true <-> d !! k = Some v.
Proof.
  unfold matches. rewrite bool_decide_eq_true.
  apply map_singleton_subseteq_l.
Qed.

Lemma pop_id_as_doc s w :
  pop_id (as_doc s) w =
    (Ok (<["id" := VStr (oid_str s.1)]> (delete "_id" (as_doc s))), w).
Proof. unfold pop_id. by rewrite as_doc_id. Qed.

Lemma get_user_by_identifier_ok identifier w :
  faults w = [] ->
  get_user_by_identifier identifier w =
    (Ok (match head (select {["email" := VStr identifier]} (users w)) with
         | Some u => Some u
         | None => head (select {["full_name" := VStr identifier]} (users w))
         end), w).
Proof.
  intros H. unfold get_user_by_identifier, bind.
  rewrite find_one_ok by done.
  destruct (head (select {["email" := VStr identifier]} (users w))) as [u|] eqn:E.
  - by rewrite (truthy_head_select _ _ _ E).
  - simpl. by rewrite find_one_ok.
Qed.

Lemma get_user_by_identifier_stored identifier w u :
  faults w = [] ->
  out (get_user_by_identifier identifier) w = Ok (Some u) ->
  exists s, s ∈ users w /\ u = as_doc s.
Proof.
  intros H. unfold out. rewrite get_user_by_identifier_ok by done. simpl.
  destruct (head (select {["email" := VStr identifier]} (users w))) as [u'|] eqn:E.
  - intros [= <-]. apply head_select in E as (s & ? & ? & _). eauto.
  - intros [= E']. apply head_select in E' as (s & ? & ? & _). eauto.
Qed.

Lemma get_user_by_identifier_run identifier w :
  faults w = [] ->
  get_user_by_identifier identifier w =
    (out (get_user_by_identifier identifier) w, w).
Proof. intros H. unfold out. by rewrite get_user_by_identifier_ok. Qed.

(** [authenticate_user] has no handler of its own: an exception of the
    hasher reaches the caller. *)
Lemma authenticate_user_hasher_raises identifier password u e w :
  faults w = [] ->
  out (get_user_by_identifier identifier) w = Ok (Some u) ->
  (exists h, get_default u "hashed_password" (VStr "") = VStr h /\
             pwd_context_verify password h = Err e) ->
  authenticate_user identifier password w = (Err e, w).
Proof.
  intros Hw Hu (h & Hh & Hv). unfold authenticate_user, bind.
  rewrite get_user_by_identifier_run by done. rewrite Hu.
  destruct (get_user_by_identifier_stored _ _ _ Hw Hu) as (s & _ & ->).
  simpl. rewrite bool_decide_eq_false_2 by apply as_doc_nonempty. simpl.
  rewrite Hh. simpl. unfold lift. by rewrite Hv.
Qed.

(** Where it does return [None]: the identifier resolves to no record,
    or the hasher reports the password false against the hash of the
    record, the empty string for a record without one. *)
Lemma authenticate_user_none identifier password w :
  faults w = [] ->
  out (get_user_by_identifier identifier) w = Ok None \/
  (exists u h,
     out (get_user_by_identifier identifier) w = Ok (Some u) /\
     get_default u "hashed_password" (VStr "") = VStr h /\
     pwd_context_verify password h = Ok false) ->
  authenticate_user identifier password w = (Ok None, w).
Proof.
  intros Hw [Hu|(u & h & Hu & Hh & Hv)]; unfold authenticate_user, bind;
    rewrite get_user_by_identifier_run by done; rewrite Hu; [done|].
  destruct (get_user_by_identifier_stored _ _ _ Hw Hu) as (s & _ & ->).
  simpl. rewrite bool_decide_eq_false_2 by apply as_doc_nonempty. simpl.
  rewrite Hh. simpl. unfold lift. by rewrite Hv.
Qed.

(** ** Selections *)

Lemma matches_field_is k v s : matches {[k := v]} (as_doc s) = field_is k v s.
Proof.
  unfold field_is. apply bool_decide_ext. unfold matches.
  rewrite <- matches_singleton. unfold matches. by rewrite bool_decide_eq_true.
Qed.

Lemma select_holding k v us : select {[k := v]} us = as_doc <$> holding k v us.
Proof.
  unfold select, holding. f_equal.
  induction us as [|s us IH]; [done|]. simpl.
  by rewrite matches_field_is, IH.
Qed.

Lemma holding_app k v us1 us2 :
  holding k v (us1 ++ us2) = (holding k v us1 ++ holding k v us2)%list.
Proof. unfold holding. apply List.filter_app. Qed.

Lemma holding_nil_iff k v us :
  holding k v us = [] <-> forall s, s ∈ us -> as_doc s !! k ≠ Some v.
Proof.
  unfold holding. induction us as [|s us IH]; simpl.
  - split; [|done]. intros _ s Hs. by apply elem_of_nil in Hs.
  - unfold field_is at 1. case_bool_decide as E.
    + split; [done|]. intros H. destruct (H s); [left | done].
    + rewrite IH. split.
      * intros H s' [->|Hs']%elem_of_cons; auto.
      * intros H s' Hs'. apply H. by right.
Qed.

Lemma email_clash_existsb (d : dict) e us :
  d !! "email" = Some (VStr e) ->
  email_clash d us = existsb (field_is "email" (VStr e)) us.
Proof. intros Hd. unfold email_clash. by rewrite Hd. Qed.

Lemma email_clash_free (d : dict) e us :
  d !! "email" = Some (VStr e) ->
  with_email e us = [] -> email_clash d us = false.
Proof.
  intros Hd. rewrite (email_clash_existsb _ _ _ Hd).
  unfold with_email, holding.
  induction us as [|s us IH]; [done|]. simpl.
  destruct (field_is "email" (VStr e) s); [done|]. exact IH.
Qed.

Lemma email_clash_taken (d : dict) e us :
  d !! "email" = Some (VStr e) ->
  with_email e us ≠ [] -> email_clash d us = true.
Proof.
  intros Hd. rewrite (email_clash_existsb _ _ _ Hd).
  unfold with_email, holding.
  induction us as [|s us IH]; [done|]. simpl.
  destruct (field_is "email" (VStr e) s); [done|]. exact IH.
Qed.

(** An identifier resolves to the first record that has it as email,
    and, when no record has, to the first that has it as full name. *)
Lemma resolves_by_email identifier s rest w :
  faults w = [] ->
  with_email identifier (users w) = s :: rest ->
  out (get_user_by_identifier identifier) w = Ok (Some (as_doc s)).
Proof.
  intros Hw He. unfold out. rewrite get_user_by_identifier_ok by done.
  rewrite select_holding. fold (with_email identifier (users w)).
  by rewrite He.
Qed.

Lemma resolves_by_full_name identifier s rest w :
  faults w = [] ->
  with_email identifier (users w) = [] ->
  holding "full_name" (VStr identifier) (users w) = s :: rest ->
  out (get_user_by_identifier identifier) w = Ok (Some (as_doc s)).
Proof.
  intros Hw He Hn. unfold out. rewrite get_user_by_identifier_ok by done.
  rewrite !select_holding. fold (with_email identifier (users w)).
  by rewrite He, Hn.
Qed.

Lemma fresh_oid_above us s : s ∈ us -> (s.1 < fresh_oid us)%N.
Proof.
  unfold fresh_oid. induction us as [|s' us IH]; simpl.
  - intros H. by apply elem_of_nil in H.
  - intros [->|H]%elem_of_cons; [lia|]. specialize (IH H). lia.
Qed.

Lemma holding_fresh_id us : holding "_id" (VOid (fresh_oid us)) us = [].
Proof.
  apply holding_nil_iff. intros s Hs. rewrite as_doc_id. intros [= E].
  apply fresh_oid_above in Hs. lia.
Qed.

Lemma select_fresh_id us d :
  select {["_id" := VOid (fresh_oid us)]} (us ++ [(fresh_oid us, d)]) =
    [as_doc (fresh_oid us, d)].
Proof.
  rewrite select_holding, holding_app, holding_fresh_id. simpl.
  unfold field_is. rewrite as_doc_id. by rewrite bool_decide_eq_true_2.
Qed.

(** ** Creating documents *)

Lemma stamped_email data w : stamped data w !! "email" = data !! "email".
Proof. unfold stamped. by rewrite !lookup_insert_ne. Qed.

Lemma create_document_ok data e w :
  faults w = [] ->
  data !! "email" = Some (VStr e) ->
  email_unique w = false \/ with_email e (users w) = [] ->
  let o := fresh_oid (users w) in
  create_document data w =
    (Ok (<["id" := VStr (oid_str o)]>
           (delete "_id" (as_doc (o, stamped data w)))),
     set_users (users w ++ [(o, stamped data w)]) w).
Proof.
  intros Hw He Hfree o. unfold create_document, bind, utcnow.
  fold (stamped data w). unfold insert_one, bind.
  rewrite round_trip_ok by done.
  assert (email_unique w && email_clash (stamped data w) (users w) = false) as ->.
  { destruct Hfree as [->|Hf]; [done|].
    rewrite (email_clash_free _ e); [apply andb_false_r| |done].
    by rewrite stamped_email. }
  fold o. rewrite find_one_ok by done.
  change (users (set_users ?us w)) with us.
  unfold o. rewrite select_fresh_id. fold o. cbn [head].
  rewrite bool_decide_eq_false_2 by apply as_doc_nonempty.
  by rewrite pop_id_as_doc.
Qed.

Lemma create_document_duplicate data e w :
  faults w = [] ->
  data !! "email" = Some (VStr e) ->
  email_unique w = true ->
  with_email e (users w) ≠ [] ->
  create_document data w = (Err DuplicateKeyError, w).
Proof.
  intros Hw He Hu Hdup. unfold create_document, bind, utcnow.
  fold (stamped data w). unfold insert_one, bind.
  rewrite round_trip_ok by done. rewrite Hu.
  rewrite (email_clash_taken _ e); [done| |done].
  by rewrite stamped_email.
Qed.

(** ** Registration *)

Lemma register_response (o : N) (e f h role t : string) (w : world) :
  email_str e = true ->
  let created : dict :=
    <["id" := VStr (oid_str o)]>
      (delete "_id"
         (as_doc (o, <["updated_at" := VStr t]> (<["created_at" := VStr t]>
                   {[ "email" := VStr e; "full_name" := VStr f;
                      "hashed_password" := VStr h; "role" := VStr role;
                      "is_active" := VBool true ]})))) in
  (let! id := item created "id" in
   let! email := item created "email" in
   let! full_name := item created "full_name" in
   let! role := item created "role" in
   lift (UserPublic id email full_name role
           (get_default created "is_active" (VBool true)))) w =
  (Ok {[ "id" := VStr (oid_str o); "email" := VStr e; "full_name" := VStr f;
         "role" := VStr role; "is_active" := VBool true ]}, w).
Proof.
  intros He created.
  change (_ = _) with
    ((if email_str e
      then Ok ({[ "id" := VStr (oid_str o); "email" := VStr e;
                  "full_name" := VStr f; "role" := VStr role;
                  "is_active" := VBool true ]} : dict)
      else Err ValidationError, w) =
     (Ok {[ "id" := VStr (oid_str o); "email" := VStr e; "full_name" := VStr f;
            "role" := VStr role; "is_active" := VBool true ]}, w)).
  by rewrite He.
Qed.

Lemma register_created (user_in : UserCreate.t) (h : string) (w : world) :
  faults w = [] ->
  with_email (UserCreate.email user_in) (users w) = [] ->
  email_str (UserCreate.email user_in) = true ->
  pwd_context_hash (entropy w) (UserCreate.password user_in) = Ok h ->
  let role := str_or (UserCreate.role user_in) "student" in
  let w1 := set_entropy (N.succ (entropy w)) w in
  let o := fresh_oid (users w) in
  let doc := stamped
               {[ "email" := VStr (UserCreate.email user_in);
                  "full_name" := VStr (UserCreate.full_name user_in);
                  "hashed_password" := VStr h; "role" := VStr role;
                  "is_active" := VBool true ]} w1 in
  register user_in w =
    (Ok {[ "id" := VStr (oid_str o);
           "email" := VStr (UserCreate.email user_in);
           "full_name" := VStr (UserCreate.full_name user_in);
           "role" := VStr role; "is_active" := VBool true ]},
     set_users (users w ++ [(o, doc)]) w1).
Proof.
  intros Hw Hfree Hmail Hhash role w1 o doc.
  unfold register.
  rewrite (bind_ok _ _ _ _ _ (find_one_ok _ _ Hw)).
  rewrite select_holding.
  fold (with_email (UserCreate.email user_in) (users w)).
  rewrite Hfree. cbn [fmap list_fmap head truthy].
  erewrite bind_ok; [|unfold get_password_hash; by rewrite Hhash].
  fold w1.
  erewrite bind_ok; [|unfold lift, User; by rewrite Hmail].
  fold role.
  erewrite bind_ok;
    [|by apply (create_document_ok _ (UserCreate.email user_in)); [| |right]].
  by apply register_response.
Qed.

Lemma register_conflict (user_in : UserCreate.t) (w : world) :
  faults w = [] ->
  with_email (UserCreate.email user_in) (users w) ≠ [] ->
  register user_in w =
    (Err (HTTPException 400 "Email already registered" []), w).
Proof.
  intros Hw Htaken. unfold register.
  rewrite (bind_ok _ _ _ _ _ (find_one_ok _ _ Hw)).
  rewrite select_holding.
  fold (with_email (UserCreate.email user_in) (users w)).
  destruct (with_email _ (users w)) as [|s rest]; [done|].
  cbn [fmap list_fmap head truthy].
  by rewrite bool_decide_eq_false_2 by apply as_doc_nonempty.
Qed.

(** Two registrations of one email in a row: the first creates the
    record, the second is turned down, and the email has one record. *)
Lemma register_twice (first second : UserCreate.t) (h : string) (w : world) :
  faults w = [] ->
  with_email (UserCreate.email first) (users w) = [] ->
  email_str (UserCreate.email first) = true ->
  pwd_context_hash (entropy w) (UserCreate.password first) = Ok h ->
  UserCreate.email second = UserCreate.email first ->
  let w1 := run (register first) w in
  (exists resp, out (register first) w = Ok resp) /\
  register second w1 =
    (Err (HTTPException 400 "Email already registered" []), w1) /\
  List.length (with_email (UserCreate.email first) (users w1)) = 1%nat.
Proof.
  intros Hw Hfree Hmail Hhash Hsame w1.
  pose proof (register_created _ _ _ Hw Hfree Hmail Hhash) as Hr.
  cbv zeta in Hr.
  assert (List.length (with_email (UserCreate.email first) (users w1)) = 1%nat)
    as Hone.
  { unfold w1, run. rewrite Hr. cbn [snd users set_users set_entropy].
    unfold with_email in *. rewrite holding_app, Hfree. simpl.
    unfold field_is. rewrite as_doc_field by done. cbn [snd].
    rewrite stamped_email.
    rewrite lookup_insert_eq. by rewrite bool_decide_eq_true_2. }
  split; [|split; [|done]].
  - unfold out. rewrite Hr. eauto.
  - apply register_conflict.
    + unfold w1, run. by rewrite Hr.
    + rewrite Hsame. intros E. rewrite E in Hone. discriminate.
Qed.

Lemma email_clash_false_free (d : dict) e us :
  d !! "email" = Some (VStr e) ->
  email_clash d us = false -> with_email e us = [].
Proof.
  intros Hd Hc. destruct (with_email e us) as [|s rest] eqn:E; [done|].
  rewrite (email_clash_taken d e us) in Hc; [done|done|]. by rewrite E.
Qed.

(** Under the uniqueness invariant of the collection an email selects
    at most one record. *)
Lemma emails_distinct_at_most_one e us :
  emails_distinct us = true -> (List.length (with_email e us) <= 1)%nat.
Proof.
  induction us as [|s us IH]; simpl; [lia|].
  intros [Hs Hrest]%andb_prop. specialize (IH Hrest).
  unfold with_email, holding in *. simpl.
  destruct (field_is "email" (VStr e) s) eqn:E; [|done].
  unfold field_is in E. apply bool_decide_eq_true in E.
  apply negb_true_iff in Hs.
  apply (email_clash_false_free _ e) in Hs; [|done].
  unfold with_email, holding in Hs. rewrite Hs. simpl. lia.
Qed.

(** ** Token validation *)

Lemma ObjectId_err s e : ObjectId s = Err e -> e = InvalidId.
Proof. unfold ObjectId. repeat case_match; congruence. Qed.

Lemma first_error_ok checks :
  first_error checks = Ok tt -> Forall (fun r => r = Ok tt) checks.
Proof.
  induction checks as [|[[]|e] rest IH]; simpl; intros H.
  - constructor.
  - constructor; auto.
  - discriminate.
Qed.

Lemma first_error_err checks e :
  first_error checks = Err e -> Err e ∈ checks.
Proof.
  induction checks as [|[[]|e'] rest IH]; simpl; intros H.
  - discriminate.
  - right. auto.
  - injection H as ->. left.
Qed.

Lemma validate_claims_err claims now_s e :
  validate_claims claims now_s = Err e -> is_JWTError e = true.
Proof.
  intros H%first_error_err.
  unfold validate_iat, validate_nbf, validate_exp, validate_aud,
    validate_sub, validate_jti, validate_at_hash in H.
  repeat (apply elem_of_cons in H as [H|H];
          [ repeat case_match; by simplify_eq | ]).
  by apply elem_of_nil in H.
Qed.

Lemma validate_claims_sub claims now_s v :
  validate_claims claims now_s = Ok tt ->
  claims !! "sub" = Some v -> exists s, v = VStr s.
Proof.
  intros H%first_error_ok Hv.
  do 4 apply Forall_cons in H as [_ H]. apply Forall_cons in H as [H _].
  unfold validate_sub in H. rewrite Hv in H.
  destruct v; try done. eauto.
Qed.

(** [jwt.decode] reads the clock and nothing else: it returns the claims
    of the token or raises a [JWTError]. *)
Lemma jwt_decode_outcome tok key algorithms w :
  exists r, jwt_decode tok key algorithms w = (r, w) /\
    match r with
    | Ok claims =>
        (exists alg sig, tok = Jws alg claims sig) /\
        forall v, claims !! "sub" = Some v -> exists s, v = VStr s
    | Err e => is_JWTError e = true
    end.
Proof.
  unfold jwt_decode. destruct tok as [s|alg claims sig].
  { eexists. split; [done|]. done. }
  destruct (negb (json_object claims)).
  { eexists. split; [done|]. done. }
  destruct (negb (bool_decide (alg ∈ algorithms))).
  { eexists. split; [done|]. done. }
  destruct (negb (bool_decide (sig = hmac_sha256 key alg claims))).
  { eexists. split; [done|]. done. }
  unfold bind, utcnow, lift.
  destruct (validate_claims claims (timegm (now w))) as [[]|e] eqn:E.
  - eexists. split; [done|]. split; [eauto|].
    intros v Hv. by eapply validate_claims_sub.
  - eexists. split; [done|]. by eapply validate_claims_err.
Qed.

(** The [try] block of [get_current_user] yields the subject of a token
    that decodes with one, and the 401 otherwise. *)
Lemma token_subject_outcome tok w :
  token_subject tok w =
    (match out (jwt_decode tok SECRET_KEY [ALGORITHM]) w with
     | Ok payload =>
         match payload !! "sub" with
         | Some user_id => Ok user_id
         | None => Err credentials_exception
         end
     | Err _ => Err credentials_exception
     end, w).
Proof.
  unfold token_subject, try_except, bind, out.
  destruct (jwt_decode_outcome tok SECRET_KEY [ALGORITHM] w) as (r & -> & Hr).
  simpl. destruct r as [payload|e].
  - by destruct (payload !! "sub").
  - by rewrite Hr.
Qed.

Lemma token_subject_str tok w v :
  out (token_subject tok) w = Ok v -> exists s, v = VStr s.
Proof.
  unfold out at 1. rewrite token_subject_outcome. simpl. unfold out.
  destruct (jwt_decode_outcome tok SECRET_KEY [ALGORITHM] w) as (r & -> & Hr).
  simpl. destruct r as [payload|e]; [|done].
  destruct (payload !! "sub") as [v'|] eqn:E; [|done].
  intros [= <-]. by apply Hr.
Qed.

(** [get_current_user] on a token whose subject names an ObjectId: the
    record with that [_id], or the 401. *)
Lemma get_current_user_loaded tok w payload s oid :
  faults w = [] ->
  out (jwt_decode tok SECRET_KEY [ALGORITHM]) w = Ok payload ->
  payload !! "sub" = Some (VStr s) ->
  ObjectId s = Ok oid ->
  get_current_user tok w =
    (match head (select {["_id" := VOid oid]} (users w)) with
     | Some u => Ok (<["id" := VStr (oid_str oid)]> (delete "_id" u))
     | None => Err credentials_exception
     end, w).
Proof.
  intros Hw Hd Hs Ho. unfold get_current_user, bind.
  rewrite token_subject_outcome, Hd, Hs. unfold lift. rewrite Ho.
  rewrite find_one_ok by done.
  destruct (head (select _ (users w))) as [u|] eqn:E; [|done].
  rewrite (truthy_head_select _ _ _ E). simpl.
  apply head_select in E as (st & _ & -> & Hm).
  apply matches_singleton in Hm. rewrite as_doc_id in Hm.
  injection Hm as <-. by rewrite pop_id_as_doc.
Qed.

(** With the store answering, [get_current_user] fails with the 401 or,
    for a subject that is not an ObjectId, with [InvalidId]. *)
Lemma get_current_user_failure tok w e w' :
  faults w = [] ->
  get_current_user tok w = (Err e, w') ->
  w' = w /\
  (e = credentials_exception \/
   e = InvalidId /\
   exists s, out (token_subject tok) w = Ok (VStr s) /\ ObjectId s = Err InvalidId).
Proof.
  intros Hw. unfold get_current_user, bind.
  destruct (token_subject tok w) as [r w1] eqn:Et.
  assert (w1 = w /\ r = out (token_subject tok) w) as [-> ->].
  { unfold out. rewrite token_subject_outcome in *. by injection Et as <- <-. }
  destruct (out (token_subject tok) w) as [v|e0] eqn:Eo.
  - destruct (token_subject_str _ _ _ Eo) as [s ->].
    unfold lift.
    destruct (ObjectId s) as [oid|e1] eqn:Eh.
    2:{ intros [= <- <-]. apply ObjectId_err in Eh as ?. subst e1. eauto 6. }
    rewrite find_one_ok by done.
    destruct (head (select _ (users w))) as [u|] eqn:E.
    + rewrite (truthy_head_select _ _ _ E). simpl.
      apply head_select in E as (st & _ & -> & _).
      by rewrite pop_id_as_doc.
    + intros [= <- <-]. eauto.
  - intros [= <- <-]. split; [done|]. left.
    unfold out in Eo. rewrite token_subject_outcome in Eo. simpl in Eo.
    repeat case_match; congruence.
Qed.

(** ** Issued tokens *)

Lemma jwt_encode_issued (e : Z) (id role key alg : string) :
  jwt_encode (<["exp" := VTime e]> {[ "sub" := VStr id; "role" := VStr role ]})
    key alg =
  let c : dict :=
    <["exp" := VInt (timegm e)]> {[ "sub" := VStr id; "role" := VStr role ]} in
  Ok (Jws alg c (hmac_sha256 key alg c)).
Proof. reflexivity. Qed.

Lemma validate_claims_issued (x now_s : Z) (id role : string) :
  validate_claims
    (<["exp" := VInt x]> {[ "sub" := VStr id; "role" := VStr role ]}) now_s =
  if x <? now_s then Err (JWTError "Signature has expired.") else Ok tt.
Proof.
  unfold validate_claims.
  change (validate_exp _ _) with
    (if x <? now_s then Err (JWTError "Signature has expired.") else Ok tt).
  change (validate_iat _) with (Ok tt).
  change (validate_nbf _ _) with (Ok tt).
  destruct (x <? now_s); reflexivity.
Qed.

Lemma jwt_decode_issued (x : Z) (id role : string) (w : world) :
  let c : dict :=
    <["exp" := VInt x]> {[ "sub" := VStr id; "role" := VStr role ]} in
  jwt_decode (Jws ALGORITHM c (hmac_sha256 SECRET_KEY ALGORITHM c))
    SECRET_KEY [ALGORITHM] w =
  (if x <? timegm (now w) then Err (JWTError "Signature has expired.")
   else Ok c, w).
Proof.
  intros c. unfold jwt_decode.
  change (json_object c) with true.
  change (bool_decide (ALGORITHM ∈ [ALGORITHM])) with true.
  rewrite bool_decide_eq_true_2 by done. cbn [negb].
  unfold bind, utcnow, lift. subst c. cbv beta.
  rewrite validate_claims_issued.
  by destruct (x <? timegm (now w)).
Qed.

Lemma issued_sub (x : Z) (id role : string) :
  (<["exp" := VInt x]> {[ "sub" := VStr id; "role" := VStr role ]} : dict)
    !! "sub" = Some (VStr id).
Proof. reflexivity. Qed.

Lemma issued_role (x : Z) (id role : string) :
  (<["exp" := VInt x]> {[ "sub" := VStr id; "role" := VStr role ]} : dict)
    !! "role" = Some (VStr role).
Proof. reflexivity. Qed.

Lemma timegm_add_seconds (t n : Z) : timegm (t + n * second) = timegm t + n.
Proof. unfold timegm, second. by rewrite Z.div_add. Qed.

Lemma fresh_after_a_second (x : Z) : (x + 86400 <? x + 1) = false.
Proof. apply Z.ltb_ge. lia. Qed.

Lemma stale_after_a_day (x : Z) : (x + 86400 <? x + 86401) = true.
Proof. apply Z.ltb_lt. lia. Qed.

(** ** The bootstrap *)

Lemma try_except_ok {A} (body : M A) catches handler w a w' :
  body w = (Ok a, w') -> try_except body catches handler w = (Ok a, w').
Proof. unfold try_except. by intros ->. Qed.

Lemma bootstrap_noop (w : world) :
  faults w = [] -> admins (users w) ≠ [] ->
  ensure_default_admin w = (Ok tt, w).
Proof.
  intros Hw Ha. unfold ensure_default_admin. apply try_except_ok.
  rewrite (bind_ok _ _ _ _ _ (find_one_ok _ _ Hw)).
  rewrite select_holding. fold (admins (users w)).
  destruct (admins (users w)) as [|s rest]; [done|].
  cbn [fmap list_fmap head truthy].
  by rewrite bool_decide_eq_false_2 by apply as_doc_nonempty.
Qed.

(** Whatever the store does, a bootstrap that finds an admin, or cannot
    look, creates nothing. *)
Lemma bootstrap_creates_nothing (w : world) :
  admins (users w) ≠ [] ->
  users (run ensure_default_admin w) = users w.
Proof.
  intros Ha. unfold run, ensure_default_admin, try_except, bind at 1.
  unfold find_one, bind at 1, round_trip.
  destruct (faults w) as [|[e|] fs]; cbn [fst snd].
  - rewrite select_holding. fold (admins (users w)).
    destruct (admins (users w)) as [|s rest]; [done|].
    cbn [fmap list_fmap head truthy].
    by rewrite bool_decide_eq_false_2 by apply as_doc_nonempty.
  - done.
  - change (users (set_faults fs w)) with (users w).
    rewrite select_holding. fold (admins (users w)).
    destruct (admins (users w)) as [|s rest]; [done|].
    cbn [fmap list_fmap head truthy].
    by rewrite bool_decide_eq_false_2 by apply as_doc_nonempty.
Qed.

Lemma bootstrap_creates (h : string) (w : world) :
  faults w = [] ->
  admins (users w) = [] ->
  pwd_context_hash (entropy w) "Antonio89" = Ok h ->
  email_str "antonio.admin@demo.local" = true ->
  email_unique w = false \/
    with_email "antonio.admin@demo.local" (users w) = [] ->
  exists w',
    ensure_default_admin w = (Ok tt, w') /\
    faults w' = [] /\
    List.length (admins (users w')) = 1%nat.
Proof.
  intros Hw Ha Hhash Hmail Hfree.
  eexists. split; [|split].
  - unfold ensure_default_admin. apply try_except_ok.
    rewrite (bind_ok _ _ _ _ _ (find_one_ok _ _ Hw)).
    rewrite select_holding. fold (admins (users w)). rewrite Ha.
    cbn [fmap list_fmap head truthy].
    erewrite bind_ok; [|unfold get_password_hash; by rewrite Hhash].
    erewrite bind_ok; [|unfold lift, User; by rewrite Hmail].
    erewrite bind_ok;
      [|by apply (create_document_ok _ "antonio.admin@demo.local")].
    reflexivity.
  - done.
  - cbn [users set_users set_entropy].
    unfold admins in *. rewrite holding_app, Ha. reflexivity.
Qed.

(** The duplicate key of a taken address is swallowed: the call returns
    normally and the collection is as it was. *)
Lemma bootstrap_swallows_duplicate (h : string) (w : world) :
  faults w = [] ->
  admins (users w) = [] ->
  pwd_context_hash (entropy w) "Antonio89" = Ok h ->
  email_str "antonio.admin@demo.local" = true ->
  email_unique w = true ->
  with_email "antonio.admin@demo.local" (users w) ≠ [] ->
  ensure_default_admin w = (Ok tt, set_entropy (N.succ (entropy w)) w).
Proof.
  intros Hw Ha Hhash Hmail Hu Htaken.
  unfold ensure_default_admin, try_except.
  rewrite (bind_ok _ _ _ _ _ (find_one_ok _ _ Hw)).
  rewrite select_holding. fold (admins (users w)). rewrite Ha.
  cbn [fmap list_fmap head truthy].
  erewrite bind_ok; [|unfold get_password_hash; by rewrite Hhash].
  erewrite bind_ok; [|unfold lift, User; by rewrite Hmail].
  erewrite bind_err;
    [|by apply (create_document_duplicate _ "antonio.admin@demo.local")].
  reflexivity.
Qed.

(** So is the refusal of the fixed address by the email validation. *)
Lemma bootstrap_swallows_validation (h : string) (w : world) :
  faults w = [] ->
  admins (users w) = [] ->
  pwd_context_hash (entropy w) "Antonio89" = Ok h ->
  email_str "antonio.admin@demo.local" = false ->
  ensure_default_admin w = (Ok tt, set_entropy (N.succ (entropy w)) w).
Proof.
  intros Hw Ha Hhash Hmail.
  unfold ensure_default_admin, try_except.
  rewrite (bind_ok _ _ _ _ _ (find_one_ok _ _ Hw)).
  rewrite select_holding. fold (admins (users w)). rewrite Ha.
  cbn [fmap list_fmap head truthy].
  erewrite bind_ok; [|unfold get_password_hash; by rewrite Hhash].
  erewrite bind_err; [|unfold lift, User; by rewrite Hmail].
  reflexivity.
Qed.

(** A bootstrap that finds no admin and cannot create one, the address
    being taken under the unique index or refused by the validation,
    returns normally all the same and leaves the collection, the index
    and the answering store as they were. *)
Lemma bootstrap_creates_no_admin (w : world) :
  faults w = [] ->
  admins (users w) = [] ->
  email_str "antonio.admin@demo.local" = false \/
    email_unique w = true /\
    with_email "antonio.admin@demo.local" (users w) ≠ [] ->
  exists w1,
    ensure_default_admin w = (Ok tt, w1) /\
    faults w1 = [] /\ email_unique w1 = email_unique w /\
    users w1 = users w.
Proof.
  intros Hw Ha Hno.
  unfold ensure_default_admin, try_except.
  rewrite (bind_ok _ _ _ _ _ (find_one_ok _ _ Hw)).
  rewrite select_holding. fold (admins (users w)). rewrite Ha.
  cbn [fmap list_fmap head truthy].
  destruct (pwd_context_hash (entropy w) "Antonio89") as [h|e] eqn:Hh.
  2:{ erewrite bind_err; [|unfold get_password_hash; by rewrite Hh].
      by eexists. }
  erewrite bind_ok; [|unfold get_password_hash; by rewrite Hh].
  destruct (email_str "antonio.admin@demo.local") eqn:Hm.
  2:{ erewrite bind_err; [|unfold lift, User; by rewrite Hm]. by eexists. }
  destruct Hno as [?|[Hu Htaken]]; [done|].
  erewrite bind_ok; [|unfold lift, User; by rewrite Hm].
  erewrite bind_err;
    [|by apply (create_document_duplicate _ "antonio.admin@demo.local")].
  by eexists.
Qed.

Lemma repeat_bootstrap_no_admin (n : nat) (w : world) :
  faults w = [] ->
  admins (users w) = [] ->
  email_str "antonio.admin@demo.local" = false \/
    email_unique w = true /\
    with_email "antonio.admin@demo.local" (users w) ≠ [] ->
  exists w1,
    repeat_call n ensure_default_admin w = (Ok tt, w1) /\
    faults w1 = [] /\ email_unique w1 = email_unique w /\
    users w1 = users w.
Proof.
  revert w. induction n as [|n IH]; intros w Hw Ha Hno; [by exists w|].
  destruct (bootstrap_creates_no_admin w Hw Ha Hno) as (w1 & Hb & Hw1 & Hu1 & Hs1).
  destruct (IH w1) as (w2 & Hr & Hw2 & Hu2 & Hs2);
    [done|by rewrite Hs1|by rewrite Hu1, Hs1|].
  exists w2. simpl. rewrite (bind_ok _ _ _ _ _ Hb).
  split; [done|]. split; [done|]. split; congruence.
Qed.

Lemma repeat_bootstrap_noop (n : nat) (w : world) :
  faults w = [] -> admins (users w) ≠ [] ->
  repeat_call n ensure_default_admin w = (Ok tt, w).
Proof.
  intros Hw Ha. induction n as [|n IH]; [done|]. simpl.
  by rewrite (bind_ok _ _ _ _ _ (bootstrap_noop _ Hw Ha)).
Qed.

(** ** Listing documents *)

Lemma select_all us : select ∅ us = as_doc <$> us.
Proof.
  unfold select. f_equal. induction us as [|s us IH]; [done|]. simpl.
  unfold matches at 1.
  rewrite bool_decide_eq_true_2 by apply map_empty_subseteq.
  by rewrite IH.
Qed.

Lemma pop_ids_listed (l : list stored) (w : world) :
  pop_ids (as_doc <$> l) w = (Ok (listed <$> l), w).
Proof.
  induction l as [|s l IH]; [done|]. simpl.
  rewrite (bind_ok _ _ _ _ _ (pop_id_as_doc s w)).
  by rewrite (bind_ok _ _ _ _ _ IH).
Qed.

Lemma get_documents_all (w : world) :
  faults w = [] ->
  get_documents (Some ∅) 200 w = (Ok (listed <$> take 200 (users w)), w).
Proof.
  intros Hw. unfold get_documents.
  rewrite bool_decide_eq_true_2 by done.
  rewrite (bind_ok _ _ _ _ _ (find_limit_ok _ _ _ Hw)).
  cbn [Nat.eqb]. rewrite select_all, <- fmap_take.
  apply pop_ids_listed.
Qed.

Lemma listed_field (s : stored) (k : string) :
  k ≠ "id" -> k ≠ "_id" -> listed s !! k = s.2 !! k.
Proof.
  intros H1 H2. unfold listed.
  rewrite lookup_insert_ne by done. rewrite lookup_delete_ne by done.
  by apply as_doc_field.
Qed.

Lemma get_current_user_world tok w :
  faults w = [] -> exists r, get_current_user tok w = (r, w).
Proof.
  intros Hw. destruct (get_current_user tok w) as [[u|e] w'] eqn:E.
  - unfold get_current_user in E. bind_inv E as v w1 E1.
    rewrite token_subject_outcome in E1. injection E1 as _ <-.
    bind_inv E as o w2 E2. assert (w2 = w) as ->.
    { destruct v; try discriminate. unfold lift in E2. by injection E2. }
    bind_inv E as d' w3 E3. rewrite find_one_ok in E3 by done.
    injection E3 as <- <-.
    destruct (head _) as [d|] eqn:Eh; [|discriminate].
    rewrite (truthy_head_select _ _ _ Eh) in E. simpl in E.
    apply head_select in Eh as (st & _ & -> & _).
    rewrite pop_id_as_doc in E. injection E as _ <-. eauto.
  - apply get_current_user_failure in E as [-> _]; eauto.
Qed.

(** With the store answering, a successful [GET /admin/users] returns
    the first 200 stored users, every field but [_id] as it is stored,
    the password hash included. *)
Lemma admin_list_users_lists authorization docs w :
  faults w = [] ->
  out (admin_list_users authorization) w = Ok docs ->
  docs = listed <$> take 200 (users w) /\
  forall d, d ∈ docs ->
    exists s, s ∈ users w /\ d !! "hashed_password" = s.2 !! "hashed_password".
Proof.
  intros Hw. unfold out, admin_list_users.
  destruct authorization as [tok|]; [|done].
  rewrite (bind_ok _ _ w tok w) by done.
  destruct (get_current_user_world tok w Hw) as [[u|e] Hu];
    [rewrite (bind_ok _ _ _ _ _ Hu) | by rewrite (bind_err _ _ _ _ _ Hu)].
  unfold get_current_admin at 1.
  destruct (bool_decide (u !! "role" ≠ Some (VStr "admin"))); [done|].
  rewrite (bind_ok _ _ w u w) by done.
  rewrite (bind_ok _ _ _ _ _ (get_documents_all _ Hw)).
  cbn [ret fst]. intros [= <-]. split; [done|].
  intros d (s & -> & Hs%elem_of_take)%list_elem_of_fmap.
  destruct Hs as (i & Hs & _). exists s. split.
  - by eapply list_elem_of_lookup_2.
  - by apply listed_field.
Qed.

Lemma UserPublic_hides_hash id email full_name role is_active r :
  UserPublic id email full_name role is_active = Ok r ->
  r !! "hashed_password" = None.
Proof.
  unfold UserPublic. repeat case_match; try discriminate.
  by intros [= <-].
Qed.

(** The responses of [POST /auth/register] and [GET /auth/me] are public
    views: they carry no password hash. *)
Lemma register_hides_hash user_in w r :
  out (register user_in) w = Ok r -> r !! "hashed_password" = None.
Proof.
  unfold out. destruct (register user_in w) as [r' w'] eqn:E.
  simpl. intros ->. unfold register in E.
  bind_inv E as existing w1 E1. destruct (truthy existing); [discriminate|].
  bind_inv_all E. unfold lift in E. injection E as E _.
  by eapply UserPublic_hides_hash.
Qed.

Lemma me_hides_hash authorization w r :
  out (me authorization) w = Ok r -> r !! "hashed_password" = None.
Proof.
  unfold out. destruct (me authorization w) as [r' w'] eqn:E.
  simpl. intros ->. unfold me in E.
  bind_inv_all E. unfold lift in E. injection E as E _.
  by eapply UserPublic_hides_hash.
Qed.

(** ** The admin gate *)

Lemma current_admin_outcome (tok : token) (payload u : dict) (s : string)
    (oid : N) (w : world) :
  faults w = [] ->
  out (jwt_decode tok SECRET_KEY [ALGORITHM]) w = Ok payload ->
  payload !! "sub" = Some (VStr s) ->
  ObjectId s = Ok oid ->
  head (select {["_id" := VOid oid]} (users w)) = Some u ->
  current_admin tok w =
    (if bool_decide (u !! "role" = Some (VStr "admin"))
     then Ok (<["id" := VStr (oid_str oid)]> (delete "_id" u))
     else Err (HTTPException 403 "Admin privileges required" []), w).
Proof.
  intros Hw Hd Hs Ho Hu. unfold current_admin.
  pose proof (get_current_user_loaded _ _ _ _ _ Hw Hd Hs Ho) as Hl.
  rewrite Hu in Hl. rewrite (bind_ok _ _ _ _ _ Hl).
  unfold get_current_admin.
  rewrite lookup_insert_ne by done. rewrite lookup_delete_ne by done.
  destruct (decide (u !! "role" = Some (VStr "admin"))) as [E|E].
  - rewrite bool_decide_eq_false_2 by (intros H; by apply H).
    by rewrite bool_decide_eq_true_2.
  - rewrite bool_decide_eq_true_2 by done.
    by rewrite bool_decide_eq_false_2.
Qed.

End Facts.

(** * The claims *)

Section Claims.
Context {L : Libraries}.

(** C7. Whatever the store does during the bootstrap (the existence
    check or the creation failing with any exception, a duplicate key
    included), [ensure_default_admin] returns normally, and [login] goes
    on to authenticate in the environment the bootstrap left: its
    outcome is the one authentication dictates. *)
Theorem C7_bootstrap_never_raises (w : world) (form_data : Form.t) :
  exists w1,
    ensure_default_admin w = (Ok tt, w1) /\
    let '(r, w2) := authenticate_user (Form.username form_data)
                      (Form.password form_data) w1 in
    login form_data w =
      match r with
      | Err e => (Err e, w2)
      | Ok None => (Err (HTTPException 400 "Incorrect credentials" []), w2)
      | Ok (Some u) =>
          if truthy (Some u) then
            (let! sub := item u "id" in
             create_access_token
               {[ "sub" := sub;
                  "role" := get_default u "role" (VStr "student") ]} None) w2
          else (Err (HTTPException 400 "Incorrect credentials" []), w2)
      end.
Proof.
  assert (exists w1, ensure_default_admin w = (Ok tt, w1)) as [w1 Hb].
  { unfold ensure_default_admin, try_except.
    match goal with |- context [match ?b w with _ => _ end] =>
      destruct (b w) as [[[]|e] w'] end; eauto. }
  exists w1. split; [done|].
  destruct (authenticate_user _ _ w1) as [r w2] eqn:Ha.
  unfold login, bind at 1. rewrite Hb. unfold bind at 1. rewrite Ha.
  destruct r as [[u|]|e]; try done.
  by destruct (truthy (Some u)).
Qed.

(** C3. [authenticate_user] does not treat the three cases alike.  A
    record without hash is handed to the hasher as the empty string,
    and neither [authenticate_user] nor [verify_password] has a handler
    around that call: when [pwd_context.verify] raises on the empty
    string, the exception reaches the caller, while an identifier that
    resolves to no record gives [None] in the same store.  The raised
    error tells "no hash set" from "no such user". *)
Theorem C3_no_hash_record_raises
    (identifier password : string) (u : dict) (e : exn) (w : world) :
  faults w = [] ->
  out (get_user_by_identifier identifier) w = Ok (Some u) ->
  u !! "hashed_password" = None ->
  pwd_context_verify password "" = Err e ->
  rejected identifier password w /\
  authenticate_user identifier password w = (Err e, w) /\
  forall unknown : string,
    out (get_user_by_identifier unknown) w = Ok None ->
    rejected unknown password w /\
    authenticate_user unknown password w = (Ok None, w).
Proof.
  intros Hw Hu Hh Hv. split; [by apply (no_password_hash _ _ _ u)|]. split.
  - apply (authenticate_user_hasher_raises _ _ u); [done|done|].
    exists "". split; [|done]. unfold get_default. by rewrite Hh.
  - intros unknown Hn. split; [by apply no_such_user|].
    apply authenticate_user_none; [done|by left].
Qed.

(** C9. A record whose [is_active] is false still authenticates: when
    the identifier resolves to it and the password verifies against its
    hash, [authenticate_user] returns that record (with [_id] renamed to
    [id]), inactive flag and all. *)
Theorem C9_inactive_user_authenticates
    (identifier password h : string) (u : dict) (w : world) :
  faults w = [] ->
  out (get_user_by_identifier identifier) w = Ok (Some u) ->
  u !! "is_active" = Some (VBool false) ->
  u !! "hashed_password" = Some (VStr h) ->
  pwd_context_verify password h = Ok true ->
  exists o r,
    u !! "_id" = Some (VOid o) /\
    r = <["id" := VStr (oid_str o)]> (delete "_id" u) /\
    authenticate_user identifier password w = (Ok (Some r), w) /\
    r !! "is_active" = Some (VBool false).
Proof.
  intros Hw Hu Ha Hh Hv.
  destruct (get_user_by_identifier_stored _ _ _ Hw Hu) as (s & _ & ->).
  exists s.1, (<["id" := VStr (oid_str s.1)]> (delete "_id" (as_doc s))).
  split; [apply as_doc_id|]. split; [done|]. split.
  - unfold authenticate_user, bind.
    rewrite get_user_by_identifier_run by done. rewrite Hu.
    simpl. rewrite bool_decide_eq_false_2 by apply as_doc_nonempty. simpl.
    unfold get_default. rewrite Hh. simpl. unfold lift. rewrite Hv. simpl.
    by rewrite pop_id_as_doc.
  - rewrite lookup_insert_ne by done. by rewrite lookup_delete_ne.
Qed.

(** C5. A token issued at [t0] for a subject and a role validates one
    second later, giving back that subject and that role, and no longer
    validates one second after its 24 hours: [jwt.decode] raises the
    expiry error and the [try] block of [get_current_user] turns it into
    the 401. *)
Theorem C5_token_round_trip (id role : string) (t0 : Z) (w : world) :
  exists tok,
    create_access_token {[ "sub" := VStr id; "role" := VStr role ]} None
      (set_now t0 w) = (Ok tok, set_now t0 w) /\
    (exists payload,
       out (jwt_decode tok SECRET_KEY [ALGORITHM]) (set_now (t0 + second) w)
         = Ok payload /\
       payload !! "sub" = Some (VStr id) /\
       payload !! "role" = Some (VStr role)) /\
    out (token_subject tok) (set_now (t0 + second) w) = Ok (VStr id) /\
    out (jwt_decode tok SECRET_KEY [ALGORITHM])
      (set_now (t0 + hours 24 + second) w)
      = Err (JWTError "Signature has expired.") /\
    out (token_subject tok) (set_now (t0 + hours 24 + second) w)
      = Err credentials_exception.
Proof.
  set (e := t0 + timedelta_minutes ACCESS_TOKEN_EXPIRE_MINUTES).
  set (c := (<["exp" := VInt (timegm e)]>
               {[ "sub" := VStr id; "role" := VStr role ]} : dict)).
  exists (Jws ALGORITHM c (hmac_sha256 SECRET_KEY ALGORITHM c)).
  assert (timegm e = timegm t0 + 86400) as He.
  { rewrite <- (timegm_add_seconds t0 86400). reflexivity. }
  assert (timegm (t0 + second) = timegm t0 + 1) as H1.
  { rewrite <- (timegm_add_seconds t0 1). f_equal; unfold second; lia. }
  assert (timegm (t0 + hours 24 + second) = timegm t0 + 86401) as H2.
  { rewrite <- (timegm_add_seconds t0 86401).
    f_equal; unfold hours, second; lia. }
  assert (out (jwt_decode (Jws ALGORITHM c (hmac_sha256 SECRET_KEY ALGORITHM c))
                 SECRET_KEY [ALGORITHM]) (set_now (t0 + second) w) = Ok c) as Hd1.
  { unfold out, c. rewrite jwt_decode_issued.
    change (now (set_now (t0 + second) w)) with (t0 + second).
    by rewrite He, H1, fresh_after_a_second. }
  assert (out (jwt_decode (Jws ALGORITHM c (hmac_sha256 SECRET_KEY ALGORITHM c))
                 SECRET_KEY [ALGORITHM]) (set_now (t0 + hours 24 + second) w)
          = Err (JWTError "Signature has expired.")) as Hd2.
  { unfold out, c. rewrite jwt_decode_issued.
    change (now (set_now (t0 + hours 24 + second) w))
      with (t0 + hours 24 + second).
    by rewrite He, H2, stale_after_a_day. }
  split; [reflexivity|]. split.
  { exists c. split; [exact Hd1|]. split; [apply issued_sub | apply issued_role]. }
  split.
  { unfold out at 1. rewrite token_subject_outcome. cbn [fst].
    rewrite Hd1. unfold c. by rewrite issued_sub. }
  split; [exact Hd2|].
  unfold out at 1. rewrite token_subject_outcome. cbn [fst]. by rewrite Hd2.
Qed.

(** C8. Registering an email that a stored record already has fails
    with the 400 "Email already registered" and leaves the environment
    as it was; under the uniqueness invariant of the collection the
    store therefore still holds exactly one record for that email. *)
Theorem C8_duplicate_email_conflict (user_in : UserCreate.t) (w : world) :
  faults w = [] ->
  with_email (UserCreate.email user_in) (users w) ≠ [] ->
  register user_in w =
    (Err (HTTPException 400 "Email already registered" []), w) /\
  users (run (register user_in) w) = users w /\
  (emails_distinct (users w) = true ->
   List.length (with_email (UserCreate.email user_in)
                  (users (run (register user_in) w))) = 1%nat).
Proof.
  intros Hw Htaken.
  pose proof (register_conflict _ _ Hw Htaken) as Hr.
  unfold run. rewrite Hr. cbn [snd]. repeat split.
  intros Hd%(emails_distinct_at_most_one (UserCreate.email user_in)).
  destruct (with_email _ (users w)) as [|s rest]; [done|]. simpl in *. lia.
Qed.

(** C10. The admin gate decides on the [role] of the record that
    [get_current_user] has just loaded from the store, whatever role the
    token itself claims: a token whose subject resolves to the record
    [u] passes exactly when [u] has the role "admin", and gets the 403
    otherwise.  The statement holds in every state of the store, so a
    role changed there is the one the very next request is judged by. *)
Theorem C10_admin_gate_reads_store_role
    (tok : token) (payload u : dict) (token_role : option value)
    (s : string) (oid : N) (w : world) :
  faults w = [] ->
  out (jwt_decode tok SECRET_KEY [ALGORITHM]) w = Ok payload ->
  payload !! "sub" = Some (VStr s) ->
  payload !! "role" = token_role ->
  ObjectId s = Ok oid ->
  head (select {["_id" := VOid oid]} (users w)) = Some u ->
  current_admin tok w =
    (if bool_decide (u !! "role" = Some (VStr "admin"))
     then Ok (<["id" := VStr (oid_str oid)]> (delete "_id" u))
     else Err (HTTPException 403 "Admin privileges required" []), w).
Proof.
  intros Hw Hd Hs _ Ho Hu. by eapply current_admin_outcome.
Qed.

(** C2. A registration that asks for the role "admin" and goes through
    (the store answers, the email is new and valid, the hasher returns a
    hash) stores a record whose role is "admin" and answers with that
    role; from then on every valid token whose subject is the new
    record's id passes the admin gate. *)
Theorem C2_register_admin_role (user_in : UserCreate.t) (h : string) (w : world) :
  faults w = [] ->
  with_email (UserCreate.email user_in) (users w) = [] ->
  email_str (UserCreate.email user_in) = true ->
  pwd_context_hash (entropy w) (UserCreate.password user_in) = Ok h ->
  UserCreate.role user_in = Some "admin" ->
  exists resp o fields,
    out (register user_in) w = Ok resp /\
    resp !! "role" = Some (VStr "admin") /\
    resp !! "id" = Some (VStr (oid_str o)) /\
    users (run (register user_in) w) = (users w ++ [(o, fields)])%list /\
    fields !! "role" = Some (VStr "admin") /\
    forall tok payload s,
      out (jwt_decode tok SECRET_KEY [ALGORITHM]) (run (register user_in) w)
        = Ok payload ->
      payload !! "sub" = Some (VStr s) ->
      ObjectId s = Ok o ->
      exists admin,
        current_admin tok (run (register user_in) w)
          = (Ok admin, run (register user_in) w) /\
        admin !! "role" = Some (VStr "admin").
Proof.
  intros Hw Hfree Hmail Hhash Hrole.
  pose proof (register_created _ _ _ Hw Hfree Hmail Hhash) as Hr.
  cbv zeta in Hr. rewrite Hrole in Hr.
  change (str_or (Some "admin") "student") with "admin" in Hr.
  unfold out, run. rewrite Hr. cbn [fst snd].
  eexists _, (fresh_oid (users w)), _.
  split; [reflexivity|]. split; [reflexivity|]. split; [reflexivity|].
  split; [reflexivity|]. split; [reflexivity|].
  intros tok payload s Hd Hs Ho.
  eexists. split.
  - erewrite current_admin_outcome; [|done|exact Hd|exact Hs|exact Ho|].
    2:{ change (users (set_users ?us _)) with us.
        rewrite select_fresh_id. reflexivity. }
    reflexivity.
  - reflexivity.
Qed.

(** C4. A token signed with the key of the source whose subject is not
    an ObjectId passes validation, and [get_current_user] then fails
    with [InvalidId], raised by the [ObjectId] constructor outside the
    [try] block, instead of the 401. *)
Theorem C4_malformed_subject_escapes (w : world) :
  out (token_subject forged_token) w = Ok (VStr "42") /\
  get_current_user forged_token w = (Err InvalidId, w) /\
  InvalidId ≠ credentials_exception.
Proof.
  assert (token_subject forged_token w = (Ok (VStr "42"), w)) as Ht.
  { rewrite token_subject_outcome. unfold out, forged_token, jwt_decode.
    change (json_object {["sub" := VStr "42"]}) with true.
    change (bool_decide (ALGORITHM ∈ [ALGORITHM])) with true.
    rewrite bool_decide_eq_true_2 by done. reflexivity. }
  split; [unfold out; by rewrite Ht|]. split; [|done].
  unfold get_current_user. rewrite (bind_ok _ _ _ _ _ Ht).
  reflexivity.
Qed.

(** Where the bootstrap does what its docstring says: from a store
    without an admin, [n >= 1] calls leave exactly one, provided the
    first call can create it (the store answers, the hasher and the
    email validation accept the fixed password and address, and the
    address is not held by another record under the unique index).  A
    call that finds an admin creates nothing, whatever the store does. *)
Lemma bootstrap_creates_one_admin (n : nat) (h : string) (w : world) :
  faults w = [] ->
  admins (users w) = [] ->
  pwd_context_hash (entropy w) "Antonio89" = Ok h ->
  email_str "antonio.admin@demo.local" = true ->
  email_unique w = false \/
    with_email "antonio.admin@demo.local" (users w) = [] ->
  (1 <= n)%nat ->
  out (repeat_call n ensure_default_admin) w = Ok tt /\
  List.length (admins (users (run (repeat_call n ensure_default_admin) w)))
    = 1%nat /\
  forall w' : world,
    admins (users w') ≠ [] ->
    users (run ensure_default_admin w') = users w'.
Proof.
  intros Hw Ha Hhash Hmail Hfree Hn.
  destruct n as [|n]; [lia|].
  destruct (bootstrap_creates _ _ Hw Ha Hhash Hmail Hfree)
    as (w1 & Hb & Hw1 & Hone).
  assert (admins (users w1) ≠ []) as Ha1.
  { intros E. rewrite E in Hone. discriminate. }
  assert (repeat_call (S n) ensure_default_admin w = (Ok tt, w1)) as Hr.
  { simpl. rewrite (bind_ok _ _ _ _ _ Hb). by apply repeat_bootstrap_noop. }
  unfold out, run. rewrite Hr. cbn [fst snd].
  split; [done|]. split; [done|].
  apply bootstrap_creates_nothing.
Qed.

(** C6. From a store without an admin, the calls of
    [ensure_default_admin] need not leave one.  When the address of the
    default admin is held by another record under the unique index, or
    when the email validation refuses that address, every call finds no
    admin, fails to create one, swallows the exception and returns
    normally: after [n] calls the collection is as it was and still has
    no admin. *)
Theorem C6_no_admin_after_bootstrap (n : nat) (w : world) :
  faults w = [] ->
  admins (users w) = [] ->
  email_str "antonio.admin@demo.local" = false \/
    email_unique w = true /\
    with_email "antonio.admin@demo.local" (users w) ≠ [] ->
  out (repeat_call n ensure_default_admin) w = Ok tt /\
  users (run (repeat_call n ensure_default_admin) w) = users w /\
  List.length
    (admins (users (run (repeat_call n ensure_default_admin) w))) = 0%nat.
Proof.
  intros Hw Ha Hno.
  destruct (repeat_bootstrap_no_admin n w Hw Ha Hno) as (w1 & Hr & _ & _ & Hs).
  unfold out, run. rewrite Hr. cbn [fst snd].
  split; [done|]. split; [done|]. by rewrite Hs, Ha.
Qed.

End Claims.

(** * The claims on concrete requests *)

(** Closed decidable statements are settled by evaluating their decision
    procedure. *)
Ltac decide_by_vm := apply (bool_decide_unpack _); vm_compute; exact I.

(** C1. [GET /admin/users] serializes the stored password hash: once
    Alice is registered and logged in, the list she gets back contains
    her record with its [hashed_password]. *)
Theorem C1_admin_list_users_discloses_hash :
  disclosed (out (@admin_list_users toy (Some alice_bearer)) alice_world)
    = [(Some (VStr "alice@test.io"), Some (VStr "$toy$0$pw123"))].
Proof. decide_by_vm. Qed.

Lemma C2_witness :
  exists resp o fields,
    out (@register toy alice) empty_world = Ok resp /\
    resp !! "role" = Some (VStr "admin") /\
    resp !! "id" = Some (VStr (oid_str o)) /\
    users (run (@register toy alice) empty_world)
      = (users empty_world ++ [(o, fields)])%list /\
    fields !! "role" = Some (VStr "admin") /\
    forall tok payload s,
      out (@jwt_decode toy tok SECRET_KEY [ALGORITHM])
        (run (@register toy alice) empty_world) = Ok payload ->
      payload !! "sub" = Some (VStr s) ->
      ObjectId s = Ok o ->
      exists admin,
        @current_admin toy tok (run (@register toy alice) empty_world)
          = (Ok admin, run (@register toy alice) empty_world) /\
        admin !! "role" = Some (VStr "admin").
Proof.
  apply (@C2_register_admin_role toy alice "$toy$0$pw123" empty_world);
    decide_by_vm.
Defined.

Lemma C3_no_hash_record_raises_witness :
  @rejected strict "bob@test.io" "anything" nohash_world /\
  @authenticate_user strict "bob@test.io" "anything" nohash_world
    = (Err (LibraryError "UnknownHashError"), nohash_world) /\
  @rejected strict "nobody@x.com" "anything" nohash_world /\
  @authenticate_user strict "nobody@x.com" "anything" nohash_world
    = (Ok None, nohash_world).
Proof.
  destruct (@C3_no_hash_record_raises strict "bob@test.io" "anything"
              (as_doc (1%N, bob_doc)) (LibraryError "UnknownHashError")
              nohash_world) as (Hr & He & Hn); [decide_by_vm ..|].
  split; [exact Hr|]. split; [exact He|].
  apply (Hn "nobody@x.com"). decide_by_vm.
Defined.

Lemma C6_no_admin_after_bootstrap_witness :
  (out (repeat_call 3 (@ensure_default_admin toy)) squatted_world = Ok tt /\
   users (run (repeat_call 3 (@ensure_default_admin toy)) squatted_world)
     = users squatted_world /\
   List.length
     (admins (users (run (repeat_call 3 (@ensure_default_admin toy))
                       squatted_world))) = 0%nat) /\
  (out (repeat_call 3 (@ensure_default_admin strict)) empty_world = Ok tt /\
   users (run (repeat_call 3 (@ensure_default_admin strict)) empty_world)
     = users empty_world /\
   List.length
     (admins (users (run (repeat_call 3 (@ensure_default_admin strict))
                       empty_world))) = 0%nat).
Proof.
  split.
  - apply (@C6_no_admin_after_bootstrap toy 3 squatted_world);
      [decide_by_vm | decide_by_vm | right; split; decide_by_vm].
  - apply (@C6_no_admin_after_bootstrap strict 3 empty_world);
      [decide_by_vm | decide_by_vm | left; decide_by_vm].
Defined.

Lemma C8_witness :
  @register toy alice alice_world =
    (Err (HTTPException 400 "Email already registered" []), alice_world) /\
  users (run (@register toy alice) alice_world) = users alice_world /\
  (emails_distinct (users alice_world) = true ->
   List.length (with_email (UserCreate.email alice)
                  (users (run (@register toy alice) alice_world))) = 1%nat).
Proof.
  apply (@C8_duplicate_email_conflict toy alice alice_world); decide_by_vm.
Defined.

Lemma C9_witness :
  exists o r,
    as_doc (7%N, carol_doc) !! "_id" = Some (VOid o) /\
    r = <["id" := VStr (oid_str o)]> (delete "_id" (as_doc (7%N, carol_doc))) /\
    @authenticate_user toy "carol@test.io" "s3cret" inactive_world
      = (Ok (Some r), inactive_world) /\
    r !! "is_active" = Some (VBool false).
Proof.
  apply (@C9_inactive_user_authenticates toy "carol@test.io" "s3cret"
           "$toy$3$s3cret" (as_doc (7%N, carol_doc)) inactive_world);
    decide_by_vm.
Defined.

Lemma C10_witness :
  @current_admin toy alice_bearer demoted_world =
    (Err (HTTPException 403 "Admin privileges required" []), demoted_world).
Proof.
  rewrite (@C10_admin_gate_reads_store_role toy alice_bearer
             {[ "sub" := VStr "000000000000000000000001";
                "role" := VStr "admin"; "exp" := VInt 86400 ]}
             (as_doc (1%N, <["role" := VStr "student"]> alice_doc))
             (Some (VStr "admin")) "000000000000000000000001" 1%N
             demoted_world)
    by decide_by_vm.
  decide_by_vm.
Defined.

(** The bootstrap on a store that is down, on a store that fails while
    the admin is being created, and on a taken address: it returns
    normally each time and no admin is there afterwards. *)
Example bootstrap_store_down :
  @ensure_default_admin toy
    (set_faults [Some (PyMongoError "ServerSelectionTimeoutError")] empty_world)
  = (Ok tt, empty_world).
Proof. decide_by_vm. Qed.

Example bootstrap_creation_fails :
  @ensure_default_admin toy
    (set_faults [None; Some (PyMongoError "AutoReconnect")] empty_world)
  = (Ok tt, set_entropy 1 empty_world).
Proof. decide_by_vm. Qed.

Example bootstrap_duplicate_key :
  out (@ensure_default_admin toy) squatted_world = Ok tt /\
  users (run (@ensure_default_admin toy) squatted_world) = users squatted_world.
Proof. decide_by_vm. Qed.

(** The scenario of the specification: a student registers and logs in,
    sees the own profile, is refused the user list, and the bootstrap
    admin gets the list, the student in it. *)
Example end_to_end :
  (fun r => match r with Ok d => d !! "role" | Err _ => None end)
    (out (@register toy student) empty_world) = Some (VStr "student") /\
  student_bearer ≠ None /\
  (fun r => match r with Ok d => d !! "role" | Err _ => None end)
    (out (@me toy student_bearer) student_world) = Some (VStr "student") /\
  out (@admin_list_users toy student_bearer) student_world
    = Err (HTTPException 403 "Admin privileges required" []) /\
  out (@admin_list_users toy None) student_world
    = Err (HTTPException 401 "Not authenticated"
             [("WWW-Authenticate", "Bearer")]) /\
  admin_bearer ≠ None /\
  fst <$> disclosed (out (@admin_list_users toy admin_bearer) student_world)
    = [Some (VStr "user@test.io"); Some (VStr "antonio.admin@demo.local")].
Proof. decide_by_vm. Qed.

(** * What a computation keeps of the environment *)

Section Frames.
Context {L : Libraries}.

#[global] Instance same_store_property us b : StoreProperty (same_store us b).
Proof. intros w w' Hu He [? ?]. split; congruence. Qed.

#[global] Instance emails_unique_property : StoreProperty emails_unique.
Proof. intros w w' Hu He [? ?]. split; congruence. Qed.

Lemma round_trip_eq w :
  round_trip w =
    (match trip_error w with Some e => Err e | None => Ok tt end, after_trip w).
Proof. unfold round_trip, trip_error, after_trip. by destruct (faults w) as [|[e|] fs]. Qed.

Lemma users_after_trip w : users (after_trip w) = users w.
Proof. unfold after_trip. by destruct (faults w). Qed.

Lemma email_unique_after_trip w : email_unique (after_trip w) = email_unique w.
Proof. unfold after_trip. by destruct (faults w). Qed.

Lemma find_one_eq filter w :
  find_one filter w =
    (match trip_error w with
     | Some e => Err e
     | None => Ok (head (select filter (users w)))
     end, after_trip w).
Proof.
  unfold find_one, bind. rewrite round_trip_eq.
  destruct (trip_error w); [done|]. by rewrite users_after_trip.
Qed.

Lemma find_limit_eq filter limit w :
  find_limit filter limit w =
    (match trip_error w with
     | Some e => Err e
     | None => Ok (let docs := select filter (users w) in
                   if (limit =? 0)%nat then docs else take limit docs)
     end, after_trip w).
Proof.
  unfold find_limit, bind. rewrite round_trip_eq.
  destruct (trip_error w); [done|]. by rewrite users_after_trip.
Qed.

Lemma preserves_ret {A} P (a : A) : preserves P (ret a).
Proof. by intros w. Qed.

Lemma preserves_raise {A} P e : preserves P (@raise A e).
Proof. by intros w. Qed.

Lemma preserves_lift {A} P (r : result A) : preserves P (lift r).
Proof. by intros w. Qed.

Lemma preserves_utcnow P : preserves P utcnow.
Proof. by intros w. Qed.

Lemma preserves_bind {A B} P (m : M A) (k : A -> M B) :
  preserves P m -> (forall a, preserves P (k a)) -> preserves P (bind m k).
Proof.
  intros Hm Hk w Hw. specialize (Hm w Hw). unfold run, bind in *.
  destruct (m w) as [[a|e] w']; [by apply Hk | done].
Qed.

Lemma preserves_try_except {A} P (body : M A) catches handler :
  preserves P body -> (forall e, preserves P (handler e)) ->
  preserves P (try_except body catches handler).
Proof.
  intros Hm Hk w Hw. specialize (Hm w Hw). unfold run, try_except in *.
  destruct (body w) as [[a|e] w']; [done|].
  destruct (catches e); [by apply Hk | done].
Qed.

Lemma preserves_round_trip P `{!StoreProperty P} : preserves P round_trip.
Proof.
  intros w Hw. unfold run. rewrite round_trip_eq. simpl.
  apply (store_property w);
    [apply users_after_trip|apply email_unique_after_trip|done].
Qed.

Lemma preserves_find_one P `{!StoreProperty P} filter : preserves P (find_one filter).
Proof.
  intros w Hw. unfold run. rewrite find_one_eq. simpl.
  apply (store_property w);
    [apply users_after_trip|apply email_unique_after_trip|done].
Qed.

Lemma preserves_find_limit P `{!StoreProperty P} filter limit :
  preserves P (find_limit filter limit).
Proof.
  intros w Hw. unfold run. rewrite find_limit_eq. simpl.
  apply (store_property w);
    [apply users_after_trip|apply email_unique_after_trip|done].
Qed.

Lemma preserves_get_password_hash P `{!StoreProperty P} password :
  preserves P (get_password_hash password).
Proof.
  intros w Hw. unfold run, get_password_hash. simpl.
  by apply (store_property w).
Qed.

Lemma preserves_item P d k : preserves P (item d k).
Proof. unfold item. destruct (d !! k); [apply preserves_ret | apply preserves_raise]. Qed.

Lemma preserves_pop_id P d : preserves P (pop_id d).
Proof. unfold pop_id. destruct (d !! "_id"); [apply preserves_ret | apply preserves_raise]. Qed.

Lemma preserves_pop_ids P docs : preserves P (pop_ids docs).
Proof.
  induction docs as [|d docs IH]; simpl; [apply preserves_ret|].
  apply preserves_bind; [apply preserves_pop_id|]. intros d'.
  apply preserves_bind; [done|]. intros rest. apply preserves_ret.
Qed.

End Frames.

Create HintDb frame discriminated.

#[global] Hint Resolve preserves_ret preserves_raise preserves_lift
  preserves_utcnow preserves_item preserves_pop_id preserves_pop_ids
  preserves_round_trip preserves_find_one preserves_find_limit
  preserves_get_password_hash : frame.

(** Walks through the binds, handlers and case distinctions of a
    computation and closes the leaves with the lemmas of [frame]. *)
Ltac frame :=
  repeat first
    [ solve [eauto 2 with frame typeclass_instances]
    | progress cbv zeta
    | apply preserves_bind; [|intros ?]
    | apply preserves_try_except; [|intros ?]
    | case_match ].

Section Handlers.
Context {L : Libraries}.

Lemma preserves_jwt_decode P tok key algorithms :
  preserves P (jwt_decode tok key algorithms).
Proof. unfold jwt_decode. frame. Qed.
#[local] Hint Resolve preserves_jwt_decode : frame.

Lemma preserves_token_subject P tok : preserves P (token_subject tok).
Proof. unfold token_subject. frame. Qed.
#[local] Hint Resolve preserves_token_subject : frame.

Lemma preserves_get_current_user P `{!StoreProperty P} tok :
  preserves P (get_current_user tok).
Proof. unfold get_current_user. frame. Qed.
#[local] Hint Resolve preserves_get_current_user : frame.

Lemma preserves_get_current_admin P user : preserves P (get_current_admin user).
Proof. unfold get_current_admin. frame. Qed.
#[local] Hint Resolve preserves_get_current_admin : frame.

Lemma preserves_get_documents P `{!StoreProperty P} f limit :
  preserves P (get_documents f limit).
Proof. unfold get_documents. frame. Qed.
#[local] Hint Resolve preserves_get_documents : frame.

Lemma preserves_get_user_by_identifier P `{!StoreProperty P} identifier :
  preserves P (get_user_by_identifier identifier).
Proof. unfold get_user_by_identifier. frame. Qed.
#[local] Hint Resolve preserves_get_user_by_identifier : frame.

Lemma preserves_verify_password P p h : preserves P (verify_password p h).
Proof. unfold verify_password. frame. Qed.
#[local] Hint Resolve preserves_verify_password : frame.

Lemma preserves_authenticate_user P `{!StoreProperty P} identifier password :
  preserves P (authenticate_user identifier password).
Proof. unfold authenticate_user. frame. Qed.
#[local] Hint Resolve preserves_authenticate_user : frame.

Lemma preserves_oauth2_scheme P a : preserves P (oauth2_scheme a).
Proof. unfold oauth2_scheme. frame. Qed.
#[local] Hint Resolve preserves_oauth2_scheme : frame.

Lemma preserves_me P `{!StoreProperty P} a : preserves P (me a).
Proof. unfold me. frame. Qed.

Lemma preserves_admin_list_users P `{!StoreProperty P} a :
  preserves P (admin_list_users a).
Proof. unfold admin_list_users. frame. Qed.

Lemma preserves_create_access_token P data delta :
  preserves P (create_access_token data delta).
Proof. unfold create_access_token. frame. Qed.
#[local] Hint Resolve preserves_create_access_token : frame.

(** ** The unique index keeps emails distinct *)

Lemma email_clash_app d us1 us2 :
  email_clash d (us1 ++ us2) = email_clash d us1 || email_clash d us2.
Proof. unfold email_clash. apply existsb_app. Qed.

Lemma emails_distinct_snoc us o d :
  emails_distinct us = true ->
  email_clash d us = false ->
  emails_distinct (us ++ [(o, d)]) = true.
Proof.
  induction us as [|s us IH]; [done|]. simpl.
  intros [Hs Hus]%andb_prop [Hd Hc]%orb_false_elim.
  rewrite IH by done. rewrite andb_true_r.
  rewrite email_clash_app. apply negb_true_iff in Hs. rewrite Hs. simpl.
  rewrite orb_false_r. apply negb_true_iff.
  rewrite as_doc_field by done. simpl.
  apply bool_decide_eq_false. apply bool_decide_eq_false in Hd. congruence.
Qed.

Lemma after_trip_property P `{!StoreProperty P} w : P w -> P (after_trip w).
Proof.
  apply store_property; [apply users_after_trip|apply email_unique_after_trip].
Qed.

Lemma preserves_insert_one d : preserves emails_unique (insert_one d).
Proof.
  intros w Hw. unfold run, insert_one, bind. rewrite round_trip_eq.
  apply (after_trip_property emails_unique) in Hw as Hw'.
  destruct (trip_error w); [done|].
  destruct Hw' as [Hu Hd]. rewrite Hu. simpl.
  destruct (email_clash d (users (after_trip w))) eqn:Hc; simpl; [done|].
  split; [done|]. by apply emails_distinct_snoc.
Qed.
#[local] Hint Resolve preserves_insert_one : frame.

Lemma preserves_create_document data :
  preserves emails_unique (create_document data).
Proof. unfold create_document. frame. Qed.
#[local] Hint Resolve preserves_create_document : frame.

Lemma preserves_ensure_default_admin : preserves emails_unique ensure_default_admin.
Proof. unfold ensure_default_admin. frame. Qed.
#[local] Hint Resolve preserves_ensure_default_admin : frame.

Lemma preserves_register user_in : preserves emails_unique (register user_in).
Proof. unfold register. frame. Qed.

Lemma preserves_login form_data : preserves emails_unique (login form_data).
Proof. unfold login. frame. Qed.

End Handlers.

#[global] Hint Resolve preserves_jwt_decode preserves_token_subject
  preserves_get_current_user preserves_get_current_admin
  preserves_get_documents preserves_get_user_by_identifier
  preserves_verify_password preserves_authenticate_user
  preserves_oauth2_scheme preserves_create_access_token
  preserves_insert_one preserves_create_document
  preserves_ensure_default_admin : frame.

(** * ObjectIds *)

Section Ids.
Context {L : Libraries}.

Lemma hex_value_digit (k : N) : (k < 16)%N -> hex_value (hex_digit k) = Some k.
Proof.
  intros H.
  assert (forallb (fun k => bool_decide (hex_value (hex_digit k) = Some k))
            (N.of_nat <$> seq 0 16) = true) as Hall by (vm_compute; reflexivity).
  rewrite forallb_forall in Hall.
  apply (bool_decide_eq_true_1 _), Hall, list_elem_of_In, list_elem_of_fmap.
  exists (N.to_nat k). split; [lia|]. apply elem_of_seq. lia.
Qed.

Lemma hex_parse_hex_of (digits : nat) (n acc : N) (rest : string) :
  hex_parse (hex_of digits n rest) acc =
    hex_parse rest (acc * 16 ^ N.of_nat digits + n mod 16 ^ N.of_nat digits)%N.
Proof.
  revert n acc rest. induction digits as [|d IH]; intros n acc rest.
  - cbn [hex_of]. f_equal. change (N.of_nat 0) with 0%N.
    rewrite N.pow_0_r, N.mod_1_r. lia.
  - cbn [hex_of]. rewrite IH. cbn [hex_parse].
    rewrite hex_value_digit by (apply N.mod_lt; lia).
    f_equal. rewrite Nat2N.inj_succ, N.pow_succ_r'.
    rewrite (N.Div0.mod_mul_r n 16). lia.
Qed.

Lemma length_hex_of (digits : nat) (n : N) (rest : string) :
  String.length (hex_of digits n rest) = (digits + String.length rest)%nat.
Proof.
  revert n rest. induction digits as [|d IH]; intros n rest; [done|].
  cbn [hex_of]. rewrite IH. cbn [String.length]. lia.
Qed.

Lemma pow_16_24 : (16 ^ N.of_nat 24 = 2 ^ 96)%N.
Proof. vm_compute. reflexivity. Qed.

Lemma ObjectId_oid_str (o : N) : (o < 2 ^ 96)%N -> ObjectId (oid_str o) = Ok o.
Proof.
  intros H. unfold ObjectId, oid_str. rewrite length_hex_of.
  change (24 + String.length "" =? 24)%nat with true. cbv iota.
  rewrite hex_parse_hex_of. cbn [hex_parse].
  rewrite pow_16_24, N.mod_small by exact H.
  rewrite N.mul_0_l, N.add_0_l. reflexivity.
Qed.

Lemma holding_id_unique us s :
  NoDup (fst <$> us) -> s ∈ us -> holding "_id" (VOid s.1) us = [s].
Proof.
  unfold holding. induction us as [|s' us IH]; simpl.
  - intros _ H. by apply elem_of_nil in H.
  - intros [Hnotin Hnd]%NoDup_cons Hin. unfold field_is at 1.
    rewrite as_doc_id. apply elem_of_cons in Hin as [->|Hin].
    + rewrite bool_decide_eq_true_2 by done. f_equal.
      apply (holding_nil_iff "_id" (VOid s'.1) us). intros s Hs.
      rewrite as_doc_id. intros [= E]. apply Hnotin.
      rewrite <- E. apply list_elem_of_fmap. eauto.
    + rewrite bool_decide_eq_false_2; [by apply IH|].
      intros [= E]. apply Hnotin. rewrite E. apply list_elem_of_fmap. eauto.
Qed.

Lemma select_id_unique us s :
  NoDup (fst <$> us) -> s ∈ us ->
  select {["_id" := VOid s.1]} us = [as_doc s].
Proof. intros. rewrite select_holding. by rewrite holding_id_unique. Qed.

Lemma fresh_oid_notin us : fresh_oid us ∉ (fst <$> us).
Proof.
  intros (s & E & Hs)%list_elem_of_fmap. apply fresh_oid_above in Hs. lia.
Qed.

Lemma ids_valid_snoc_nodup (us : list stored) (d : dict) :
  NoDup (fst <$> us) -> NoDup (fst <$> (us ++ [(fresh_oid us, d)])%list).
Proof.
  intros Hnd. rewrite fmap_app. simpl. apply NoDup_app. split; [done|]. split.
  - intros o Ho [->|H]%elem_of_cons; [by apply fresh_oid_notin in Ho|].
    by apply elem_of_nil in H.
  - apply NoDup_singleton.
Qed.

End Ids.

(** * Logging in *)

Section Login.
Context {L : Libraries}.

(** With the store answering, the bootstrap returns, the store still
    answers, and the collection is as it was or has the default admin
    appended. *)
Lemma bootstrap_outcome (w : world) :
  faults w = [] ->
  exists w1,
    ensure_default_admin w = (Ok tt, w1) /\
    faults w1 = [] /\ now w1 = now w /\ email_unique w1 = email_unique w /\
    (users w1 = users w \/
     admins (users w) = [] /\
     exists h,
       pwd_context_hash (entropy w) "Antonio89" = Ok h /\
       users w1 =
         (users w ++ [(fresh_oid (users w),
                       stamped (default_admin_doc h) w)])%list).
Proof.
  intros Hw.
  destruct (admins (users w)) as [|s0 rest] eqn:Ha.
  2:{ exists w. rewrite bootstrap_noop; [eauto 10|done|by rewrite Ha]. }
  unfold ensure_default_admin, try_except.
  rewrite (bind_ok _ _ _ _ _ (find_one_ok _ _ Hw)).
  rewrite select_holding. fold (admins (users w)). rewrite Ha.
  cbn [fmap list_fmap head truthy].
  destruct (pwd_context_hash (entropy w) "Antonio89") as [h|e] eqn:Hh.
  2:{ erewrite bind_err; [|unfold get_password_hash; by rewrite Hh].
      eexists. split; [reflexivity|]. eauto 10. }
  erewrite bind_ok; [|unfold get_password_hash; by rewrite Hh].
  destruct (email_str "antonio.admin@demo.local") eqn:Hm.
  2:{ erewrite bind_err; [|unfold lift, User; by rewrite Hm].
      eexists. split; [reflexivity|]. eauto 10. }
  erewrite bind_ok; [|unfold lift, User; by rewrite Hm].
  fold (default_admin_doc h).
  set (w0 := set_entropy (N.succ (entropy w)) w).
  destruct (email_unique w0) eqn:Hu;
    [destruct (with_email "antonio.admin@demo.local" (users w0)) eqn:He|].
  - erewrite bind_ok;
      [|by apply (create_document_ok _ "antonio.admin@demo.local"); [| |right]].
    eexists. split; [reflexivity|]. repeat split; try done.
    right. split; [done|]. exists h. by split.
  - erewrite bind_err;
      [|apply (create_document_duplicate _ "antonio.admin@demo.local");
        [done|done|done|by rewrite He]].
    eexists. split; [reflexivity|]. eauto 10.
  - erewrite bind_ok;
      [|by apply (create_document_ok _ "antonio.admin@demo.local"); [| |left]].
    eexists. split; [reflexivity|]. repeat split; try done.
    right. split; [done|]. exists h. by split.
Qed.

Lemma authenticate_user_accepts identifier password s h w :
  faults w = [] ->
  out (get_user_by_identifier identifier) w = Ok (Some (as_doc s)) ->
  get_default (as_doc s) "hashed_password" (VStr "") = VStr h ->
  pwd_context_verify password h = Ok true ->
  authenticate_user identifier password w = (Ok (Some (listed s)), w).
Proof.
  intros Hw Hu Hh Hv. unfold authenticate_user, bind.
  rewrite get_user_by_identifier_run by done. rewrite Hu.
  simpl. rewrite bool_decide_eq_false_2 by apply as_doc_nonempty. simpl.
  rewrite Hh. simpl. unfold lift. rewrite Hv. simpl.
  by rewrite pop_id_as_doc.
Qed.

(** ** Tokens of [login] *)

Lemma json_object_claims (x : Z) (i : string) (r : value) :
  json_value r = true ->
  json_object (<["exp" := VInt x]> {[ "sub" := VStr i; "role" := r ]}) = true.
Proof.
  intros Hr. unfold json_object. apply bool_decide_eq_true_2.
  apply map_Forall_insert_2; [done|].
  apply map_Forall_insert_2; [done|].
  by apply map_Forall_singleton.
Qed.

Lemma jwt_encode_claims (e : Z) (i : string) (r : value) (key alg : string) :
  json_value r = true ->
  jwt_encode (<["exp" := VTime e]> {[ "sub" := VStr i; "role" := r ]}) key alg =
  let c : dict := <["exp" := VInt (timegm e)]> {[ "sub" := VStr i; "role" := r ]} in
  Ok (Jws alg c (hmac_sha256 key alg c)).
Proof.
  intros Hr. unfold jwt_encode.
  change (alter numeric_date "exp" (alter numeric_date "iat"
            (alter numeric_date "nbf"
               (<["exp" := VTime e]> {[ "sub" := VStr i; "role" := r ]}))))
    with (<["exp" := VInt (timegm e)]> ({[ "sub" := VStr i; "role" := r ]} : dict)).
  by rewrite json_object_claims.
Qed.

Lemma validate_claims_window (x now_s : Z) (i : string) (r : value) :
  validate_claims (<["exp" := VInt x]> {[ "sub" := VStr i; "role" := r ]}) now_s =
  if x <? now_s then Err (JWTError "Signature has expired.") else Ok tt.
Proof.
  unfold validate_claims.
  change (validate_exp _ _) with
    (if x <? now_s then Err (JWTError "Signature has expired.") else Ok tt).
  change (validate_iat _) with (Ok tt).
  change (validate_nbf _ _) with (Ok tt).
  destruct (x <? now_s); reflexivity.
Qed.

(** A token with the claims [sub], [role] and [exp], signed with the key
    of the source, decodes to its claims as long as the clock, in whole
    seconds, has not passed [exp]. *)
Lemma jwt_decode_window (x : Z) (i : string) (r : value) (w : world) :
  json_value r = true ->
  let c : dict := <["exp" := VInt x]> {[ "sub" := VStr i; "role" := r ]} in
  jwt_decode (Jws ALGORITHM c (hmac_sha256 SECRET_KEY ALGORITHM c))
    SECRET_KEY [ALGORITHM] w =
  (if x <? timegm (now w) then Err (JWTError "Signature has expired.")
   else Ok c, w).
Proof.
  intros Hr c. unfold jwt_decode. subst c.
  rewrite json_object_claims by done.
  change (bool_decide (ALGORITHM ∈ [ALGORITHM])) with true.
  rewrite bool_decide_eq_true_2 by done. cbn [negb].
  unfold bind, utcnow, lift. cbv beta.
  rewrite validate_claims_window.
  by destruct (x <? timegm (now w)).
Qed.

Lemma listed_truthy s : truthy (Some (listed s)) = true.
Proof.
  simpl. rewrite bool_decide_eq_false_2; [done|]. apply insert_non_empty.
Qed.

Lemma listed_id s : listed s !! "id" = Some (VStr (oid_str s.1)).
Proof. unfold listed. by rewrite lookup_insert_eq. Qed.

(** [login] once the bootstrap has run and authentication has found the
    record: the token it issues. *)
Lemma login_issues (form_data : Form.t) (s : stored) (w w1 : world) :
  ensure_default_admin w = (Ok tt, w1) ->
  authenticate_user (Form.username form_data) (Form.password form_data) w1
    = (Ok (Some (listed s)), w1) ->
  json_value (get_default (listed s) "role" (VStr "student")) = true ->
  login form_data w =
    (let c := <["exp" := VInt (timegm (now w1) + 86400)]>
                {[ "sub" := VStr (oid_str s.1);
                   "role" := get_default (listed s) "role" (VStr "student") ]} in
     Ok (Jws ALGORITHM c (hmac_sha256 SECRET_KEY ALGORITHM c)), w1).
Proof.
  intros Hb Ha Hr. unfold login.
  rewrite (bind_ok _ _ _ _ _ Hb), (bind_ok _ _ _ _ _ Ha).
  rewrite listed_truthy. cbn [negb].
  unfold item at 1. rewrite listed_id.
  rewrite (bind_ok _ _ w1 (VStr (oid_str s.1)) w1) by done.
  unfold create_access_token.
  rewrite (bind_ok _ _ w1 (now w1) w1) by done.
  unfold lift. rewrite jwt_encode_claims by done. cbv zeta.
  rewrite <- (timegm_add_seconds (now w1) 86400). reflexivity.
Qed.

Lemma bootstrap_created (h : string) (w : world) :
  faults w = [] ->
  admins (users w) = [] ->
  pwd_context_hash (entropy w) "Antonio89" = Ok h ->
  email_str "antonio.admin@demo.local" = true ->
  email_unique w = false \/
    with_email "antonio.admin@demo.local" (users w) = [] ->
  ensure_default_admin w =
    (Ok tt,
     set_users (users w ++ [(fresh_oid (users w),
                             stamped (default_admin_doc h) w)])
       (set_entropy (N.succ (entropy w)) w)).
Proof.
  intros Hw Ha Hhash Hmail Hfree.
  unfold ensure_default_admin. apply try_except_ok.
  rewrite (bind_ok _ _ _ _ _ (find_one_ok _ _ Hw)).
  rewrite select_holding. fold (admins (users w)). rewrite Ha.
  cbn [fmap list_fmap head truthy].
  erewrite bind_ok; [|unfold get_password_hash; by rewrite Hhash].
  erewrite bind_ok; [|unfold lift, User; by rewrite Hmail].
  erewrite bind_ok;
    [|by apply (create_document_ok _ "antonio.admin@demo.local")].
  reflexivity.
Qed.

Lemma get_current_user_of_listed (s : stored) (r : value) (x : Z) (w : world) :
  faults w = [] ->
  NoDup (fst <$> users w) -> s ∈ users w -> (s.1 < 2 ^ 96)%N ->
  json_value r = true ->
  (x <? timegm (now w)) = false ->
  let c : dict := <["exp" := VInt x]> {[ "sub" := VStr (oid_str s.1); "role" := r ]} in
  get_current_user (Jws ALGORITHM c (hmac_sha256 SECRET_KEY ALGORITHM c)) w
    = (Ok (listed s), w).
Proof.
  intros Hw Hnd Hs Hb Hr Hx c.
  erewrite (get_current_user_loaded _ _ c (oid_str s.1) s.1); [|done| | |].
  - by rewrite select_id_unique.
  - unfold out, c. rewrite jwt_decode_window by done. by rewrite Hx.
  - reflexivity.
  - by apply ObjectId_oid_str.
Qed.

End Login.

Section LoginTheorems.
Context {L : Libraries}.

Lemma not_yet_expired (x : Z) : (x + 86400 <? x) = false.
Proof. apply Z.ltb_ge. lia. Qed.

(** X6. What [login] answers when [authenticate_user] does not return
    a record, the store answering.  It is the 400 "Incorrect
    credentials" when the identifier resolves to no record once the
    bootstrap has run, and when [pwd_context.verify] returns [False] for
    the password against the hash of the record, the empty string for a
    record without hash.  When [pwd_context.verify] raises instead,
    [login] has no handler either: the client gets that exception and
    no 400.  In every case the environment is the one the admin
    bootstrap left, so a failed login may still have created the
    default admin. *)
Theorem login_incorrect_credentials (form_data : Form.t) (w : world) :
  let w1 := run ensure_default_admin w in
  let user := out (get_user_by_identifier (Form.username form_data)) w1 in
  let incorrect := HTTPException 400 "Incorrect credentials" [] in
  faults w = [] ->
  (user = Ok None -> login form_data w = (Err incorrect, w1)) /\
  (forall u h,
     user = Ok (Some u) ->
     get_default u "hashed_password" (VStr "") = VStr h ->
     (pwd_context_verify (Form.password form_data) h = Ok false ->
      login form_data w = (Err incorrect, w1)) /\
     (forall e,
        pwd_context_verify (Form.password form_data) h = Err e ->
        login form_data w = (Err e, w1))).
Proof.
  intros w1 user incorrect Hw.
  destruct (bootstrap_outcome w Hw) as (w' & Hb & Hw1 & _).
  assert (w1 = w') as E by (unfold w1, run; by rewrite Hb).
  unfold user. clear user. rewrite E. clear w1 E.
  split; [|intros u h Hu Hh; split; [|intros e]]; intros H;
    unfold login; rewrite (bind_ok _ _ _ _ _ Hb).
  - by rewrite (bind_ok _ _ _ _ _
                  (authenticate_user_none _ _ _ Hw1 (or_introl H))).
  - assert (authenticate_user (Form.username form_data)
              (Form.password form_data) w' = (Ok None, w')) as Hn.
    { apply authenticate_user_none; [done|]. right. by exists u, h. }
    by rewrite (bind_ok _ _ _ _ _ Hn).
  - assert (authenticate_user (Form.username form_data)
              (Form.password form_data) w' = (Err e, w')) as He.
    { apply (authenticate_user_hasher_raises _ _ u); [done|done|by exists h]. }
    by rewrite (bind_err _ _ _ _ _ He).
Qed.

(** X7. With the store answering and ObjectIds distinct and twelve
    bytes long, [login] with the right password returns a token whose
    subject is the id of the record, whose role is the stored role and
    which expires 86400 seconds after the second of issue; presented at
    once, [get_current_user] resolves it to that very record, [id] in
    place of [_id]. *)
Theorem login_token_identifies_user
    (form_data : Form.t) (s : stored) (h : string) (w : world) :
  let w1 := run ensure_default_admin w in
  faults w = [] ->
  ids_valid (users w1) ->
  s ∈ users w1 ->
  out (get_user_by_identifier (Form.username form_data)) w1
    = Ok (Some (as_doc s)) ->
  get_default (as_doc s) "hashed_password" (VStr "") = VStr h ->
  pwd_context_verify (Form.password form_data) h = Ok true ->
  json_value (get_default (as_doc s) "role" (VStr "student")) = true ->
  exists alg claims sig,
    login form_data w = (Ok (Jws alg claims sig), w1) /\
    claims !! "sub" = Some (VStr (oid_str s.1)) /\
    claims !! "role" = Some (get_default (as_doc s) "role" (VStr "student")) /\
    claims !! "exp" = Some (VInt (timegm (now w) + 86400)) /\
    get_current_user (Jws alg claims sig) w1 = (Ok (listed s), w1).
Proof.
  intros w1 Hw [Hnd Hbound] Hs Hu Hh Hv Hr.
  destruct (bootstrap_outcome w Hw) as (w' & Hb & Hw1 & Hnow & _).
  assert (w1 = w') as -> by (unfold w1, run; by rewrite Hb).
  assert (get_default (listed s) "role" (VStr "student")
          = get_default (as_doc s) "role" (VStr "student")) as Hrole.
  { unfold get_default. rewrite listed_field by done. by rewrite as_doc_field. }
  pose proof (authenticate_user_accepts _ _ _ _ _ Hw1 Hu Hh Hv) as Ha.
  pose proof (login_issues form_data s w w' Hb Ha) as Hl.
  rewrite Hrole in Hl. specialize (Hl Hr). cbv zeta in Hl.
  eexists _, _, _. split; [exact Hl|].
  split; [reflexivity|]. split; [reflexivity|].
  split; [by rewrite Hnow|].
  apply get_current_user_of_listed; try done.
  - rewrite Forall_forall in Hbound. by apply Hbound.
  - apply not_yet_expired.
Qed.

(** X8. Whether the default admin can log in is decided by the
    libraries.  Take a store that answers, without an admin, where the
    address antonio.admin@demo.local is free.  If the hasher hashes
    "Antonio89" and verifies it against that hash, and the email
    validation accepts the address, the first login with them succeeds:
    the bootstrap inside [login] creates the account, and the token
    passes [get_current_admin] as that admin.  If the email validation
    refuses the address, the bootstrap swallows the refusal, no admin
    exists afterwards, and the same login (no record being named like
    the address either) is turned down with the 400. *)
Theorem default_admin_login (w : world) :
  let form_data := Form.Build "antonio.admin@demo.local" "Antonio89" in
  faults w = [] ->
  admins (users w) = [] ->
  with_email "antonio.admin@demo.local" (users w) = [] ->
  NoDup (fst <$> users w) ->
  (fresh_oid (users w) < 2 ^ 96)%N ->
  (forall h,
     pwd_context_hash (entropy w) "Antonio89" = Ok h ->
     pwd_context_verify "Antonio89" h = Ok true ->
     email_str "antonio.admin@demo.local" = true ->
     exists tok admin,
       out (login form_data) w = Ok tok /\
       current_admin tok (run (login form_data) w)
         = (Ok admin, run (login form_data) w) /\
       admin !! "email" = Some (VStr "antonio.admin@demo.local") /\
       admin !! "role" = Some (VStr "admin")) /\
  (email_str "antonio.admin@demo.local" = false ->
   holding "full_name" (VStr "antonio.admin@demo.local") (users w) = [] ->
   out (login form_data) w
     = Err (HTTPException 400 "Incorrect credentials" []) /\
   users (run (login form_data) w) = users w).
Proof.
  intros form_data Hw Ha Hfree Hnd Hbound. split.
  - intros h Hhash Hverify Hmail.
    pose proof (bootstrap_created h w Hw Ha Hhash Hmail (or_intror Hfree)) as Hb.
    set (s := (fresh_oid (users w), stamped (default_admin_doc h) w)) in *.
    set (w1 := set_users (users w ++ [s]) _) in Hb.
    assert (faults w1 = []) as Hw1 by done.
    assert (with_email "antonio.admin@demo.local" (users w1) = [s]) as He.
    { unfold w1. cbn [users set_users set_entropy]. unfold with_email in *.
      by rewrite holding_app, Hfree. }
    assert (authenticate_user "antonio.admin@demo.local" "Antonio89" w1
            = (Ok (Some (listed s)), w1)) as Hauth.
    { apply (authenticate_user_accepts _ _ _ h); [done| |done|done].
      by apply (resolves_by_email _ s []). }
    pose proof (login_issues form_data s w w1 Hb Hauth eq_refl) as Hl.
    cbv zeta in Hl.
    unfold out, run. rewrite Hl. cbn [fst snd].
    eexists _, _. split; [reflexivity|].
    assert (s ∈ users w1) as Hs.
    { unfold w1. cbn [users set_users]. apply elem_of_app. right. left. }
    assert (NoDup (fst <$> users w1)) as Hnd1.
    { unfold w1. cbn [users set_users]. by apply ids_valid_snoc_nodup. }
    unfold current_admin.
    erewrite bind_ok;
      [|apply get_current_user_of_listed;
        [done|done|done|done|reflexivity|apply not_yet_expired]].
    split; [reflexivity|]. split; reflexivity.
  - intros Hmail Hname.
    destruct (bootstrap_creates_no_admin w Hw Ha (or_introl Hmail))
      as (w1 & Hb & Hw1 & _ & Hs).
    assert (out (get_user_by_identifier "antonio.admin@demo.local") w1
            = Ok None) as Hu.
    { unfold out. rewrite get_user_by_identifier_ok by done.
      rewrite !select_holding, Hs.
      fold (with_email "antonio.admin@demo.local" (users w)).
      by rewrite Hfree, Hname. }
    unfold out, run, login. rewrite (bind_ok _ _ _ _ _ Hb).
    by rewrite (bind_ok _ _ _ _ _
                  (authenticate_user_none _ _ _ Hw1 (or_introl Hu))).
Qed.

Lemma me_response (o : N) (e f h role t : string) (w : world) :
  email_str e = true ->
  let current_user : dict :=
    listed (o, <["updated_at" := VStr t]> (<["created_at" := VStr t]>
                 {[ "email" := VStr e; "full_name" := VStr f;
                    "hashed_password" := VStr h; "role" := VStr role;
                    "is_active" := VBool true ]})) in
  (let! id := item current_user "id" in
   let! email := item current_user "email" in
   let! full_name := item current_user "full_name" in
   lift (UserPublic id email full_name
           (get_default current_user "role" (VStr "student"))
           (get_default current_user "is_active" (VBool true)))) w =
  (Ok {[ "id" := VStr (oid_str o); "email" := VStr e; "full_name" := VStr f;
         "role" := VStr role; "is_active" := VBool true ]}, w).
Proof.
  intros He current_user.
  change (_ = _) with
    ((if email_str e
      then Ok ({[ "id" := VStr (oid_str o); "email" := VStr e;
                  "full_name" := VStr f; "role" := VStr role;
                  "is_active" := VBool true ]} : dict)
      else Err ValidationError, w) =
     (Ok {[ "id" := VStr (oid_str o); "email" := VStr e; "full_name" := VStr f;
            "role" := VStr role; "is_active" := VBool true ]}, w)).
  by rewrite He.
Qed.

(** X9. Register, log in with the same email and password, then read
    [GET /auth/me] with the token: the profile returned is the response
    of the registration, field for field. *)
Theorem register_login_me (user_in : UserCreate.t) (h : string) (w : world) :
  let form_data :=
    Form.Build (UserCreate.email user_in) (UserCreate.password user_in) in
  let w1 := run (register user_in) w in
  faults w = [] ->
  with_email (UserCreate.email user_in) (users w) = [] ->
  email_str (UserCreate.email user_in) = true ->
  pwd_context_hash (entropy w) (UserCreate.password user_in) = Ok h ->
  pwd_context_verify (UserCreate.password user_in) h = Ok true ->
  NoDup (fst <$> users w) ->
  (fresh_oid (users w) < 2 ^ 96)%N ->
  exists resp tok,
    out (register user_in) w = Ok resp /\
    out (login form_data) w1 = Ok tok /\
    out (me (Some tok)) (run (login form_data) w1) = Ok resp.
Proof.
  intros form_data w1 Hw Hfree Hmail Hhash Hverify Hnd Hbound.
  pose proof (register_created _ _ _ Hw Hfree Hmail Hhash) as Hr.
  cbv zeta in Hr.
  set (s := (fresh_oid (users w), stamped _ _)) in Hr.
  assert (w1 = set_users (users w ++ [s]) (set_entropy (N.succ (entropy w)) w))
    as Hw1 by (unfold w1, run; by rewrite Hr).
  assert (faults w1 = []) as Hf1 by (by rewrite Hw1).
  assert (users w1 = (users w ++ [s])%list) as Hu1 by (by rewrite Hw1).
  destruct (bootstrap_outcome w1 Hf1) as (w2 & Hb & Hf2 & Hnow & _ & Hus).
  assert (exists rest, users w2 = (users w ++ s :: rest)%list /\
                       NoDup (fst <$> users w2)) as (rest & Hu2 & Hnd2).
  { destruct Hus as [E | (_ & h' & _ & E)]; rewrite E.
    - exists []. split; [done|]. rewrite Hu1. by apply ids_valid_snoc_nodup.
    - eexists [_]. rewrite Hu1 at 1. rewrite <- app_assoc. split; [done|].
      apply ids_valid_snoc_nodup. rewrite Hu1. by apply ids_valid_snoc_nodup. }
  assert (s ∈ users w2) as Hs.
  { rewrite Hu2. apply elem_of_app. right. left. }
  assert (out (get_user_by_identifier (UserCreate.email user_in)) w2
          = Ok (Some (as_doc s))) as Hres.
  { apply (resolves_by_email _ s (with_email (UserCreate.email user_in) rest));
      [done|].
    assert (field_is "email" (VStr (UserCreate.email user_in)) s = true) as Hse.
    { unfold field_is. by apply bool_decide_eq_true_2. }
    rewrite Hu2. unfold with_email in *. rewrite holding_app, Hfree.
    unfold holding. simpl. by rewrite Hse. }
  assert (authenticate_user (Form.username form_data) (Form.password form_data)
            w2 = (Ok (Some (listed s)), w2)) as Hauth.
  { by apply (authenticate_user_accepts _ _ _ h). }
  pose proof (login_issues form_data s w1 w2 Hb Hauth eq_refl) as Hl.
  cbv zeta in Hl.
  eexists _, _. split; [unfold out; by rewrite Hr|].
  unfold out, run. rewrite Hl. cbn [fst snd]. split; [reflexivity|].
  unfold me. rewrite (bind_ok _ _ w2 _ w2) by reflexivity.
  erewrite bind_ok;
    [|apply get_current_user_of_listed;
      [done|done|done|done|reflexivity|apply not_yet_expired]].
  unfold s, stamped. by rewrite me_response.
Qed.

End LoginTheorems.

(** * The user routes in every environment *)

Tactic Notation "unbind" hyp(H) "as" ident(a) ident(w) ident(E) :=
  apply bind_inv_ok in H as (a & w & E & H).

Section More.
Context {L : Libraries}.

Lemma now_after_trip w : now (after_trip w) = now w.
Proof. unfold after_trip. by destruct (faults w). Qed.

Lemma entropy_after_trip w : entropy (after_trip w) = entropy w.
Proof. unfold after_trip. by destruct (faults w). Qed.

Lemma insert_one_eq d w :
  insert_one d w =
    match trip_error w with
    | Some e => (Err e, after_trip w)
    | None =>
        if email_unique w && email_clash d (users w)
        then (Err DuplicateKeyError, after_trip w)
        else (Ok (fresh_oid (users w)),
              set_users (users w ++ [(fresh_oid (users w), d)]) (after_trip w))
    end.
Proof.
  unfold insert_one, bind. rewrite round_trip_eq.
  destruct (trip_error w); [done|].
  by rewrite users_after_trip, email_unique_after_trip.
Qed.

(** ** Reading requests leave the collection alone *)

Lemma preserves_same_store {A} (m : M A) (w : world) :
  preserves (same_store (users w) (email_unique w)) m ->
  users (run m w) = users w /\ email_unique (run m w) = email_unique w.
Proof. intros H. by apply H. Qed.

(** X1. Whatever the store does, [GET /auth/me], [GET /admin/users],
    [get_current_user], [authenticate_user] and [get_documents] leave
    the user collection and its unique index as they were: on every
    path, failures included, they only read. *)
Theorem reading_requests_change_nothing
    (authorization : option token) (tok : token)
    (identifier password : string) (filter_dict : option dict) (limit : nat)
    (w : world) :
  let unchanged w' := users w' = users w /\ email_unique w' = email_unique w in
  unchanged (run (me authorization) w) /\
  unchanged (run (admin_list_users authorization) w) /\
  unchanged (run (get_current_user tok) w) /\
  unchanged (run (authenticate_user identifier password) w) /\
  unchanged (run (get_documents filter_dict limit) w).
Proof.
  intros unchanged. unfold unchanged.
  repeat split; apply preserves_same_store;
    first [ apply preserves_me | apply preserves_admin_list_users
          | apply preserves_get_current_user | apply preserves_authenticate_user
          | apply preserves_get_documents ]; apply _.
Qed.

(** ** The unique index *)

Lemma ensure_indexes_ok w :
  out ensure_indexes w = Ok tt -> emails_unique (run ensure_indexes w).
Proof.
  unfold out, run, ensure_indexes, create_index_email, bind.
  rewrite round_trip_eq. destruct (trip_error w); [done|].
  rewrite users_after_trip.
  destruct (emails_distinct (users w)) eqn:E; [|done].
  intros _. split; [done|]. simpl. by rewrite users_after_trip.
Qed.

(** ** What [register] stores *)

Lemma find_one_email_free e us :
  truthy (head (select {["email" := VStr e]} us)) = false <-> with_email e us = [].
Proof.
  rewrite select_holding. fold (with_email e us).
  destruct (with_email e us) as [|s rest]; simpl; [done|].
  rewrite bool_decide_eq_false_2 by apply as_doc_nonempty. done.
Qed.

Lemma create_document_users data w r w' :
  create_document data w = (r, w') ->
  users w' = users w \/
  (email_unique w && email_clash (stamped data w) (users w) = false /\
   trip_error w = None /\
   users w' = (users w ++ [(fresh_oid (users w), stamped data w)])%list).
Proof.
  unfold create_document.
  rewrite (bind_ok _ _ w (now w) w) by done. cbv zeta. fold (stamped data w).
  unfold bind at 1. rewrite insert_one_eq.
  destruct (trip_error w) eqn:Et.
  { intros [= _ <-]. left. apply users_after_trip. }
  destruct (email_unique w && email_clash (stamped data w) (users w)) eqn:Ec.
  { intros [= _ <-]. left. apply users_after_trip. }
  intros H. right. split; [done|]. split; [done|].
  set (w1 := set_users _ _) in H.
  assert (users w1 = (users w ++ [(fresh_oid (users w), stamped data w)])%list)
    as <- by done.
  change w' with (snd (r, w')). rewrite <- H.
  apply (preserves_same_store _ w1). frame.
Qed.

(** What [register] appends has the email of the request, and that
    email was free. *)
Lemma register_appends_free_email (user_in : UserCreate.t) (w : world) :
  let w' := run (register user_in) w in
  users w' = users w \/
  exists d,
    with_email (UserCreate.email user_in) (users w) = [] /\
    d !! "email" = Some (VStr (UserCreate.email user_in)) /\
    users w' = (users w ++ [(fresh_oid (users w), d)])%list.
Proof.
  intros w'. unfold w', run.
  destruct (register user_in w) as [r w1] eqn:H. cbn [snd]. clear w'.
  unfold register in H.
  unfold bind at 1 in H. rewrite find_one_eq in H.
  destruct (trip_error w) eqn:Et.
  { injection H as _ <-. left. apply users_after_trip. }
  destruct (truthy _) eqn:Etr.
  { injection H as _ <-. left. apply users_after_trip. }
  apply find_one_email_free in Etr.
  unfold bind at 1, get_password_hash at 1 in H.
  destruct (pwd_context_hash _ (UserCreate.password user_in)) as [h|e].
  2:{ injection H as _ <-. left. apply users_after_trip. }
  unfold bind at 1, lift at 1, User in H.
  destruct (email_str (UserCreate.email user_in)).
  2:{ injection H as _ <-. left. apply users_after_trip. }
  unfold bind at 1 in H.
  destruct (create_document _ _) as [[created|e] w2] eqn:Ec.
  2:{ injection H as _ <-.
      apply create_document_users in Ec as [E|(_ & _ & E)]; rewrite E.
      - left. apply users_after_trip.
      - right. eexists. cbn [users set_entropy]. rewrite users_after_trip.
        split; [done|]. split; [|done].
        rewrite stamped_email. by rewrite lookup_insert_eq. }
  assert (users w1 = users w2) as ->.
  { change w1 with (snd (r, w1)). rewrite <- H.
    apply (preserves_same_store _ w2). frame. }
  apply create_document_users in Ec as [E|(_ & _ & E)]; rewrite E.
  - left. apply users_after_trip.
  - right. eexists. cbn [users set_entropy]. rewrite users_after_trip.
    split; [done|]. split; [|done].
    rewrite stamped_email. by rewrite lookup_insert_eq.
Qed.

(** X2. Registration needs no index to keep the emails distinct.  When
    no two stored users share an email, none do after any run of
    requests to [POST /auth/register] served one after the other, with
    or without the unique index and whatever the store, the clock and
    the hasher do in between: [register] looks the email up before it
    inserts, and what it inserts has that email. *)
Theorem register_keeps_emails_distinct (w w' : world) :
  emails_distinct (users w) = true ->
  registrations w w' ->
  emails_distinct (users w') = true.
Proof.
  intros Hd Hr.
  induction Hr as [w|user_in w w' _ IH|fs t n w w' _ IH]; [done| |by apply IH].
  apply IH.
  destruct (register_appends_free_email user_in w)
    as [->|(d & Hfree & He & ->)]; [done|].
  apply emails_distinct_snoc; [done|].
  by apply (email_clash_free _ (UserCreate.email user_in)).
Qed.

(** X3. Whatever the store does, [register] leaves the user collection
    as it was or appends exactly one record, and then the email was
    free, it validated, and the record holds the hasher's output for the
    password (never the password), the role asked for or "student",
    [is_active] true and both timestamps of the call. *)
Theorem register_stores_at_most_one_record
    (user_in : UserCreate.t) (w : world) :
  let w' := run (register user_in) w in
  users w' = users w \/
  exists h,
    with_email (UserCreate.email user_in) (users w) = [] /\
    email_str (UserCreate.email user_in) = true /\
    pwd_context_hash (entropy w) (UserCreate.password user_in) = Ok h /\
    users w' = (users w ++ [(fresh_oid (users w), user_record user_in h w)])%list.
Proof.
  intros w'. unfold w', run.
  destruct (register user_in w) as [r w1] eqn:H. cbn [snd]. clear w'.
  unfold register in H.
  unfold bind at 1 in H. rewrite find_one_eq in H.
  destruct (trip_error w) eqn:Et.
  { injection H as _ <-. left. apply users_after_trip. }
  destruct (truthy _) eqn:Etr.
  { injection H as _ <-. left. apply users_after_trip. }
  apply find_one_email_free in Etr.
  unfold bind at 1, get_password_hash at 1 in H.
  rewrite entropy_after_trip in H.
  destruct (pwd_context_hash (entropy w) (UserCreate.password user_in))
    as [h|e] eqn:Eh.
  2:{ injection H as _ <-. left. apply users_after_trip. }
  unfold bind at 1, lift at 1, User in H.
  destruct (email_str (UserCreate.email user_in)) eqn:Em.
  2:{ injection H as _ <-. left. apply users_after_trip. }
  unfold bind at 1 in H.
  destruct (create_document _ _) as [[created|e] w2] eqn:Ec.
  2:{ injection H as _ <-.
      apply create_document_users in Ec as [E|(_ & _ & E)]; rewrite E.
      - left. apply users_after_trip.
      - right. exists h. cbn [users set_entropy].
        rewrite users_after_trip. unfold user_record, stamped.
        cbn [now set_entropy]. by rewrite now_after_trip. }
  assert (users w1 = users w2) as ->.
  { change w1 with (snd (r, w1)). rewrite <- H.
    apply (preserves_same_store _ w2). frame. }
  apply create_document_users in Ec as [E|(_ & _ & E)]; rewrite E.
  - left. apply users_after_trip.
  - right. exists h. cbn [users set_entropy].
    rewrite users_after_trip. unfold user_record, stamped.
    cbn [now set_entropy]. by rewrite now_after_trip.
Qed.

(** X4. A registration whose record is inserted but whose read-back
    fails (the third round trip to the store) raises the store's
    exception although the user now exists: retrying the same request
    once the store answers again is turned down with "Email already
    registered". *)
Theorem register_lost_response
    (user_in : UserCreate.t) (h : string) (e : exn) (fs : list (option exn))
    (w : world) :
  let w' := run (register user_in) w in
  faults w = None :: None :: Some e :: fs ->
  with_email (UserCreate.email user_in) (users w) = [] ->
  email_str (UserCreate.email user_in) = true ->
  pwd_context_hash (entropy w) (UserCreate.password user_in) = Ok h ->
  out (register user_in) w = Err e /\
  users w' = (users w ++ [(fresh_oid (users w), user_record user_in h w)])%list /\
  register user_in (set_faults [] w') =
    (Err (HTTPException 400 "Email already registered" []), set_faults [] w').
Proof.
  intros w' Hf Hfree Hmail Hhash.
  assert (register user_in w =
            (Err e, set_users
                      (users w ++ [(fresh_oid (users w), user_record user_in h w)])
                      (set_entropy (N.succ (entropy w)) (set_faults fs w))))
    as Hr.
  { unfold register.
    erewrite bind_ok; [|rewrite find_one_eq; unfold trip_error, after_trip;
                        rewrite Hf; reflexivity].
    cbn [users set_faults].
    rewrite (proj2 (find_one_email_free _ _) Hfree).
    erewrite bind_ok; [|unfold get_password_hash; cbn [entropy set_faults];
                        by rewrite Hhash].
    erewrite bind_ok; [|unfold lift, User; by rewrite Hmail].
    erewrite bind_err; [reflexivity|].
    unfold create_document.
    erewrite bind_ok; [|reflexivity].
    cbv zeta.
    erewrite bind_ok.
    2:{ rewrite insert_one_eq.
        lazymatch goal with
        | |- context [trip_error ?W] =>
            change (trip_error W) with (@None exn);
            change (users W) with (users w)
        end.
        rewrite (email_clash_free _ (UserCreate.email user_in));
          [|reflexivity|done].
        rewrite andb_false_r. reflexivity. }
    erewrite bind_err; [reflexivity|].
    rewrite find_one_eq. reflexivity. }
  unfold w', out, run. rewrite Hr. cbn [fst snd users set_users].
  split; [done|]. split; [done|].
  apply register_conflict; [done|]. cbn [users set_users set_faults].
  unfold with_email in *. rewrite holding_app, Hfree.
  assert (field_is "email" (VStr (UserCreate.email user_in))
            (fresh_oid (users w), user_record user_in h w) = true) as Hrec.
  { unfold field_is. by apply bool_decide_eq_true_2. }
  unfold holding. simpl. by rewrite Hrec.
Qed.

(** ** Soundness of authentication *)

Lemma get_user_by_identifier_sound identifier w d w' :
  get_user_by_identifier identifier w = (Ok (Some d), w') ->
  users w' = users w /\
  exists s, s ∈ users w /\ d = as_doc s /\
    (field_is "email" (VStr identifier) s = true \/
     field_is "full_name" (VStr identifier) s = true).
Proof.
  intros H. split.
  { change w' with (snd (Ok (Some d), w')). rewrite <- H.
    apply (preserves_same_store (get_user_by_identifier identifier) w).
    frame. }
  unfold get_user_by_identifier in H. unbind H as user w1 E1.
  rewrite find_one_eq in E1. destruct (trip_error w); [done|].
  injection E1 as <- <-.
  destruct (truthy _) eqn:Et.
  - injection H as H _.
    apply head_select in H as (s & Hs & -> & Hm).
    rewrite matches_field_is in Hm. eauto.
  - rewrite find_one_eq in H. destruct (trip_error _); [done|].
    injection H as H _. rewrite users_after_trip in H.
    apply head_select in H as (s & Hs & -> & Hm).
    rewrite matches_field_is in Hm. eauto.
Qed.

Lemma authenticate_user_sound identifier password u w w' :
  authenticate_user identifier password w = (Ok (Some u), w') ->
  users w' = users w /\
  exists s h, s ∈ users w /\ u = listed s /\
    (field_is "email" (VStr identifier) s = true \/
     field_is "full_name" (VStr identifier) s = true) /\
    get_default (as_doc s) "hashed_password" (VStr "") = VStr h /\
    pwd_context_verify password h = Ok true.
Proof.
  intros H. split.
  { change w' with (snd (Ok (Some u), w')). rewrite <- H.
    apply (preserves_same_store (authenticate_user identifier password) w).
    frame. }
  unfold authenticate_user in H. unbind H as user w1 E1.
  destruct user as [d|]; [|done].
  apply get_user_by_identifier_sound in E1 as (_ & s & Hs & -> & Hid).
  destruct (negb _); [done|].
  unbind H as ok w2 E2. destruct ok; [|done]. simpl in H.
  unbind H as u' w3 E3. injection H as <- <-.
  rewrite pop_id_as_doc in E3. injection E3 as <- <-.
  unfold verify_password in E2.
  destruct (get_default (as_doc s) "hashed_password" (VStr "")) as [h| | | |] eqn:Eh;
    try done.
  unfold lift in E2. injection E2 as E2 _. eauto 10.
Qed.

(** X5. Soundness of [login], in every environment: a token is only
    issued for a stored record that the username names by email or by
    full name and whose stored hash verifies the submitted password;
    the subject of the token is the id of that record. *)
Theorem login_token_only_for_verified_password
    (form_data : Form.t) (tok : token) (w w' : world) :
  login form_data w = (Ok tok, w') ->
  exists s h alg claims signature,
    tok = Jws alg claims signature /\
    s ∈ users w' /\
    claims !! "sub" = Some (VStr (oid_str s.1)) /\
    (field_is "email" (VStr (Form.username form_data)) s = true \/
     field_is "full_name" (VStr (Form.username form_data)) s = true) /\
    get_default (as_doc s) "hashed_password" (VStr "") = VStr h /\
    pwd_context_verify (Form.password form_data) h = Ok true.
Proof.
  intros H. unfold login in H. unbind H as u0 w1 E1.
  unbind H as user w2 E2. destruct user as [u|]; [|done].
  apply authenticate_user_sound in E2 as (Hu & s & h & Hs & -> & Hid & Hh & Hv).
  rewrite listed_truthy in H. simpl in H.
  unbind H as sub w3 E3. unfold item in E3. rewrite listed_id in E3.
  injection E3 as <- <-.
  unfold create_access_token in H. unbind H as t w4 E4.
  injection E4 as <- <-. unfold lift in H.
  destruct (jwt_encode _ _ _) as [tok'|e] eqn:Ej; [|discriminate].
  injection H as <- <-.
  unfold jwt_encode in Ej. destruct (json_object _); [|discriminate].
  injection Ej as <-.
  exists s, h. eexists _, _, _. split; [reflexivity|].
  split; [by rewrite Hu|]. split; [reflexivity|]. done.
Qed.

(** ** The life of a token *)

(** X10. The validity window of a token of [create_access_token]
    issued at [t0], for every time [t]: [jwt.decode] accepts it exactly
    while the clock, in whole seconds, has not passed the second of
    issue plus 86400, the expiry second included and any time before
    the issue as well (there is no [iat] or [nbf] check). *)
Theorem token_valid_through_expiry_second
    (id : string) (role : value) (t0 t : Z) (w : world) :
  json_value role = true ->
  let claims : dict :=
    <["exp" := VInt (timegm t0 + 86400)]> {[ "sub" := VStr id; "role" := role ]} in
  exists tok,
    out (create_access_token {[ "sub" := VStr id; "role" := role ]} None)
      (set_now t0 w) = Ok tok /\
    out (jwt_decode tok SECRET_KEY [ALGORITHM]) (set_now t w) =
      if timegm t0 + 86400 <? timegm t
      then Err (JWTError "Signature has expired.")
      else Ok claims.
Proof.
  intros Hr claims. unfold out at 1, create_access_token.
  rewrite (bind_ok _ _ _ t0 (set_now t0 w)) by done.
  unfold lift. rewrite jwt_encode_claims by done. cbv zeta. cbn [fst].
  eexists. split; [reflexivity|].
  unfold out.
  replace (timegm (t0 + timedelta_minutes ACCESS_TOKEN_EXPIRE_MINUTES))
    with (timegm t0 + 86400) by (symmetry; apply (timegm_add_seconds t0 86400)).
  rewrite jwt_decode_window by done. cbn [fst now set_now].
  by destruct (_ <? _).
Qed.

Lemma jwt_decode_not_genuine tok w :
  ~ genuine tok ->
  exists e, out (jwt_decode tok SECRET_KEY [ALGORITHM]) w = Err e.
Proof.
  intros Hg. unfold out, jwt_decode.
  destruct tok as [s|alg claims sig]; [by eexists|].
  destruct (negb (json_object claims)); [by eexists|].
  destruct (decide (alg = ALGORITHM)) as [->|Ha].
  2:{ rewrite bool_decide_eq_false_2; [by eexists|].
      by intros ->%list_elem_of_singleton. }
  rewrite bool_decide_eq_true_2 by constructor.
  rewrite bool_decide_eq_false_2; [by eexists|].
  intros ->. by apply Hg.
Qed.

(** X11. A bearer string that is not a token under the algorithm of the
    source, signed with its key over these very claims, is answered
    with the 401 by [get_current_user], [GET /auth/me] and
    [GET /admin/users] before any call to the store: the environment,
    the pending store failures included, is untouched. *)
Theorem forged_token_never_reaches_store (tok : token) (w : world) :
  ~ genuine tok ->
  get_current_user tok w = (Err credentials_exception, w) /\
  me (Some tok) w = (Err credentials_exception, w) /\
  admin_list_users (Some tok) w = (Err credentials_exception, w).
Proof.
  intros Hg. destruct (jwt_decode_not_genuine tok w Hg) as [e He].
  assert (get_current_user tok w = (Err credentials_exception, w)) as Hu.
  { unfold get_current_user. erewrite bind_err; [reflexivity|].
    by rewrite token_subject_outcome, He. }
  split; [done|]. split.
  - unfold me. rewrite (bind_ok _ _ w tok w) by done.
    by rewrite (bind_err _ _ _ _ _ Hu).
  - unfold admin_list_users. rewrite (bind_ok _ _ w tok w) by done.
    by rewrite (bind_err _ _ _ _ _ Hu).
Qed.

(** ** Listing *)

(** X12. [get_documents] in every environment: one round trip to the
    store, whose failure it passes on; otherwise the stored documents
    matching the filter ([None] and [{}] match all), in insertion
    order, cut to [limit] unless [limit] is 0, each with [id] (the hex
    string) in place of [_id].  Popping [_id] never raises. *)
Theorem get_documents_result (filter_dict : option dict) (limit : nat) (w : world) :
  get_documents filter_dict limit w =
    (match trip_error w with
     | Some e => Err e
     | None =>
         Ok (listed <$>
               limited limit
                 (List.filter
                    (fun s => matches (default ∅ filter_dict) (as_doc s))
                    (users w)))
     end, after_trip w).
Proof.
  unfold get_documents.
  assert ((match filter_dict with
           | Some f => if bool_decide (f = ∅) then ∅ else f
           | None => ∅
           end) = default ∅ filter_dict) as ->.
  { destruct filter_dict as [f|]; [|done]. simpl. by case_bool_decide. }
  unfold bind. rewrite find_limit_eq.
  destruct (trip_error w); [done|]. cbv zeta. unfold select, limited.
  destruct (limit =? 0)%nat.
  - apply pop_ids_listed.
  - rewrite <- fmap_take. apply pop_ids_listed.
Qed.

End More.

(** * The course collection *)

Section CourseFacts.
Context {L : Libraries}.

Import Courses.

Lemma bind_s_ok {A B} (m : MS A) (k : A -> MS B) s a s' :
  m s = (Ok a, s') -> bind_s m k s = k a s'.
Proof. unfold bind_s. by intros ->. Qed.

Lemma bind_s_err {A B} (m : MS A) (k : A -> MS B) s e s' :
  m s = (Err e, s') -> bind_s m k s = (Err e, s').
Proof. unfold bind_s. by intros ->. Qed.

Lemma set_core_core s : set_core (core s) s = s.
Proof. by destruct s. Qed.

Lemma in_core_eq {A} (m : M A) s :
  in_core m s = (out m (core s), set_core (run m (core s)) s).
Proof. unfold in_core, out, run. by destruct (m (core s)). Qed.

Lemma in_core_unchanged {A} (m : M A) s r :
  m (core s) = (r, core s) -> in_core m s = (r, s).
Proof. intros H. unfold in_core. rewrite H. by rewrite set_core_core. Qed.

Lemma round_trip_s s : faults (core s) = [] -> in_core round_trip s = (Ok tt, s).
Proof. intros H. apply in_core_unchanged. by apply round_trip_ok. Qed.

Lemma utcnow_s s : in_core utcnow s = (Ok (now (core s)), s).
Proof. by apply in_core_unchanged. Qed.

(** ** Slices *)

Lemma take_min_length {A} (n : nat) (l : list A) :
  take (n `min` List.length l) l = take n l.
Proof.
  destruct (decide (n <= List.length l)%nat).
  - by rewrite Nat.min_l.
  - rewrite Nat.min_r by lia. rewrite !take_ge; [done|lia|lia].
Qed.

Lemma py_slice_from {A} (l : list A) (skip : Z) (n : nat) :
  0 <= skip ->
  py_slice l skip (skip + Z.of_nat n) = take n (drop (Z.to_nat skip) l).
Proof.
  intros Hs. unfold py_slice.
  rewrite (proj2 (Z.ltb_ge skip 0)) by done.
  rewrite (proj2 (Z.ltb_ge (skip + Z.of_nat n) 0)) by lia.
  destruct (decide (skip <= Z.of_nat (List.length l))) as [Hle|Hgt].
  - rewrite (Z.min_l skip) by done.
    rewrite <- (take_min_length n). rewrite length_drop.
    f_equal. lia.
  - rewrite (Z.min_r skip) by lia. rewrite (Z.min_r (skip + _)) by lia.
    rewrite Z.sub_diag. rewrite Nat2Z.id. simpl.
    rewrite (drop_ge l (Z.to_nat skip)) by lia. by rewrite take_nil.
Qed.

(** ** Documents *)

Lemma course_as_doc_id (s : stored) : as_doc s !! "_id" = Some (FOid s.1).
Proof. unfold as_doc. by rewrite lookup_insert_eq. Qed.

Lemma course_as_doc_nonempty (s : stored) : as_doc s ≠ ∅.
Proof. apply insert_non_empty. Qed.

Lemma course_pop_id_as_doc (s : stored) (x : site) :
  pop_id (as_doc s) x = (Ok (listed s), x).
Proof. unfold pop_id. by rewrite course_as_doc_id. Qed.

Lemma course_pop_ids_listed (l : list stored) (x : site) :
  pop_ids (as_doc <$> l) x = (Ok (listed <$> l), x).
Proof.
  induction l as [|s l IH]; [done|]. simpl.
  rewrite (bind_s_ok _ _ _ _ _ (course_pop_id_as_doc s x)).
  by rewrite (bind_s_ok _ _ _ _ _ IH).
Qed.

Lemma course_select_all (l : list stored) : select ∅ l = as_doc <$> l.
Proof.
  unfold select. f_equal. induction l as [|s l IH]; [done|]. simpl.
  unfold matches at 1.
  rewrite bool_decide_eq_true_2 by apply map_empty_subseteq.
  by rewrite IH.
Qed.

Lemma matches_id (o : N) (s : stored) :
  matches {["_id" := FOid o]} (as_doc s) = bool_decide (s.1 = o).
Proof.
  unfold matches. apply bool_decide_ext.
  rewrite map_singleton_subseteq_l, course_as_doc_id. split; [by intros [= ->]|by intros ->].
Qed.

Lemma select_id (o : N) (l : list stored) :
  select {["_id" := FOid o]} l =
    as_doc <$> List.filter (fun s : stored => bool_decide (s.1 = o)) l.
Proof.
  unfold select. f_equal. induction l as [|s l IH]; [done|]. simpl.
  by rewrite matches_id, IH.
Qed.

Lemma filter_id_absent (o : N) (l : list stored) :
  o ∉ (fst <$> l) ->
  List.filter (fun s : stored => bool_decide (s.1 = o)) l = [].
Proof.
  induction l as [|s l IH]; [done|]. simpl.
  intros [Hs Hl]%not_elem_of_cons.
  rewrite bool_decide_eq_false_2 by done. by apply IH.
Qed.

Lemma filter_id_unique (s : stored) (l : list stored) :
  NoDup (fst <$> l) -> s ∈ l ->
  List.filter (fun s' : stored => bool_decide (s'.1 = s.1)) l = [s].
Proof.
  induction l as [|s' l IH]; simpl.
  - intros _ H. by apply elem_of_nil in H.
  - intros [Hnotin Hnd]%NoDup_cons [->|Hin]%elem_of_cons.
    + rewrite bool_decide_eq_true_2 by done. f_equal.
      by apply filter_id_absent.
    + rewrite bool_decide_eq_false_2; [by apply IH|].
      intros E. apply Hnotin. rewrite E. apply list_elem_of_fmap. eauto.
Qed.

Lemma fresh_id_above (l : list stored) (s : stored) :
  s ∈ l -> (s.1 < fresh_id l)%N.
Proof.
  unfold fresh_id. induction l as [|s' l IH]; simpl.
  - intros H. by apply elem_of_nil in H.
  - intros [->|H]%elem_of_cons; [lia|]. apply IH in H. lia.
Qed.

Lemma fresh_id_notin (l : list stored) : fresh_id l ∉ (fst <$> l).
Proof.
  intros (s & E & Hs)%list_elem_of_fmap. apply fresh_id_above in Hs. lia.
Qed.

Lemma has_id_true (o : N) (l : list stored) :
  has_id o l = true <-> o ∈ (fst <$> l).
Proof.
  unfold has_id. rewrite existsb_exists, list_elem_of_fmap. split.
  - intros (s & Hs%list_elem_of_In & E%bool_decide_eq_true_1). eauto.
  - intros (s & -> & Hs). exists s. split; [by apply list_elem_of_In|].
    by apply bool_decide_eq_true_2.
Qed.

Lemma has_id_false (o : N) (l : list stored) :
  has_id o l = false <-> o ∉ (fst <$> l).
Proof.
  rewrite <- has_id_true. destruct (has_id o l); split; try done.
Qed.

(** With distinct ids, [$set] touches the one document with the id and
    deleting removes it. *)
Lemma set_first_fmap (o : N) (u : document) (l : list stored) :
  NoDup (fst <$> l) ->
  set_first o u l =
    (fun s : stored => if bool_decide (s.1 = o) then (s.1, u ∪ s.2) else s) <$> l.
Proof.
  induction l as [|s l IH]; [done|]. simpl.
  intros [Hnotin Hnd]%NoDup_cons. case_bool_decide as E.
  - f_equal. subst o. clear IH. induction l as [|s' l IH]; [done|]. simpl.
    apply not_elem_of_cons in Hnotin as [? ?]. apply NoDup_cons in Hnd as [? ?].
    rewrite bool_decide_eq_false_2 by done. f_equal. by apply IH.
  - f_equal. by apply IH.
Qed.

Lemma delete_first_filter (o : N) (l : list stored) :
  NoDup (fst <$> l) ->
  delete_first o l = List.filter (fun s : stored => negb (bool_decide (s.1 = o))) l.
Proof.
  induction l as [|s l IH]; [done|]. simpl.
  intros [Hnotin Hnd]%NoDup_cons. case_bool_decide as E; simpl.
  - subst o. clear IH. induction l as [|s' l IH]; [done|]. simpl.
    apply not_elem_of_cons in Hnotin as [? ?]. apply NoDup_cons in Hnd as [? ?].
    rewrite bool_decide_eq_false_2 by done. simpl. f_equal. by apply IH.
  - f_equal. by apply IH.
Qed.

Lemma set_first_ids (o : N) (u : document) (l : list stored) :
  fst <$> set_first o u l = fst <$> l.
Proof.
  induction l as [|s l IH]; [done|]. cbn [set_first].
  case_bool_decide; [done|]. rewrite !fmap_cons. by rewrite IH.
Qed.

(** ** The driver calls, with the store answering *)

Lemma find_one_s filter s :
  faults (core s) = [] ->
  find_one filter s = (Ok (head (select filter (course s))), s).
Proof. intros H. unfold find_one. by rewrite (bind_s_ok _ _ _ _ _ (round_trip_s s H)). Qed.

Lemma find_limit_s filter limit s :
  faults (core s) = [] ->
  find_limit filter limit s =
    (Ok (limited limit (select filter (course s))), s).
Proof. intros H. unfold find_limit. by rewrite (bind_s_ok _ _ _ _ _ (round_trip_s s H)). Qed.

Lemma insert_one_s d s :
  faults (core s) = [] ->
  insert_one d s =
    (Ok (fresh_id (course s)),
     set_course (course s ++ [(fresh_id (course s), bson <$> d)]) s).
Proof. intros H. unfold insert_one. by rewrite (bind_s_ok _ _ _ _ _ (round_trip_s s H)). Qed.

Lemma update_one_s o u s :
  faults (core s) = [] ->
  update_one o u s =
    if has_id o (course s)
    then (Ok 1%nat, set_course (set_first o (bson <$> u) (course s)) s)
    else (Ok 0%nat, s).
Proof. intros H. unfold update_one. by rewrite (bind_s_ok _ _ _ _ _ (round_trip_s s H)). Qed.

Lemma delete_one_s o s :
  faults (core s) = [] ->
  delete_one o s =
    if has_id o (course s)
    then (Ok 1%nat, set_course (delete_first o (course s)) s)
    else (Ok 0%nat, s).
Proof. intros H. unfold delete_one. by rewrite (bind_s_ok _ _ _ _ _ (round_trip_s s H)). Qed.

Lemma get_documents_s limit s :
  faults (core s) = [] ->
  get_documents (Some ∅) limit s = (Ok (listed <$> limited limit (course s)), s).
Proof.
  intros H. unfold get_documents.
  rewrite bool_decide_eq_true_2 by done.
  rewrite (bind_s_ok _ _ _ _ _ (find_limit_s _ _ _ H)).
  rewrite course_select_all. unfold limited. destruct (limit =? 0)%nat.
  - apply course_pop_ids_listed.
  - rewrite <- fmap_take. apply course_pop_ids_listed.
Qed.

(** ** Listing courses *)

(** The slice of [list_courses], taken from what the cursor returned. *)
Lemma list_courses_slice (skip : Z) (limit : nat) (s : site) :
  faults (core s) = [] ->
  list_courses skip limit s =
    (Ok (py_slice (listed <$> limited limit (course s)) skip
           (skip + Z.of_nat limit)), s).
Proof.
  intros H. unfold list_courses.
  by rewrite (bind_s_ok _ _ _ _ _ (get_documents_s _ _ H)).
Qed.

(** X13. [GET /courses] with the store answering and [skip >= 0]: the
    cursor is cut to [limit] documents first and the slice
    [docs[skip: skip + limit]] is taken from that, so the answer is the
    courses [skip .. limit - 1] of the collection (all courses, drafts
    included; nothing at all for [limit = 0]). *)
Theorem list_courses_window (skip : Z) (limit : nat) (s : site) :
  faults (core s) = [] ->
  0 <= skip ->
  list_courses skip limit s =
    (Ok (listed <$> take limit (drop (Z.to_nat skip) (limited limit (course s)))),
     s).
Proof.
  intros H Hs. rewrite list_courses_slice by done.
  rewrite py_slice_from by done.
  by rewrite fmap_take, fmap_drop.
Qed.

(** X14. Paging does not reach beyond the first page: for
    [skip >= limit] the answer of [GET /courses] is the empty list,
    however many courses are stored. *)
Theorem list_courses_later_pages_empty (skip : Z) (limit : nat) (s : site) :
  faults (core s) = [] ->
  Z.of_nat limit <= skip ->
  list_courses skip limit s = (Ok [], s).
Proof.
  intros H Hs. rewrite list_courses_slice by done.
  rewrite py_slice_from by lia.
  unfold limited. destruct (limit =? 0)%nat eqn:E.
  - apply Nat.eqb_eq in E as ->. by rewrite take_0.
  - rewrite drop_ge; [by rewrite take_nil|].
    rewrite length_fmap, length_take. lia.
Qed.

End CourseFacts.

(** * The course routes *)

Section CourseRoutes.
Context {L : Libraries}.

Import Courses.

(** ** The admin dependency *)

Lemma admin_of_eq authorization s :
  admin_of authorization s =
    (out (let! tok := oauth2_scheme authorization in current_admin tok) (core s),
     set_core
       (run (let! tok := oauth2_scheme authorization in current_admin tok) (core s))
       s).
Proof.
  unfold admin_of, bind_s. rewrite in_core_eq.
  destruct authorization as [tok|]; [|done].
  cbn [oauth2_scheme out run ret fst snd]. rewrite set_core_core.
  rewrite in_core_eq. unfold out, run, bind, ret.
  by destruct (current_admin tok (core s)) as [[a|e] w].
Qed.

Lemma admin_of_course authorization s r s' :
  admin_of authorization s = (r, s') -> course s' = course s.
Proof. rewrite admin_of_eq. by intros [= _ <-]. Qed.

(** The dependency looks at the environment of the user routes only. *)
Lemma admin_of_set_course authorization cs s admin :
  admin_of authorization s = (Ok admin, s) ->
  admin_of authorization (set_course cs s) = (Ok admin, set_course cs s).
Proof.
  rewrite !admin_of_eq. cbn [core set_course].
  intros H. injection H as Ho Hs. rewrite Ho. f_equal.
  apply (f_equal core) in Hs. cbn [core set_core] in Hs. rewrite Hs.
  by destruct s.
Qed.

(** X15. When the admin dependency fails (no token, a bad token, a user
    who is not an admin, a store failure while loading the user),
    [create_course], [update_course] and [delete_course] fail with the
    same exception and the course collection is as it was. *)
Theorem course_writes_need_admin
    (authorization : option token) (course_id : string) (body : Course.t)
    (update : CourseUpdate.t) (e : exn) (s : site) :
  out_s (admin_of authorization) s = Err e ->
  let refused (m : MS document) :=
    out_s m s = Err e /\ course (run_s m s) = course s in
  refused (create_course authorization body) /\
  refused (update_course authorization course_id update) /\
  refused (delete_course authorization course_id).
Proof.
  unfold out_s, run_s. destruct (admin_of authorization s) as [r s'] eqn:E.
  cbn [fst]. intros ->. apply admin_of_course in E as Hc.
  unfold create_course, update_course, delete_course.
  rewrite !(bind_s_err _ _ _ _ _ E). by cbn [fst snd].
Qed.

(** ** Updates that supply nothing *)

Lemma supplied_no_update : supplied no_update = ∅.
Proof. apply (bool_decide_unpack _). vm_compute. exact I. Qed.

(** X16. Once the admin dependency has passed, an update that supplies
    no field returns [{"updated": False}] without reading the clock,
    calling the store or even parsing the course id: this also holds
    for an id that is malformed or names no course. *)
Theorem update_course_empty_body
    (authorization : option token) (course_id : string) (admin : dict)
    (s s' : site) :
  admin_of authorization s = (Ok admin, s') ->
  update_course authorization course_id no_update s =
    (Ok {[ "updated" := FBool false ]}, s').
Proof.
  intros Ha. unfold update_course. rewrite (bind_s_ok _ _ _ _ _ Ha).
  fold (supplied no_update). rewrite supplied_no_update.
  by rewrite bool_decide_eq_true_2.
Qed.

(** ** What the store keeps of a course *)

Lemma bson_timeless (d : document) :
  map_Forall (fun _ v => timeless v) d -> bson <$> d = d.
Proof.
  intros H. apply map_eq. intros k. rewrite lookup_fmap.
  destruct (d !! k) as [v|] eqn:E; [|done]. simpl. f_equal.
  apply H in E. by destruct v.
Qed.

Lemma timeless_from_option {A} (f : A -> field) (o : option A) :
  (forall a, timeless (f a)) -> timeless (from_option f FNone o).
Proof. intros H. destruct o; [apply H|done]. Qed.

Lemma timeless_course (c : Course.t) :
  map_Forall (fun _ v => timeless v) (Course.model_dump c).
Proof.
  unfold Course.model_dump.
  do 7 (apply map_Forall_insert_2; [first [exact I|by apply timeless_from_option]|]).
  apply map_Forall_empty.
Qed.

Lemma timeless_update (c : CourseUpdate.t) :
  map_Forall (fun _ v => timeless v) (CourseUpdate.model_dump c).
Proof.
  unfold CourseUpdate.model_dump.
  do 7 (apply map_Forall_insert_2; [by apply timeless_from_option|]).
  apply map_Forall_empty.
Qed.

Lemma timeless_supplied (c : CourseUpdate.t) :
  map_Forall (fun _ v => timeless v) (supplied c).
Proof.
  intros k v Hv. unfold supplied in Hv.
  apply map_lookup_filter_Some_1_1 in Hv.
  by apply (timeless_update c k v).
Qed.

Lemma bson_stamped (d : document) (t : Z) :
  map_Forall (fun _ v => timeless v) d -> bson <$> stamped_at d t = stamped_at d t.
Proof.
  intros H. apply bson_timeless. unfold stamped_at.
  by do 2 (apply map_Forall_insert_2; [exact I|]).
Qed.

(** ** Creating a course *)

Lemma create_document_s (data : document) (s : site) :
  faults (core s) = [] ->
  map_Forall (fun _ v => timeless v) data ->
  let c := (fresh_id (course s), stamped_at data (now (core s))) in
  create_document data s = (Ok (listed c), set_course (course s ++ [c]) s).
Proof.
  intros H Hd c. unfold create_document.
  rewrite (bind_s_ok _ _ _ _ _ (utcnow_s s)). cbv zeta.
  fold (stamped_at data (now (core s))).
  rewrite (bind_s_ok _ _ _ _ _ (insert_one_s _ _ H)).
  rewrite bson_stamped by done. fold c.
  rewrite (bind_s_ok _ _ _ _ _ (find_one_s _ (set_course _ s) H)).
  cbn [course set_course]. rewrite select_id.
  rewrite List.filter_app, filter_id_absent by apply fresh_id_notin.
  simpl. rewrite bool_decide_eq_true_2 by done. simpl.
  rewrite bool_decide_eq_false_2 by apply course_as_doc_nonempty.
  apply course_pop_id_as_doc.
Qed.

(** X17. For an admin, with the store answering, [create_course]
    appends the submitted fields with both timestamps under a fresh id
    and returns that document with [id] in place of [_id]; from then on
    [GET /courses] lists it to anybody, whether or not it is
    published. *)
Theorem create_course_stores_and_lists
    (authorization : option token) (admin : dict) (body : Course.t)
    (s : site) :
  faults (core s) = [] ->
  admin_of authorization s = (Ok admin, s) ->
  let c := (fresh_id (course s),
            stamped_at (Course.model_dump body) (now (core s))) in
  let s' := set_course (course s ++ [c]) s in
  create_course authorization body s = (Ok (listed c), s') /\
  forall limit : nat,
    (List.length (course s) < limit)%nat ->
    list_courses 0 limit s' = (Ok ((listed <$> course s) ++ [listed c])%list, s').
Proof.
  intros H Ha c s'. split.
  - unfold create_course. rewrite (bind_s_ok _ _ _ _ _ Ha).
    apply create_document_s; [done|apply timeless_course].
  - intros limit Hl. rewrite list_courses_slice by done.
    rewrite py_slice_from by done. rewrite <- fmap_drop, <- fmap_take.
    cbn [course set_course s']. change (Z.to_nat 0) with 0%nat. rewrite drop_0.
    unfold limited. destruct (limit =? 0)%nat eqn:E.
    { apply Nat.eqb_eq in E. lia. }
    rewrite take_take, Nat.min_id, take_ge by (rewrite length_app; simpl; lia).
    by rewrite fmap_app.
Qed.

(** ** Updating a course *)

Lemma supplied_stamped_timeless (upd : CourseUpdate.t) (t : string) :
  bson <$> <["updated_at" := FStr t]> (supplied upd) =
    <["updated_at" := FStr t]> (supplied upd).
Proof.
  apply bson_timeless. apply map_Forall_insert_2; [done|].
  apply timeless_supplied.
Qed.

Lemma elem_of_ids (c : stored) (l : list stored) : c ∈ l -> c.1 ∈ (fst <$> l).
Proof. intros H. apply list_elem_of_fmap. eauto. Qed.

Lemma filter_id_set_first (c : stored) (u : document) (l : list stored) :
  NoDup (fst <$> l) -> c ∈ l ->
  List.filter (fun s' : stored => bool_decide (s'.1 = c.1)) (set_first c.1 u l)
    = [(c.1, u ∪ c.2)].
Proof.
  intros Hnd Hc.
  apply (filter_id_unique (c.1, u ∪ c.2)).
  - by rewrite set_first_ids.
  - rewrite set_first_fmap by done. apply list_elem_of_fmap.
    exists c. by rewrite bool_decide_eq_true_2.
Qed.

(** X18. For an admin, with the store answering and the ids of the
    collection distinct, a non-empty update of a stored course sets the
    supplied fields ([False] and [[]] included) and [updated_at], keeps
    every other field of the course, leaves all other courses as they
    were, and returns the updated document. *)
Theorem update_course_sets_supplied_fields
    (authorization : option token) (admin : dict) (course_id : string)
    (c : stored) (upd : CourseUpdate.t) (s : site) :
  faults (core s) = [] ->
  admin_of authorization s = (Ok admin, s) ->
  NoDup (fst <$> course s) ->
  ObjectId course_id = Ok c.1 ->
  c ∈ course s ->
  supplied upd ≠ ∅ ->
  let u := <["updated_at" := FStr (isoformat (now (core s)))]> (supplied upd) in
  update_course authorization course_id upd s =
    (Ok (listed (c.1, u ∪ c.2)),
     set_course
       ((fun c' : stored =>
           if bool_decide (c'.1 = c.1) then (c'.1, u ∪ c'.2) else c')
          <$> course s) s).
Proof.
  intros H Ha Hnd Ho Hc Hu u. unfold update_course.
  rewrite (bind_s_ok _ _ _ _ _ Ha). fold (supplied upd).
  rewrite bool_decide_eq_false_2 by done.
  rewrite (bind_s_ok _ _ _ _ _ (utcnow_s s)). cbv zeta. fold u.
  unfold lift_s at 1. rewrite Ho.
  rewrite (bind_s_ok _ _ s c.1 s) by done.
  unfold bind_s at 1. rewrite update_one_s by done.
  rewrite (proj2 (has_id_true _ _) (elem_of_ids _ _ Hc)).
  unfold u at 1. rewrite supplied_stamped_timeless. fold u.
  cbv beta iota. cbn [Nat.eqb].
  rewrite (bind_s_ok _ _ _ c.1 _) by done.
  rewrite (bind_s_ok _ _ _ _ _ (find_one_s _ (set_course _ s) H)).
  cbn [course set_course]. rewrite select_id, filter_id_set_first by done.
  cbn [fmap list_fmap head]. rewrite course_pop_id_as_doc.
  by rewrite set_first_fmap.
Qed.

(** X19. For an admin, with the store answering, a non-empty update and
    a deletion of a well-formed id that no course has raise the 404
    "Course not found" and change nothing. *)
Theorem unknown_course_not_found
    (authorization : option token) (admin : dict) (course_id : string)
    (o : N) (upd : CourseUpdate.t) (s : site) :
  faults (core s) = [] ->
  admin_of authorization s = (Ok admin, s) ->
  ObjectId course_id = Ok o ->
  o ∉ (fst <$> course s) ->
  supplied upd ≠ ∅ ->
  update_course authorization course_id upd s = (Err not_found, s) /\
  delete_course authorization course_id s = (Err not_found, s).
Proof.
  intros H Ha Ho Hc Hu. apply has_id_false in Hc. split.
  - unfold update_course.
    rewrite (bind_s_ok _ _ _ _ _ Ha). fold (supplied upd).
    rewrite bool_decide_eq_false_2 by done.
    rewrite (bind_s_ok _ _ _ _ _ (utcnow_s s)). cbv zeta.
    unfold lift_s at 1. rewrite Ho.
    rewrite (bind_s_ok _ _ s o s) by done.
    unfold bind_s at 1. rewrite update_one_s by done.
    by rewrite Hc.
  - unfold delete_course.
    rewrite (bind_s_ok _ _ _ _ _ Ha).
    unfold lift_s at 1. rewrite Ho.
    rewrite (bind_s_ok _ _ s o s) by done.
    unfold bind_s at 1. rewrite delete_one_s by done.
    by rewrite Hc.
Qed.

(** X20. A course id that is not 24 hexadecimal digits makes
    [delete_course], and [update_course] with a non-empty body, fail
    with bson's [InvalidId], which no handler turns into an HTTP error:
    the 404 is reserved for well-formed ids. *)
Theorem malformed_course_id_escapes
    (authorization : option token) (admin : dict) (course_id : string)
    (upd : CourseUpdate.t) (s s' : site) :
  admin_of authorization s = (Ok admin, s') ->
  ObjectId course_id = Err InvalidId ->
  supplied upd ≠ ∅ ->
  update_course authorization course_id upd s = (Err InvalidId, s') /\
  delete_course authorization course_id s = (Err InvalidId, s').
Proof.
  intros Ha Ho Hu. split.
  - unfold update_course.
    rewrite (bind_s_ok _ _ _ _ _ Ha). fold (supplied upd).
    rewrite bool_decide_eq_false_2 by done.
    rewrite (bind_s_ok _ _ _ _ _ (utcnow_s s')). cbv zeta.
    unfold lift_s at 1. rewrite Ho. done.
  - unfold delete_course.
    rewrite (bind_s_ok _ _ _ _ _ Ha).
    unfold lift_s at 1. rewrite Ho. done.
Qed.

(** X21. For an admin, with the store answering and the ids distinct,
    [delete_course] of a stored course returns [{"deleted": True}] and
    removes that course and no other; deleting the same id again
    raises the 404. *)
Theorem delete_course_removes_it
    (authorization : option token) (admin : dict) (course_id : string)
    (c : stored) (s : site) :
  faults (core s) = [] ->
  admin_of authorization s = (Ok admin, s) ->
  NoDup (fst <$> course s) ->
  ObjectId course_id = Ok c.1 ->
  c ∈ course s ->
  let s' :=
    set_course
      (List.filter (fun c' : stored => negb (bool_decide (c'.1 = c.1))) (course s))
      s in
  delete_course authorization course_id s = (Ok {[ "deleted" := FBool true ]}, s') /\
  delete_course authorization course_id s' = (Err not_found, s').
Proof.
  intros H Ha Hnd Ho Hc s'.
  assert (delete_course authorization course_id s
          = (Ok {[ "deleted" := FBool true ]}, s')) as Hd.
  { unfold delete_course.
    rewrite (bind_s_ok _ _ _ _ _ Ha).
    unfold lift_s at 1. rewrite Ho.
    rewrite (bind_s_ok _ _ s c.1 s) by done.
    unfold bind_s at 1. rewrite delete_one_s by done.
    rewrite (proj2 (has_id_true _ _) (elem_of_ids _ _ Hc)).
    cbv beta iota. cbn [Nat.eqb]. unfold ret_s, s'.
    by rewrite delete_first_filter. }
  split; [done|].
  unfold delete_course.
  rewrite (bind_s_ok _ _ s' _ s' (admin_of_set_course _ _ _ _ Ha)).
  unfold lift_s at 1. rewrite Ho.
  rewrite (bind_s_ok _ _ s' c.1 s') by done.
  unfold bind_s at 1. rewrite (delete_one_s _ s' H).
  assert (has_id c.1 (course s') = false) as ->; [|done].
  apply has_id_false. cbn [course set_course s'].
  intros (c' & E & Hin)%list_elem_of_fmap.
  apply list_elem_of_In, filter_In in Hin as [_ Hne].
  rewrite bool_decide_eq_true_2 in Hne by done. done.
Qed.

End CourseRoutes.

(** * Invariants of the service *)

Section Keeping.
Context {L : Libraries}.

Import Courses.

Lemma keeps_ret {A} P (a : A) : keeps P (ret_s a).
Proof. by intros s. Qed.

Lemma keeps_raise {A} P e : keeps P (@raise_s A e).
Proof. by intros s. Qed.

Lemma keeps_lift {A} P (r : result A) : keeps P (lift_s r).
Proof. by intros s. Qed.

Lemma keeps_bind {A B} P (m : MS A) (k : A -> MS B) :
  keeps P m -> (forall a, keeps P (k a)) -> keeps P (bind_s m k).
Proof.
  intros Hm Hk s Hs. specialize (Hm s Hs). unfold run_s, bind_s in *.
  destruct (m s) as [[a|e] s']; [by apply Hk | done].
Qed.

Lemma keeps_try_except {A} P (body : MS A) catches handler :
  keeps P body -> (forall e, keeps P (handler e)) ->
  keeps P (try_except_s body catches handler).
Proof.
  intros Hm Hk s Hs. specialize (Hm s Hs). unfold run_s, try_except_s in *.
  destruct (body s) as [[a|e] s']; [done|].
  destruct (catches e); [by apply Hk | done].
Qed.

Lemma keeps_pop_id P d : keeps P (pop_id d).
Proof. unfold pop_id. destruct (d !! "_id"); [apply keeps_ret | apply keeps_raise]. Qed.

Lemma keeps_pop_ids P docs : keeps P (pop_ids docs).
Proof.
  induction docs as [|d docs IH]; simpl; [apply keeps_ret|].
  apply keeps_bind; [apply keeps_pop_id|]. intros d'.
  apply keeps_bind; [done|]. intros rest. apply keeps_ret.
Qed.

(** *** The unique index *)

Lemma users_unique_in_core {A} (m : M A) :
  preserves emails_unique m -> keeps users_unique (in_core m).
Proof.
  intros Hm s Hs. unfold users_unique, run_s. rewrite in_core_eq. by apply Hm.
Qed.

Lemma users_unique_store_call {A} (f : site -> result A * site) :
  (forall s, core (f s).2 = core s) ->
  keeps users_unique (run* in_core round_trip in f).
Proof.
  intros Hf s Hs. unfold users_unique, run_s, bind_s in *.
  rewrite in_core_eq. unfold out, run. rewrite round_trip_eq.
  destruct (trip_error (core s)); cbn [fst snd core set_core].
  - by apply (after_trip_property emails_unique).
  - rewrite Hf. by apply (after_trip_property emails_unique).
Qed.

Ltac store_call :=
  apply users_unique_store_call; intros ?; cbv zeta; repeat case_match; done.

Lemma users_unique_find_one filter : keeps users_unique (find_one filter).
Proof. store_call. Qed.
Lemma users_unique_find_limit filter limit :
  keeps users_unique (find_limit filter limit).
Proof. store_call. Qed.
Lemma users_unique_insert_one d : keeps users_unique (insert_one d).
Proof. store_call. Qed.
Lemma users_unique_health_insert_one d : keeps users_unique (health_insert_one d).
Proof. store_call. Qed.
Lemma users_unique_update_one o u : keeps users_unique (update_one o u).
Proof. store_call. Qed.
Lemma users_unique_delete_one o : keeps users_unique (delete_one o).
Proof. store_call. Qed.
Lemma users_unique_create_index name : keeps users_unique (create_index name).
Proof. store_call. Qed.

(** *** The ids of the courses *)

Lemma course_ids_in_core {A} (m : M A) : keeps course_ids_distinct (in_core m).
Proof. intros s Hs. unfold course_ids_distinct, run_s. by rewrite in_core_eq. Qed.

Lemma course_ids_store_call {A} (f : site -> result A * site) :
  (forall s, course_ids_distinct s -> course_ids_distinct (f s).2) ->
  keeps course_ids_distinct (run* in_core round_trip in f).
Proof.
  intros Hf s Hs. unfold run_s, bind_s.
  rewrite in_core_eq. destruct (out round_trip (core s)); cbn [snd]; [|done].
  by apply Hf.
Qed.

Lemma delete_first_sublist (o : N) (l : list stored) :
  delete_first o l `sublist_of` l.
Proof.
  induction l as [|c l IH]; [done|]. cbn [delete_first].
  case_bool_decide; [by apply sublist_cons|by apply sublist_skip].
Qed.

Lemma NoDup_delete_first (o : N) (l : list stored) :
  NoDup (fst <$> l) -> NoDup (fst <$> delete_first o l).
Proof.
  intros H. eapply (sublist_NoDup _ (fst <$> l)); [exact H|].
  apply fmap_sublist, delete_first_sublist.
Qed.

Lemma course_ids_find_one filter : keeps course_ids_distinct (find_one filter).
Proof. by apply course_ids_store_call. Qed.
Lemma course_ids_find_limit filter limit :
  keeps course_ids_distinct (find_limit filter limit).
Proof. by apply course_ids_store_call. Qed.
Lemma course_ids_insert_one d : keeps course_ids_distinct (insert_one d).
Proof.
  apply course_ids_store_call. intros s Hs. unfold course_ids_distinct in *.
  cbn [snd course set_course]. rewrite fmap_app. apply NoDup_app.
  split; [done|]. split; [|apply NoDup_singleton].
  intros o Ho [->|H]%elem_of_cons; [by apply fresh_id_notin in Ho|].
  by apply elem_of_nil in H.
Qed.
Lemma course_ids_health_insert_one d :
  keeps course_ids_distinct (health_insert_one d).
Proof. by apply course_ids_store_call. Qed.
Lemma course_ids_update_one o u : keeps course_ids_distinct (update_one o u).
Proof.
  apply course_ids_store_call. intros s Hs. unfold course_ids_distinct in *.
  case_match; [|done]. cbn [snd course set_course]. by rewrite set_first_ids.
Qed.
Lemma course_ids_delete_one o : keeps course_ids_distinct (delete_one o).
Proof.
  apply course_ids_store_call. intros s Hs. unfold course_ids_distinct in *.
  case_match; [|done]. cbn [snd course set_course]. by apply NoDup_delete_first.
Qed.
(** *** Every request *)

Section Requests.
Context (exn_str : exn -> string).


Lemma preserves_current_admin P `{!StoreProperty P} tok :
  preserves P (current_admin tok).
Proof. unfold current_admin. frame. Qed.

Lemma users_unique_admin_of authorization :
  keeps users_unique (admin_of authorization).
Proof.
  unfold admin_of. apply keeps_bind.
  - apply users_unique_in_core. frame.
  - intros tok. apply users_unique_in_core, preserves_current_admin, _.
Qed.

Lemma course_ids_admin_of authorization :
  keeps course_ids_distinct (admin_of authorization).
Proof.
  unfold admin_of.
  apply keeps_bind; [|intros ?]; apply course_ids_in_core.
Qed.

Lemma keeps_serve P :
  (forall authorization, keeps P (admin_of authorization)) ->
  (forall A (m : M A), preserves emails_unique m -> keeps P (in_core m)) ->
  (forall filter, keeps P (find_one filter)) ->
  (forall filter limit, keeps P (find_limit filter limit)) ->
  (forall d, keeps P (insert_one d)) ->
  (forall d, keeps P (health_insert_one d)) ->
  (forall o u, keeps P (update_one o u)) ->
  (forall o, keeps P (delete_one o)) ->
  forall r s, P s -> P (serve exn_str r s).
Proof.
  intros Hadmin Hcore Hfind Hlimit Hinsert Hhealth Hupdate Hdelete r s Hs.
  destruct r; cbn [serve].
  - by apply (keeps_ret P).
  - revert s Hs. unfold test.
    apply keeps_try_except; [|intros ?; apply keeps_raise].
    apply keeps_bind; [apply Hcore, preserves_utcnow|intros ?].
    apply keeps_bind; [apply Hhealth|intros ?; apply keeps_ret].
  - revert s Hs. apply Hcore, preserves_register.
  - revert s Hs. apply Hcore, preserves_login.
  - revert s Hs. apply Hcore, preserves_me, _.
  - revert s Hs. unfold list_courses, get_documents. cbv zeta.
    apply keeps_bind; [|intros ?; apply keeps_ret].
    apply keeps_bind; [apply Hlimit|intros ?; apply keeps_pop_ids].
  - revert s Hs. unfold create_course, create_document.
    apply keeps_bind; [apply Hadmin|intros ?].
    apply keeps_bind; [apply Hcore, preserves_utcnow|intros ?]. cbv zeta.
    apply keeps_bind; [apply Hinsert|intros ?].
    apply keeps_bind; [apply Hfind|intros ?].
    repeat case_match; first [apply keeps_ret|apply keeps_pop_id].
  - revert s Hs. unfold update_course.
    apply keeps_bind; [apply Hadmin|intros ?]. cbv zeta.
    case_match; [apply keeps_ret|].
    apply keeps_bind; [apply Hcore, preserves_utcnow|intros ?].
    apply keeps_bind; [apply keeps_lift|intros ?].
    apply keeps_bind; [apply Hupdate|intros ?].
    case_match; [apply keeps_raise|].
    apply keeps_bind; [apply keeps_lift|intros ?].
    apply keeps_bind; [apply Hfind|intros ?].
    case_match; [apply keeps_pop_id|apply keeps_raise].
  - revert s Hs. unfold delete_course.
    apply keeps_bind; [apply Hadmin|intros ?].
    apply keeps_bind; [apply keeps_lift|intros ?].
    apply keeps_bind; [apply Hdelete|intros ?].
    case_match; [apply keeps_raise|apply keeps_ret].
  - revert s Hs. apply Hcore, preserves_admin_list_users, _.
Qed.

(** X24. The ids of the course collection stay distinct under every
    request to every route, whatever the store does in between. *)
Theorem course_ids_stay_distinct (s0 s : site) :
  NoDup (fst <$> course s0) ->
  reaches exn_str s0 s ->
  NoDup (fst <$> course s).
Proof.
  intros H0 Hr. revert H0.
  induction Hr as [s|r s s' _ IH|fs t n s s' _ IH]; [done| |].
  - intros Hs. apply IH. revert Hs. apply (keeps_serve course_ids_distinct).
    + apply course_ids_admin_of.
    + intros A m _. apply course_ids_in_core.
    + apply course_ids_find_one.
    + apply course_ids_find_limit.
    + apply course_ids_insert_one.
    + apply course_ids_health_insert_one.
    + apply course_ids_update_one.
    + apply course_ids_delete_one.
  - intros Hs. by apply IH.
Qed.

End Requests.

End Keeping.

(** * The health check and the indexes *)

Section Health.
Context {L : Libraries}.

Import Courses.

(** X22. The health check [GET /test] in every environment: it never
    touches users or courses and raises nothing but the 503; when the
    store takes the write it answers [{"status": "ok"}] and [__health]
    has grown by one document (the timestamp cut to milliseconds), when
    the store fails the failure becomes the 503 "Database unavailable:
    ..." and [__health] is as it was. *)
Theorem test_reports_the_store (exn_str : exn -> string) (s : site) :
  let s' := run_s (test exn_str) s in
  users (core s') = users (core s) /\ course s' = course s /\
  match trip_error (core s) with
  | None =>
      out_s (test exn_str) s = Ok {[ "status" := FStr "ok" ]} /\
      health s' =
        (health s ++
           [(fresh_id (health s),
             {[ "ok" := FBool true;
                "ts" := FTime (1000 * (now (core s) / 1000)) ]})])%list
  | Some e =>
      out_s (test exn_str) s =
        Err (HTTPException 503 ("Database unavailable: " ++ exn_str e) []) /\
      health s' = health s
  end.
Proof.
  intros s'. unfold s', out_s, run_s, test, try_except_s.
  rewrite (bind_s_ok _ _ _ _ _ (utcnow_s s)).
  unfold bind_s at 1 2 3 4 5. unfold health_insert_one, bind_s.
  rewrite in_core_eq. unfold out, run. rewrite round_trip_eq.
  destruct (trip_error (core s)) as [e|]; cbn [fst snd].
  - cbn [core set_core users course health raise_s fst snd].
    rewrite users_after_trip. done.
  - cbn [core set_core set_health users course health ret_s fst snd].
    rewrite users_after_trip. done.
Qed.

Lemma create_index_s name s :
  faults (core s) = [] ->
  create_index name s =
    (Ok tt,
     if bool_decide (name ∈ course_indexes s) then s
     else set_course_indexes (course_indexes s ++ [name]) s).
Proof.
  intros H. unfold create_index.
  rewrite (bind_s_ok _ _ _ _ _ (round_trip_s s H)). by case_bool_decide.
Qed.

Lemma create_index_email_unique w :
  faults w = [] -> email_unique w = true -> emails_distinct (users w) = true ->
  create_index_email w = (Ok tt, w).
Proof.
  intros H Hu Hd. unfold create_index_email.
  rewrite (bind_ok _ _ _ _ _ (round_trip_ok w H)). rewrite Hd.
  f_equal. destruct w. simpl in *. by subst.
Qed.

(** X23. [ensure_indexes] with the store answering: if the stored emails
    are distinct it creates the unique index and the two course
    indexes, touches no document, and calling it again changes
    nothing; if two users share an email it raises the duplicate-key
    error and creates no index, the course indexes included. *)
Theorem ensure_indexes_outcome (s : site) :
  faults (core s) = [] ->
  let s' := run_s ensure_indexes s in
  if emails_distinct (users (core s)) then
    out_s ensure_indexes s = Ok tt /\
    email_unique (core s') = true /\
    "published_1" ∈ course_indexes s' /\ "title_1" ∈ course_indexes s' /\
    users (core s') = users (core s) /\ course s' = course s /\
    ensure_indexes s' = (Ok tt, s')
  else
    ensure_indexes s = (Err DuplicateKeyError, s).
Proof.
  intros H s'.
  assert (in_core create_index_email s =
            if emails_distinct (users (core s))
            then (Ok tt, set_core (set_email_unique true (core s)) s)
            else (Err DuplicateKeyError, s)) as Hi.
  { rewrite in_core_eq. unfold out, run, create_index_email.
    rewrite (bind_ok _ _ _ _ _ (round_trip_ok _ H)).
    destruct (emails_distinct (users (core s))); cbn [fst snd]; [done|].
    by rewrite set_core_core. }
  destruct (emails_distinct (users (core s))) eqn:Hd.
  2:{ unfold ensure_indexes. by rewrite (bind_s_err _ _ _ _ _ Hi). }
  set (s1 := set_core (set_email_unique true (core s)) s) in *.
  assert (faults (core s1) = []) as H1 by done.
  pose proof (create_index_s "published_1" s1 H1) as Hp.
  set (s2 := if bool_decide ("published_1" ∈ course_indexes s1) then s1 else _)
    in Hp.
  assert (faults (core s2) = []) as H2 by (unfold s2; by case_bool_decide).
  pose proof (create_index_s "title_1" s2 H2) as Ht.
  set (s3 := if bool_decide ("title_1" ∈ course_indexes s2) then s2 else _)
    in Ht.
  assert (ensure_indexes s = (Ok tt, s3)) as He.
  { unfold ensure_indexes.
    by rewrite (bind_s_ok _ _ _ _ _ Hi), (bind_s_ok _ _ _ _ _ Hp). }
  assert (core s2 = core s1 /\ course s2 = course s1 /\
          "published_1" ∈ course_indexes s2) as (Hc2 & Hk2 & Hp2).
  { unfold s2. case_bool_decide; [done|]. repeat split.
    cbn [course_indexes set_course_indexes]. apply elem_of_app. right. left. }
  assert (core s3 = core s1 /\ course s3 = course s1 /\
          "published_1" ∈ course_indexes s3 /\
          "title_1" ∈ course_indexes s3) as (Hc3 & Hk3 & Hp3 & Ht3).
  { unfold s3. case_bool_decide; [done|]. repeat split; try done.
    - cbn [course_indexes set_course_indexes]. apply elem_of_app. by left.
    - cbn [course_indexes set_course_indexes]. apply elem_of_app. right. left. }
  unfold s', out_s, run_s. rewrite He. cbn [fst snd].
  split; [done|]. rewrite Hc3, Hk3. repeat split; try done.
  unfold ensure_indexes.
  erewrite bind_s_ok.
  2:{ apply in_core_unchanged. rewrite Hc3.
      apply create_index_email_unique; done. }
  rewrite (bind_s_ok _ _ s3 tt s3).
  2:{ rewrite create_index_s by (by rewrite Hc3).
      by rewrite bool_decide_eq_true_2. }
  rewrite create_index_s by (by rewrite Hc3).
  by rewrite bool_decide_eq_true_2.
Qed.

End Health.

(** * The further properties on concrete requests *)

Lemma register_keeps_emails_distinct_witness :
  email_unique alice_world = false /\
  out (@register toy alice_again) (run (@register toy student) alice_world)
    = Err (HTTPException 400 "Email already registered" []) /\
  emails_distinct
    (users (run (@register toy alice_again)
              (run (@register toy student) alice_world))) = true.
Proof.
  split; [decide_by_vm|]. split; [decide_by_vm|].
  apply (@register_keeps_emails_distinct toy empty_world); [decide_by_vm|].
  apply registrations_request with (user_in := alice).
  apply registrations_request with (user_in := student).
  apply registrations_request with (user_in := alice_again).
  apply registrations_refl.
Defined.

(** [login] is another matter: without the index, its bootstrap puts
    the default admin next to a record that already has the address. *)
Example login_duplicates_default_address :
  emails_distinct (users (run (@register toy squatter) empty_world)) = true /\
  emails_distinct
    (users (run (@login toy alice_form)
              (run (@register toy squatter) empty_world))) = false.
Proof. decide_by_vm. Qed.

Lemma register_lost_response_witness :
  out (@register toy alice) flaky_world = Err (PyMongoError "AutoReconnect") /\
  users (run (@register toy alice) flaky_world) =
    (users flaky_world ++
       [(fresh_oid (users flaky_world),
         @user_record toy alice "$toy$0$pw123" flaky_world)])%list /\
  @register toy alice (set_faults [] (run (@register toy alice) flaky_world)) =
    (Err (HTTPException 400 "Email already registered" []),
     set_faults [] (run (@register toy alice) flaky_world)).
Proof.
  apply (@register_lost_response toy alice "$toy$0$pw123"
           (PyMongoError "AutoReconnect") [] flaky_world); decide_by_vm.
Defined.

Lemma login_soundness_witness :
  exists s h alg claims signature,
    alice_bearer = Jws alg claims signature /\
    s ∈ users (run (@login toy alice_form) alice_world) /\
    claims !! "sub" = Some (VStr (oid_str s.1)) /\
    (field_is "email" (VStr (Form.username alice_form)) s = true \/
     field_is "full_name" (VStr (Form.username alice_form)) s = true) /\
    get_default (as_doc s) "hashed_password" (VStr "") = VStr h /\
    @pwd_context_verify toy (Form.password alice_form) h = Ok true.
Proof.
  apply (@login_token_only_for_verified_password toy alice_form alice_bearer
           alice_world (run (@login toy alice_form) alice_world)).
  decide_by_vm.
Defined.

Lemma login_incorrect_credentials_witness :
  @login toy (Form.Build "nobody@x.com" "anything") alice_world =
    (Err (HTTPException 400 "Incorrect credentials" []),
     run (@ensure_default_admin toy) alice_world) /\
  @login toy (Form.Build "alice@test.io" "wrongpassword") alice_world =
    (Err (HTTPException 400 "Incorrect credentials" []),
     run (@ensure_default_admin toy) alice_world) /\
  @login strict (Form.Build "bob@test.io" "anything") nohash_world =
    (Err (LibraryError "UnknownHashError"),
     run (@ensure_default_admin strict) nohash_world).
Proof.
  split; [|split].
  - apply (proj1 (@login_incorrect_credentials toy
                    (Form.Build "nobody@x.com" "anything") alice_world
                    ltac:(decide_by_vm))).
    decide_by_vm.
  - apply (proj1 (proj2 (@login_incorrect_credentials toy
                           (Form.Build "alice@test.io" "wrongpassword")
                           alice_world ltac:(decide_by_vm))
                    (as_doc (1%N, alice_doc)) "$toy$0$pw123"
                    ltac:(decide_by_vm) ltac:(decide_by_vm))).
    decide_by_vm.
  - apply (proj2 (proj2 (@login_incorrect_credentials strict
                           (Form.Build "bob@test.io" "anything")
                           nohash_world ltac:(decide_by_vm))
                    (as_doc (1%N, bob_doc)) ""
                    ltac:(decide_by_vm) ltac:(decide_by_vm))).
    decide_by_vm.
Defined.

Lemma login_token_identifies_user_witness :
  exists alg claims sig,
    @login toy alice_form alice_world =
      (Ok (Jws alg claims sig), run (@ensure_default_admin toy) alice_world) /\
    claims !! "sub" = Some (VStr (oid_str 1)) /\
    claims !! "role" =
      Some (get_default (as_doc (1%N, alice_doc)) "role" (VStr "student")) /\
    claims !! "exp" = Some (VInt (timegm (now alice_world) + 86400)) /\
    @get_current_user toy (Jws alg claims sig)
      (run (@ensure_default_admin toy) alice_world) =
      (Ok (listed (1%N, alice_doc)),
       run (@ensure_default_admin toy) alice_world).
Proof.
  apply (@login_token_identifies_user toy alice_form (1%N, alice_doc)
           "$toy$0$pw123" alice_world); decide_by_vm.
Defined.

Lemma default_admin_login_witness :
  (exists tok admin,
     out (@login toy (Form.Build "antonio.admin@demo.local" "Antonio89"))
       empty_world = Ok tok /\
     @current_admin toy tok
       (run (@login toy (Form.Build "antonio.admin@demo.local" "Antonio89"))
          empty_world) =
       (Ok admin,
        run (@login toy (Form.Build "antonio.admin@demo.local" "Antonio89"))
          empty_world) /\
     admin !! "email" = Some (VStr "antonio.admin@demo.local") /\
     admin !! "role" = Some (VStr "admin")) /\
  (out (@login strict (Form.Build "antonio.admin@demo.local" "Antonio89"))
     empty_world = Err (HTTPException 400 "Incorrect credentials" []) /\
   users
     (run (@login strict (Form.Build "antonio.admin@demo.local" "Antonio89"))
        empty_world) = users empty_world).
Proof.
  split.
  - apply (proj1 (@default_admin_login toy empty_world
                    ltac:(decide_by_vm) ltac:(decide_by_vm)
                    ltac:(decide_by_vm) ltac:(decide_by_vm)
                    ltac:(decide_by_vm)) "$toy$0$Antonio89");
      decide_by_vm.
  - apply (proj2 (@default_admin_login strict empty_world
                    ltac:(decide_by_vm) ltac:(decide_by_vm)
                    ltac:(decide_by_vm) ltac:(decide_by_vm)
                    ltac:(decide_by_vm)));
      decide_by_vm.
Defined.

Lemma register_login_me_witness :
  exists resp tok,
    out (@register toy alice) empty_world = Ok resp /\
    out (@login toy alice_form) (run (@register toy alice) empty_world)
      = Ok tok /\
    out (@me toy (Some tok))
      (run (@login toy alice_form) (run (@register toy alice) empty_world))
      = Ok resp.
Proof.
  apply (@register_login_me toy alice "$toy$0$pw123" empty_world);
    decide_by_vm.
Defined.

Lemma token_window_witness :
  exists tok,
    out (@create_access_token toy
           {[ "sub" := VStr first_id; "role" := VStr "student" ]} None)
      (set_now 0 empty_world) = Ok tok /\
    out (@jwt_decode toy tok SECRET_KEY [ALGORITHM])
      (set_now (hours 24 + 999999) empty_world) =
      if timegm 0 + 86400 <? timegm (hours 24 + 999999)
      then Err (JWTError "Signature has expired.")
      else Ok (<["exp" := VInt (timegm 0 + 86400)]>
                 {[ "sub" := VStr first_id; "role" := VStr "student" ]}).
Proof.
  apply (@token_valid_through_expiry_second toy first_id (VStr "student") 0
           (hours 24 + 999999) empty_world).
  decide_by_vm.
Defined.

Lemma forged_token_witness :
  @get_current_user toy promoted_bearer student_world =
    (Err credentials_exception, student_world) /\
  @me toy (Some promoted_bearer) student_world =
    (Err credentials_exception, student_world) /\
  @admin_list_users toy (Some promoted_bearer) student_world =
    (Err credentials_exception, student_world).
Proof.
  apply (@forged_token_never_reaches_store toy promoted_bearer student_world).
  unfold genuine. decide_by_vm.
Defined.

Lemma list_courses_window_witness :
  Courses.list_courses 1 50 school_with_two =
    (Ok (Courses.listed <$>
           take 50 (drop (Z.to_nat 1) (limited 50 (Courses.course school_with_two)))),
     school_with_two).
Proof.
  apply (list_courses_window 1 50%nat school_with_two);
    [decide_by_vm|lia].
Defined.

Lemma list_courses_later_pages_witness :
  Courses.list_courses 1 1 school_with_two = (Ok [], school_with_two).
Proof.
  apply (list_courses_later_pages_empty 1 1%nat school_with_two);
    [decide_by_vm|lia].
Defined.

Lemma course_writes_need_admin_witness :
  (Courses.out_s (@Courses.create_course toy student_bearer rocq_course) school
     = Err (HTTPException 403 "Admin privileges required" []) /\
   Courses.course
     (Courses.run_s (@Courses.create_course toy student_bearer rocq_course)
        school) = Courses.course school) /\
  (Courses.out_s (@Courses.update_course toy student_bearer first_id publish)
     school = Err (HTTPException 403 "Admin privileges required" []) /\
   Courses.course
     (Courses.run_s (@Courses.update_course toy student_bearer first_id publish)
        school) = Courses.course school) /\
  (Courses.out_s (@Courses.delete_course toy student_bearer first_id) school
     = Err (HTTPException 403 "Admin privileges required" []) /\
   Courses.course
     (Courses.run_s (@Courses.delete_course toy student_bearer first_id) school)
     = Courses.course school).
Proof.
  apply (@course_writes_need_admin toy student_bearer first_id rocq_course
           publish (HTTPException 403 "Admin privileges required" []) school).
  decide_by_vm.
Defined.

Lemma create_course_witness :
  @Courses.create_course toy admin_bearer rocq_course school =
    (Ok (Courses.listed rocq_stored),
     Courses.set_course (Courses.course school ++ [rocq_stored]) school) /\
  forall limit : nat,
    (List.length (Courses.course school) < limit)%nat ->
    Courses.list_courses 0 limit
      (Courses.set_course (Courses.course school ++ [rocq_stored]) school) =
      (Ok ((Courses.listed <$> Courses.course school)
             ++ [Courses.listed rocq_stored])%list,
       Courses.set_course (Courses.course school ++ [rocq_stored]) school).
Proof.
  apply (@create_course_stores_and_lists toy admin_bearer the_admin
           rocq_course school); decide_by_vm.
Defined.

Lemma update_course_empty_body_witness :
  @Courses.update_course toy admin_bearer "not an id" no_update school =
    (Ok {[ "updated" := FBool false ]}, school).
Proof.
  apply (@update_course_empty_body toy admin_bearer "not an id" the_admin
           school school).
  decide_by_vm.
Defined.

Lemma update_course_witness :
  @Courses.update_course toy admin_bearer first_id publish school_with_course =
    (Ok (Courses.listed
           (1%N,
            <["updated_at" := FStr (@isoformat toy 0)]> (supplied publish)
              ∪ rocq_stored.2)),
     Courses.set_course
       ((fun c' : Courses.stored =>
           if bool_decide (c'.1 = 1%N)
           then (c'.1,
                 <["updated_at" := FStr (@isoformat toy 0)]> (supplied publish)
                   ∪ c'.2)
           else c')
          <$> Courses.course school_with_course) school_with_course).
Proof.
  apply (@update_course_sets_supplied_fields toy admin_bearer the_admin
           first_id rocq_stored publish school_with_course); decide_by_vm.
Defined.

Lemma unknown_course_witness :
  @Courses.update_course toy admin_bearer absent_id publish school_with_course
    = (Err not_found, school_with_course) /\
  @Courses.delete_course toy admin_bearer absent_id school_with_course
    = (Err not_found, school_with_course).
Proof.
  apply (@unknown_course_not_found toy admin_bearer the_admin absent_id
           255%N publish school_with_course); decide_by_vm.
Defined.

Lemma malformed_course_id_witness :
  @Courses.update_course toy admin_bearer "42" publish school_with_course
    = (Err InvalidId, school_with_course) /\
  @Courses.delete_course toy admin_bearer "42" school_with_course
    = (Err InvalidId, school_with_course).
Proof.
  apply (@malformed_course_id_escapes toy admin_bearer the_admin "42" publish
           school_with_course school_with_course); decide_by_vm.
Defined.

Lemma delete_course_witness :
  @Courses.delete_course toy admin_bearer first_id school_with_two =
    (Ok {[ "deleted" := FBool true ]},
     Courses.set_course
       (List.filter
          (fun c' : Courses.stored => negb (bool_decide (c'.1 = 1%N)))
          (Courses.course school_with_two)) school_with_two) /\
  @Courses.delete_course toy admin_bearer first_id
    (Courses.set_course
       (List.filter
          (fun c' : Courses.stored => negb (bool_decide (c'.1 = 1%N)))
          (Courses.course school_with_two)) school_with_two) =
    (Err not_found,
     Courses.set_course
       (List.filter
          (fun c' : Courses.stored => negb (bool_decide (c'.1 = 1%N)))
          (Courses.course school_with_two)) school_with_two).
Proof.
  apply (@delete_course_removes_it toy admin_bearer the_admin first_id
           rocq_stored school_with_two); decide_by_vm.
Defined.

Lemma ensure_indexes_witness :
  Courses.out_s Courses.ensure_indexes empty_site = Ok tt /\
  email_unique (Courses.core (Courses.run_s Courses.ensure_indexes empty_site))
    = true /\
  "published_1" ∈
    Courses.course_indexes (Courses.run_s Courses.ensure_indexes empty_site) /\
  "title_1" ∈
    Courses.course_indexes (Courses.run_s Courses.ensure_indexes empty_site) /\
  users (Courses.core (Courses.run_s Courses.ensure_indexes empty_site))
    = users (Courses.core empty_site) /\
  Courses.course (Courses.run_s Courses.ensure_indexes empty_site)
    = Courses.course empty_site /\
  Courses.ensure_indexes (Courses.run_s Courses.ensure_indexes empty_site) =
    (Ok tt, Courses.run_s Courses.ensure_indexes empty_site).
Proof.
  apply (ensure_indexes_outcome empty_site). decide_by_vm.
Defined.

Lemma course_ids_witness :
  NoDup
    (fst <$>
       Courses.course
         (@serve toy (fun _ => "") (CreateCourse admin_bearer logic_course)
            school_with_course)).
Proof.
  apply (@course_ids_stay_distinct toy (fun _ => "") school_with_course);
    [decide_by_vm|].
  apply reaches_request with (r := CreateCourse admin_bearer logic_course).
  apply reaches_refl.
Defined.

(** The course routes from end to end: the default admin creates a
    draft, anybody lists it, the admin publishes and then deletes it,
    and the id of the deleted course is not found any more. *)
Example courses_end_to_end :
  Courses.listed rocq_stored !! "published" = Some (FBool false) /\
  Courses.out_s (Courses.list_courses 0 50) school_with_course
    = Ok [Courses.listed rocq_stored] /\
  (fun r => match r with Ok d => d !! "published" | Err _ => None end)
    (Courses.out_s (@Courses.update_course toy admin_bearer first_id publish)
       school_with_course) = Some (FBool true) /\
  Courses.out_s (@Courses.delete_course toy admin_bearer first_id)
    school_with_course = Ok {[ "deleted" := FBool true ]} /\
  Courses.out_s (@Courses.delete_course toy admin_bearer first_id)
    (Courses.run_s (@Courses.delete_course toy admin_bearer first_id)
       school_with_course) = Err not_found.
Proof. decide_by_vm. Qed.
